(** * Jobly: the partial-update builder, the route guards and the user model

    A shallow embedding of the query-construction and authorisation code of
    the jobly API (helpers/sql.js, routes/users.js, routes/companies.js,
    models/user.js) together with the properties its specification states
    about them.

    JavaScript objects used as dictionaries are finite maps; an object
    whose iteration order matters (the field map of a partial update) is
    the list of its own enumerable entries in [Object.keys] order. A
    property that is not an object's own is read from Object.prototype.
    The database is reached through [db.query] only: its relations and
    the statements sent to it are modelled, the types and constraints of
    its columns are a parameter. *)

From Stdlib Require Import Ascii String Sorted.
From stdpp Require Import base option list gmap strings pretty.

Open Scope string_scope.

(** ** JavaScript values *)

Module JS.

(** Numbers are the integers among the doubles, the infinities and NaN;
    objects keep their own enumerable properties in the order
    [Object.keys] lists them; a function is known by its name. *)
#[warnings="-register-all"]
Inductive value : Type :=
| JUndefined
| JNull
| JBool (b : bool)
| JNum (n : Z)
| JInf (negative : bool)
| JNaN
| JStr (s : string)
| JArr (elems : list value)
| JObj (props : list (string * value))
| JFun (name : string).

Definition object : Type := list (string * value).

(** ToBoolean. *)
Definition truthy (v : value) : bool :=
  match v with
  | JUndefined | JNull | JNaN => false
  | JBool b => b
  | JNum n => negb (n =? 0)%Z
  | JStr s => negb (String.eqb s EmptyString)
  | JInf _ | JArr _ | JObj _ | JFun _ => true
  end.

(** *** Numbers

    A natural number as the nearest double: 53 significant bits, ties to
    even. *)
Definition round53 (n : Z) : Z :=
  let bits := (Z.log2 n + 1)%Z in
  if (bits <=? 53)%Z then n
  else
    let e := (bits - 53)%Z in
    let q := Z.shiftr n e in
    let r := (n - Z.shiftl q e)%Z in
    let half := Z.shiftl 1 (e - 1) in
    let q' := if (half <? r)%Z || ((r =? half)%Z && Z.odd q) then (q + 1)%Z else q in
    Z.shiftl q' e.

(** The number value of an integer. *)
Definition number (n : Z) : value :=
  let r := round53 (Z.abs n) in
  if (2 ^ 1024 <=? r)%Z then JInf (n <? 0)%Z
  else JNum (if (n <? 0)%Z then - r else r)%Z.

(** The integer with the fewest significant digits that the double [x]
    is the nearest double of; among two, the closer one, then the even
    one. *)
Definition candidate (x : Z) (d k : Z) : option Z :=
  if (d <? k)%Z then None
  else
    let p := (10 ^ (d - k))%Z in
    let lo := (x / p * p)%Z in
    let hi := (lo + p)%Z in
    match (round53 lo =? x)%Z, (round53 hi =? x)%Z with
    | true, true =>
        Some (if (x - lo <? hi - x)%Z then lo
              else if (hi - x <? x - lo)%Z then hi
              else if Z.even (lo / p) then lo else hi)
    | true, false => Some lo
    | false, true => Some hi
    | false, false => None
    end.

Definition shortest (x : Z) : Z :=
  let d := Z.of_nat (String.length (pretty x)) in
  default x
    (foldr (fun k found => match candidate x d (Z.of_nat k) with
                           | Some v => Some v
                           | None => found
                           end) None (seq 1 17)).

Fixpoint trim_zeros (s : string) : string :=
  match s with
  | EmptyString => EmptyString
  | String c s' =>
      let t := trim_zeros s' in
      if Ascii.eqb c "0" && String.eqb t EmptyString then EmptyString else String c t
  end.

(** Number::toString on a natural number. *)
Definition print_natural (n : Z) : string :=
  if (n <=? 2 ^ 53)%Z then pretty n
  else
    let s := pretty (shortest (round53 n)) in
    if (String.length s <=? 21)%nat then s
    else
      match trim_zeros s with
      | String c EmptyString => String c ("e+" +:+ pretty (String.length s - 1))
      | String c r => String c ("." +:+ r +:+ "e+" +:+ pretty (String.length s - 1))
      | EmptyString => s
      end.

Definition print_number (n : Z) : string :=
  if (n <? 0)%Z then "-" +:+ print_natural (- n) else print_natural n.

(** ToString, as a template literal applies it. Inside an array
    [undefined] and [null] print as the empty string. *)
Fixpoint to_string (v : value) : string :=
  match v with
  | JUndefined => "undefined"
  | JNull => "null"
  | JBool true => "true"
  | JBool false => "false"
  | JNum n => print_number n
  | JInf false => "Infinity"
  | JInf true => "-Infinity"
  | JNaN => "NaN"
  | JStr s => s
  | JArr elems =>
      String.concat ","
        (map (fun e => match e with
                       | JUndefined | JNull => EmptyString
                       | _ => to_string e
                       end) elems)
  | JObj _ => "[object Object]"
  | JFun name => "function " +:+ name +:+ "() { [native code] }"
  end.

(** [a || b] *)
Definition or (a b : value) : value := if truthy a then a else b.

Definition keys (o : object) : list string := o.*1.
Definition values (o : object) : list value := o.*2.

(** *** Properties

    What every object literal and every parsed body inherits from
    [Object.prototype]: its methods, and the prototype itself under
    [__proto__]. *)
Definition Object_prototype : object :=
  [("constructor", JFun "Object");
   ("toString", JFun "toString");
   ("toLocaleString", JFun "toLocaleString");
   ("valueOf", JFun "valueOf");
   ("hasOwnProperty", JFun "hasOwnProperty");
   ("isPrototypeOf", JFun "isPrototypeOf");
   ("propertyIsEnumerable", JFun "propertyIsEnumerable");
   ("__defineGetter__", JFun "__defineGetter__");
   ("__defineSetter__", JFun "__defineSetter__");
   ("__lookupGetter__", JFun "__lookupGetter__");
   ("__lookupSetter__", JFun "__lookupSetter__");
   ("__proto__", JObj [])].

Fixpoint own (o : object) (k : string) : option value :=
  match o with
  | [] => None
  | (k', v) :: o' => if String.eqb k' k then Some v else own o' k
  end.

(** The value of a property that is not an own property. *)
Definition inherited (k : string) : value := default JUndefined (own Object_prototype k).

(** [o[k]] on an object used as a dictionary. *)
Definition get (o : gmap string value) (k : string) : value :=
  match o !! k with
  | Some v => v
  | None => inherited k
  end.

(** [o.k] on an ordered object. *)
Fixpoint prop (o : object) (k : string) : value :=
  match o with
  | [] => inherited k
  | (k', v) :: o' => if String.eqb k' k then v else prop o' k
  end.

(** [o.k = v]: an own property keeps its place, a new one is appended. *)
Fixpoint assign (o : object) (k : string) (v : value) : object :=
  match o with
  | [] => [(k, v)]
  | (k', v') :: o' =>
      if String.eqb k' k then (k, v) :: o' else (k', v') :: assign o' k v
  end.

(** [delete o.k] *)
Definition delete (o : object) (k : string) : object :=
  filter (fun kv => negb (String.eqb kv.1 k)) o.

(** [v === undefined] *)
Definition is_undefined (v : value) : bool :=
  match v with JUndefined => true | _ => false end.

(** [parseInt(s, 10)]: leading white space, an optional sign, then the
    longest run of decimal digits; NaN when there is no digit. *)
Definition digit (c : ascii) : option Z :=
  let n := Z.of_nat (nat_of_ascii c) in
  if ((48 <=? n) && (n <=? 57))%Z then Some (n - 48)%Z else None.

Fixpoint digits (acc : option Z) (s : string) : option Z :=
  match s with
  | EmptyString => acc
  | String c s' =>
      match digit c with
      | Some d => digits (Some (10 * default 0%Z acc + d)%Z) s'
      | None => acc
      end
  end.

Definition is_space (c : ascii) : bool :=
  let n := nat_of_ascii c in
  (n =? 32)%nat || ((9 <=? n)%nat && (n <=? 13)%nat).

Fixpoint skip_spaces (s : string) : string :=
  match s with
  | String c s' => if is_space c then skip_spaces s' else s
  | EmptyString => s
  end.

Definition parseInt (s : string) : value :=
  match skip_spaces s with
  | String "-" s' => from_option (fun n => number (- n)) JNaN (digits None s')
  | String "+" s' => from_option number JNaN (digits None s')
  | s' => from_option number JNaN (digits None s')
  end.

End JS.

Import JS.

(** ** Errors

    The three classes of expressError.js that the sources throw, and
    [OtherError] for whatever a collaborator (the storage driver, the
    hashing library) throws: the handlers pass those on unchanged. *)

Inductive error : Type :=
| BadRequestError (message : value)
| UnauthorizedError (message : value)
| NotFoundError (message : value)
| OtherError (detail : string).

Definition result (A : Type) : Type := error + A.

(** ** helpers/sql.js *)

Definition dquote : string := String "034"%char EmptyString.

Record partialUpdate : Type := PartialUpdate {
  setCols : string;
  values : list value
}.

(** The column a field is stored under: [jsToSql[colName] || colName],
    as the template literal prints it. *)
Definition columnName (jsToSql : gmap string value) (colName : string) : string :=
  to_string (JS.or (JS.get jsToSql colName) (JStr colName)).

(** One element of [cols]: the quoted column, then [=$] and [idx + 1]. *)
Definition fragment (jsToSql : gmap string value) (idx : nat) (colName : string) : string :=
  dquote +:+ columnName jsToSql colName +:+ dquote +:+ "=$" +:+ pretty (idx + 1).

Definition sqlForPartialUpdate (dataToUpdate : JS.object) (jsToSql : gmap string value)
  : result partialUpdate :=
  let keys := JS.keys dataToUpdate in
  if (length keys =? 0)%nat then inl (BadRequestError (JStr "No data"))
  else
    let cols := imap (fragment jsToSql) keys in
    inr {| setCols := String.concat ", " cols;
           values := JS.values dataToUpdate |}.

(** ** The store

    The relations behind [db.query], and one operation for each
    statement of models/user.js. The statements name the six columns of
    [users], the column [id] of [jobs] and the two columns of
    [applications]. *)

Module Db.

Record userRow : Type := UserRow {
  username : string;
  password : value;
  first_name : value;
  last_name : value;
  email : value;
  is_admin : value
}.

(** Modelled from the spec: the schema is absent from the sources. Section
    6 gives account records a unique subject key, position records a
    numeric id, and application records the composite key of subject and
    position id. *)
Record t : Type := Store {
  users : list userRow;
  jobs : list Z;
  applications : list (string * Z)
}.

(** What the sources do not decide: the types and constraints of the
    columns, which are in the schema file, the collation of the
    database, and the way the driver writes arrays and objects. *)
Record catalog : Type := Catalog {
  (** the value a column of [users] holds, as a later SELECT returns it,
      once a parameter is bound to it ([JNull] for NULL); [None] when the
      parameter is no input of the column's type *)
  column_value : string -> value -> option value;
  (** the constraints on a row of [users]: NOT NULL, CHECK *)
  row_ok : userRow -> bool;
  (** the order of [ORDER BY username] *)
  collation_le : string -> string -> bool;
  (** the text the driver sends for an array or an object *)
  serialize : value -> string
}.

Definition has_username (u : string) (r : userRow) : bool := String.eqb (username r) u.

(** [SELECT username, first_name AS firstName, last_name AS lastName,
    email, is_admin AS isAdmin] *)
Definition user_object (r : userRow) : JS.object :=
  [("username", JStr (username r)); ("firstName", first_name r);
   ("lastName", last_name r); ("email", email r); ("isAdmin", is_admin r)].

(** [SELECT username, password, first_name AS firstName, ...], the row
    [authenticate] reads. *)
Definition credentials_object (r : userRow) : JS.object :=
  [("username", JStr (username r)); ("password", password r);
   ("firstName", first_name r); ("lastName", last_name r);
   ("email", email r); ("isAdmin", is_admin r)].

(** [SELECT username ...] *)
Definition username_object (r : userRow) : JS.object := [("username", JStr (username r))].

Definition select_users (project : userRow -> JS.object) (u : string) (db : t)
  : list JS.object :=
  map project (filter (fun r => has_username u r) (users db)).

(** [ORDER BY username]: insertion into a list kept in the order of the
    collation. *)
Fixpoint insert_sorted (c : catalog) (r : userRow) (rs : list userRow) : list userRow :=
  match rs with
  | [] => [r]
  | r' :: rs' =>
      if collation_le c (username r) (username r') then r :: rs
      else r' :: insert_sorted c r rs'
  end.

Definition order_by_username (c : catalog) (rs : list userRow) : list userRow :=
  foldr (insert_sorted c) [] rs.

(** *** Parameters *)

(** The value bound to a placeholder, counted from 0. *)
Definition param (params : list value) (i : nat) : value :=
  default JUndefined (params !! i).

(** The text a parameter is sent as; [None] is NULL. *)
Definition text (c : catalog) (v : value) : option string :=
  match v with
  | JNull | JUndefined => None
  | JStr s => Some s
  | JArr _ | JObj _ => Some (serialize c v)
  | _ => Some (to_string v)
  end.

(** The range of an integer column. *)
Definition int4 (n : Z) : bool := (- 2 ^ 31 <=? n)%Z && (n <? 2 ^ 31)%Z.

Definition is_digit (c : ascii) : bool :=
  match digit c with Some _ => true | None => false end.

Fixpoint all_digits (acc : Z) (s : string) : option Z :=
  match s with
  | EmptyString => Some acc
  | String c s' =>
      match digit c with
      | Some d => all_digits (10 * acc + d) s'
      | None => if String.eqb (skip_spaces s) EmptyString then Some acc else None
      end
  end.

(** The integer a text writes: white space, an optional sign, digits,
    white space. *)
Definition integer_text (s : string) : option Z :=
  match skip_spaces s with
  | String "-" (String c s') =>
      if is_digit c then Z.opp <$> all_digits 0 (String c s') else None
  | String "+" (String c s') =>
      if is_digit c then all_digits 0 (String c s') else None
  | String c s' => if is_digit c then all_digits 0 (String c s') else None
  | EmptyString => None
  end.

(** The integer a parameter writes when it is compared with an integer
    column, or bound to one: [None] is NULL. A number is sent as its
    text. *)
Definition integer (c : catalog) (v : value) : result (option Z) :=
  match v with
  | JNum n => inr (Some n)
  | _ =>
      match text c v with
      | None => inr None
      | Some s =>
          match integer_text s with
          | Some n => inr (Some n)
          | None => inl (OtherError "invalid input syntax for type integer")
          end
      end
  end.

(** What the store answers to an integer that is outside the range of
    the column, and so is the id of no job; from 10^21 on the text of a
    number has an exponent. *)
Definition refused (id : value) : error :=
  match id with
  | JNum n =>
      if (Z.abs n <? 10 ^ 21)%Z then OtherError "value is out of range for type integer"
      else OtherError "invalid input syntax for type integer"
  | _ => OtherError "value is out of range for type integer"
  end.

(** [SELECT id FROM jobs WHERE id = $1]. NULL equals no id. *)
Definition select_job (c : catalog) (id : value) (db : t) : result (list JS.object) :=
  match integer c id with
  | inl e => inl e
  | inr None => inr []
  | inr (Some n) =>
      match filter (fun j => (j =? n)%Z) (jobs db) with
      | [] => if int4 n then inr [] else inl (refused id)
      | found => inr (map (fun j => [("id", JNum j)]) found)
      end
  end.

Definition same_application (u : string) (n : Z) (a : string * Z) : bool :=
  String.eqb a.1 u && (a.2 =? n)%Z.

(** [INSERT INTO applications (username, job_id) VALUES ($1, $2)]: the
    pair is the key of the relation, so NULL and a second copy are
    refused; the user and the job are rows of their relations. *)
Definition insert_application (c : catalog) (u : string) (id : value) (db : t)
  : result (list JS.object * t) :=
  match integer c id with
  | inl e => inl e
  | inr None => inl (OtherError "null value in column job_id violates not-null constraint")
  | inr (Some n) =>
      if negb (existsb (Z.eqb n) (jobs db)) && negb (int4 n) then inl (refused id)
      else if negb (existsb (has_username u) (users db)) || negb (existsb (Z.eqb n) (jobs db))
      then inl (OtherError "insert on table applications violates foreign key constraint")
      else if existsb (same_application u n) (applications db)
      then inl (OtherError "duplicate key value violates unique constraint")
      else inr ([], {| users := users db; jobs := jobs db;
                       applications := (applications db ++ [(u, n)])%list |})
  end.

(** [SELECT job_id FROM applications WHERE username = $1] *)
Definition select_applications (u : string) (db : t) : list JS.object :=
  map (fun a => [("job_id", JNum a.2)])
      (filter (fun a => String.eqb a.1 u) (applications db)).

(** [DELETE FROM users WHERE username = $1 RETURNING username]; the
    applications of a deleted account go with it. *)
Definition delete_user (u : string) (db : t) : list JS.object * t :=
  let deleted := filter (fun r => has_username u r) (users db) in
  (map username_object deleted,
   {| users := filter (fun r => negb (has_username u r)) (users db);
      jobs := jobs db;
      applications :=
        match deleted with
        | [] => applications db
        | _ => filter (fun a => negb (String.eqb a.1 u)) (applications db)
        end |}).

(** *** Rows of [users] *)

Definition columns : list string :=
  ["username"; "password"; "first_name"; "last_name"; "email"; "is_admin"].

Definition is_column (col : string) : bool := existsb (String.eqb col) columns.

(** One assignment to a column; the key is a text and is never NULL. *)
Definition set_column (col : string) (v : value) (r : userRow) : option userRow :=
  if String.eqb col "username" then
    match v with
    | JStr u =>
        Some {| username := u; password := password r;
                first_name := first_name r; last_name := last_name r;
                email := email r; is_admin := is_admin r |}
    | _ => None
    end
  else if String.eqb col "password" then
    Some {| username := username r; password := v;
            first_name := first_name r; last_name := last_name r;
            email := email r; is_admin := is_admin r |}
  else if String.eqb col "first_name" then
    Some {| username := username r; password := password r;
            first_name := v; last_name := last_name r;
            email := email r; is_admin := is_admin r |}
  else if String.eqb col "last_name" then
    Some {| username := username r; password := password r;
            first_name := first_name r; last_name := v;
            email := email r; is_admin := is_admin r |}
  else if String.eqb col "email" then
    Some {| username := username r; password := password r;
            first_name := first_name r; last_name := last_name r;
            email := v; is_admin := is_admin r |}
  else if String.eqb col "is_admin" then
    Some {| username := username r; password := password r;
            first_name := first_name r; last_name := last_name r;
            email := email r; is_admin := v |}
  else None.

(** The value of a column of a row. *)
Definition column (col : string) (r : userRow) : option value :=
  if String.eqb col "username" then Some (JStr (username r))
  else if String.eqb col "password" then Some (password r)
  else if String.eqb col "first_name" then Some (first_name r)
  else if String.eqb col "last_name" then Some (last_name r)
  else if String.eqb col "email" then Some (email r)
  else if String.eqb col "is_admin" then Some (is_admin r)
  else None.

Fixpoint set_columns (sets : list (string * value)) (r : userRow) : option userRow :=
  match sets with
  | [] => Some r
  | (col, v) :: sets' =>
      match set_column col v r with
      | Some r' => set_columns sets' r'
      | None => None
      end
  end.

(** The values the columns take from the parameters bound to them. *)
Fixpoint column_values (c : catalog) (sets : list (string * value))
  : option (list (string * value)) :=
  match sets with
  | [] => Some []
  | (col, v) :: sets' =>
      match column_value c col v, column_values c sets' with
      | Some v', Some rest => Some ((col, v') :: rest)
      | _, _ => None
      end
  end.

Fixpoint rewrite_rows (sets : list (string * value)) (rs : list userRow)
  : option (list userRow) :=
  match rs with
  | [] => Some []
  | r :: rs' =>
      match set_columns sets r, rewrite_rows sets rs' with
      | Some r', Some rest => Some (r' :: rest)
      | _, _ => None
      end
  end.

Definition blank : userRow :=
  {| username := EmptyString; password := JNull; first_name := JNull;
     last_name := JNull; email := JNull; is_admin := JNull |}.

Fixpoint distinct (l : list string) : bool :=
  match l with
  | [] => true
  | x :: l' => negb (existsb (String.eqb x) l') && distinct l'
  end.

(** The row that [INSERT INTO users (username, password, first_name,
    last_name, email, is_admin) VALUES ($1, $2, $3, $4, $5, $6)] makes of
    its parameters. *)
Definition make_row (c : catalog) (params : list value) : result userRow :=
  if negb (length params =? 6)%nat
  then inl (OtherError "bind message supplies the wrong number of parameters")
  else
    match column_values c (zip columns params) with
    | None => inl (OtherError "invalid input syntax")
    | Some sets =>
        match set_columns sets blank with
        | None => inl (OtherError "null value in column username violates not-null constraint")
        | Some r =>
            if row_ok c r then inr r
            else inl (OtherError "new row for relation users violates a constraint")
        end
    end.

(** [INSERT INTO users (...) VALUES ($1, ..., $6) RETURNING username,
    first_name AS firstName, last_name AS lastName, email, is_admin AS
    isAdmin] *)
Definition insert_user (c : catalog) (params : list value) (db : t)
  : result (list JS.object * t) :=
  match make_row c params with
  | inl e => inl e
  | inr r =>
      if existsb (has_username (username r)) (users db)
      then inl (OtherError "duplicate key value violates unique constraint")
      else inr ([user_object r],
                {| users := (users db ++ [r])%list; jobs := jobs db;
                   applications := applications db |})
  end.

(** *** The text of an UPDATE

    The statement of [User.update] reaches the store as a text. The
    store reads it token by token: words, which are folded to lower case,
    quoted identifiers, which are not empty and in which a doubled quote
    stands for a quote, placeholders, commas and equals signs, separated
    by any white space.
    A text that is not of the form

      UPDATE users SET column=$i, ... WHERE username = $k
      RETURNING username, first_name AS firstName, last_name AS lastName,
                email, is_admin AS isAdmin

    (the aliases quoted) is answered as a syntax error. *)

Inductive token : Type :=
| Word (w : string)
| Quoted (name : string)
| Placeholder (digits : string)
| Comma
| Equals.

Definition same_token (t1 t2 : token) : bool :=
  match t1, t2 with
  | Word w1, Word w2 => String.eqb w1 w2
  | Quoted n1, Quoted n2 => String.eqb n1 n2
  | Placeholder d1, Placeholder d2 => String.eqb d1 d2
  | Comma, Comma => true
  | Equals, Equals => true
  | _, _ => false
  end.

Inductive lexing : Type :=
| Between
| InWord (w : string)
| InQuoted (name : string)
| AfterQuote (name : string)
| InPlaceholder (digits : string).

Definition is_letter (c : ascii) : bool :=
  let n := nat_of_ascii c in
  ((65 <=? n) && (n <=? 90) || (97 <=? n) && (n <=? 122) || (n =? 95))%nat.

Definition lower (c : ascii) : ascii :=
  let n := nat_of_ascii c in
  if ((65 <=? n) && (n <=? 90))%nat then ascii_of_nat (n + 32) else c.

Definition snoc (s : string) (c : ascii) : string := s +:+ String c EmptyString.

(** A character read between two tokens. *)
Definition start (c : ascii) : option (list token * lexing) :=
  if is_space c then Some ([], Between)
  else if Ascii.eqb c "034" then Some ([], InQuoted EmptyString)
  else if Ascii.eqb c "$" then Some ([], InPlaceholder EmptyString)
  else if Ascii.eqb c "," then Some ([Comma], Between)
  else if Ascii.eqb c "=" then Some ([Equals], Between)
  else if is_letter c then Some ([], InWord (String (lower c) EmptyString))
  else None.

Definition after (t : token) (c : ascii) : option (list token * lexing) :=
  match start c with
  | Some (ts, st) => Some (t :: ts, st)
  | None => None
  end.

Definition step (st : lexing) (c : ascii) : option (list token * lexing) :=
  match st with
  | Between => start c
  | InWord w =>
      if is_letter c || is_digit c then Some ([], InWord (snoc w (lower c)))
      else after (Word w) c
  | InQuoted name =>
      if Ascii.eqb c "034" then Some ([], AfterQuote name)
      else Some ([], InQuoted (snoc name c))
  | AfterQuote name =>
      if Ascii.eqb c "034" then Some ([], InQuoted (snoc name c))
      else if String.eqb name EmptyString then None
      else after (Quoted name) c
  | InPlaceholder digits =>
      if is_digit c then Some ([], InPlaceholder (snoc digits c))
      else if String.eqb digits EmptyString then None
      else after (Placeholder digits) c
  end.

Definition finish (st : lexing) : option (list token) :=
  match st with
  | Between => Some []
  | InWord w => Some [Word w]
  | InQuoted _ => None
  | AfterQuote name =>
      if String.eqb name EmptyString then None else Some [Quoted name]
  | InPlaceholder digits =>
      if String.eqb digits EmptyString then None else Some [Placeholder digits]
  end.

Fixpoint lex (st : lexing) (s : string) : option (list token) :=
  match s with
  | EmptyString => finish st
  | String c s' =>
      match step st c with
      | Some (ts, st') =>
          match lex st' s' with
          | Some rest => Some (ts ++ rest)%list
          | None => None
          end
      | None => None
      end
  end.

(** The column a token names. *)
Definition column_of (t : token) : option string :=
  match t with
  | Quoted name => Some name
  | Word w => Some w
  | _ => None
  end.

(** [column=$i, ..., column=$j] and what follows it. *)
Fixpoint parse_set (ts : list token) : option (list (string * string) * list token) :=
  match ts with
  | t :: Equals :: Placeholder digits :: rest =>
      match column_of t with
      | None => None
      | Some col =>
          match rest with
          | Comma :: rest' =>
              match parse_set rest' with
              | Some (sets, rest'') => Some ((col, digits) :: sets, rest'')
              | None => None
              end
          | _ => Some ([(col, digits)], rest)
          end
      end
  | _ => None
  end.

Definition returning : list token :=
  [Word "returning"; Word "username"; Comma;
   Word "first_name"; Word "as"; Quoted "firstName"; Comma;
   Word "last_name"; Word "as"; Quoted "lastName"; Comma;
   Word "email"; Comma;
   Word "is_admin"; Word "as"; Quoted "isAdmin"].

(** The tokens after a given beginning. *)
Fixpoint expect (pre ts : list token) : option (list token) :=
  match pre, ts with
  | [], _ => Some ts
  | p :: pre', t :: ts' => if same_token p t then expect pre' ts' else None
  | _ :: _, [] => None
  end.

(** The assignments of an UPDATE, each a column and the digits of its
    placeholder, and the digits of the placeholder of its key. *)
Definition parse_update (sql : string) : option (list (string * string) * string) :=
  match lex Between sql with
  | None => None
  | Some ts =>
      match expect [Word "update"; Word "users"; Word "set"] ts with
      | None => None
      | Some ts1 =>
          match parse_set ts1 with
          | None => None
          | Some (sets, ts2) =>
              match expect [Word "where"; Word "username"; Equals] ts2 with
              | Some (Placeholder digits :: ts3) =>
                  match expect returning ts3 with
                  | Some [] => Some (sets, digits)
                  | _ => None
                  end
              | _ => None
              end
          end
      end
  end.

(** The row has applications. *)
Definition referenced (r : userRow) (db : t) : bool :=
  existsb (fun a => String.eqb a.1 (username r)) (applications db).

(** The parameter that the digits of a placeholder number, counted from
    0: [$1] is the first. *)
Definition placeholder (params : list value) (digits : string) : option nat :=
  find (fun i => String.eqb (pretty (i + 1)) digits) (seq 0 (length params)).

Fixpoint placeholders (params : list value) (sets : list (string * string))
  : option (list (string * nat)) :=
  match sets with
  | [] => Some []
  | (col, digits) :: sets' =>
      match placeholder params digits, placeholders params sets' with
      | Some i, Some rest => Some ((col, i) :: rest)
      | _, _ => None
      end
  end.

(** The columns assigned are looked at in turn: each is a column of
    [users], and none comes twice. *)
Fixpoint targets_error (seen cols : list string) : option error :=
  match cols with
  | [] => None
  | col :: cols' =>
      if negb (is_column col) then Some (OtherError "column does not exist")
      else if existsb (String.eqb col) seen
      then Some (OtherError "multiple assignments to same column")
      else targets_error (col :: seen) cols'
  end.

(** What an UPDATE does once it is read: [sets] are the assigned columns
    with the parameters bound to them, [key] is the parameter compared
    with the username. The store refuses a parameter that is no input of
    its column. The rows whose username is the key are rewritten; the
    rewritten rows keep the constraints, the uniqueness of the key and the
    key of every application, or the statement is refused. The answer is
    the rewritten rows. *)
Definition run_update (c : catalog) (sets : list (string * value)) (key : value) (db : t)
  : result (list JS.object * t) :=
  match column_values c sets with
  | None => inl (OtherError "invalid input syntax")
  | Some vals =>
      let is_matched := fun r =>
        match text c key with
        | None => false
        | Some u => has_username u r
        end in
      let matched := filter (fun r => is_matched r) (users db) in
      match rewrite_rows vals matched with
      | None => inl (OtherError "null value in column username violates not-null constraint")
      | Some rewritten =>
          let kept := filter (fun r => negb (is_matched r)) (users db) in
          if negb (forallb (row_ok c) rewritten)
          then inl (OtherError "new row for relation users violates a constraint")
          else if bool_decide ("username" ∈ sets.*1)
                  && negb (distinct (map username (rewritten ++ kept)))
          then inl (OtherError "duplicate key value violates unique constraint")
          else if bool_decide ("username" ∈ sets.*1)
                  && existsb (fun r => referenced r db
                                && negb (existsb (has_username (username r)) rewritten))
                       matched
          then inl (OtherError "update on table users violates foreign key constraint")
          else
            inr (map user_object rewritten,
                 {| users := map (fun r => if is_matched r
                                           then default r (set_columns vals r)
                                           else r) (users db);
                    jobs := jobs db; applications := applications db |})
      end
  end.

(** [UPDATE users SET ... WHERE username = $k RETURNING ...], sent as the
    text [sql] with the parameters [params]. The store refuses a text it
    cannot read, a column that [users] does not have, a column assigned
    twice, and a parameter list that is longer or shorter than the
    placeholders require or has a parameter that no placeholder names. *)
Definition update_users (c : catalog) (sql : string) (params : list value) (db : t)
  : result (list JS.object * t) :=
  match parse_update sql with
  | None => inl (OtherError "syntax error")
  | Some (sets, digits) =>
      match targets_error [] sets.*1 with
      | Some e => inl e
      | None =>
          match placeholders params sets, placeholder params digits with
          | Some sets', Some k =>
              if forallb (fun i => bool_decide (i ∈ k :: sets'.*2)) (seq 0 (length params))
              then run_update c (map (fun ci => (ci.1, param params ci.2)) sets')
                     (param params k) db
              else if bool_decide (length params - 1 ∈ k :: sets'.*2)
              then inl (OtherError "could not determine data type of parameter")
              else inl (OtherError "bind message supplies the wrong number of parameters")
          | _, _ => inl (OtherError "bind message supplies the wrong number of parameters")
          end
      end
  end.

End Db.

(** ** Store-passing computations that may throw *)

Definition M (A : Type) : Type := Db.t -> result A * Db.t.

Definition ret {A} (a : A) : M A := fun db => (inr a, db).
Definition throw {A} (e : error) : M A := fun db => (inl e, db).
Definition bind {A B} (m : M A) (k : A -> M B) : M B :=
  fun db => match m db with
            | (inl e, db') => (inl e, db')
            | (inr a, db') => k a db'
            end.
Definition lift {A} (r : result A) : M A := fun db => (r, db).
(** A query that only reads. *)
Definition reading {A} (q : Db.t -> A) : M A := fun db => (inr (q db), db).
(** A statement that writes, or is refused and leaves the store as it was. *)
Definition execute {A} (q : Db.t -> result (A * Db.t)) : M A :=
  fun db => match q db with
            | inl e => (inl e, db)
            | inr (a, db') => (inr a, db')
            end.

Definition attempt {A} (q : Db.t -> result A) : M A := fun db => (q db, db).

Notation "'await' x <- m ; k" := (bind m (fun x => k))
  (at level 10, x name, m at level 100, k at level 200, only parsing).
Notation "'await_' m ; k" := (bind m (fun _ => k))
  (at level 10, m at level 100, k at level 200, only parsing).

(** [rows[0]] *)
Definition first_row (rows : list JS.object) : value :=
  match rows with
  | [] => JUndefined
  | r :: _ => JObj r
  end.

(** ** The identity a request carries *)

Module Token.

(** [res.locals.user], as authenticateJWT leaves it: the payload of a
    verified token. *)
Record payload : Type := Payload {
  username : string;
  isAdmin : bool
}.

End Token.

(** Modelled from the spec: ensureLoggedIn of middleware/auth.js, which is
    absent from the sources. Section 4.4, class Authenticated: allow iff
    the identity is not anonymous, else deny. *)
Definition ensureLoggedIn (locals_user : option Token.payload) : result Token.payload :=
  match locals_user with
  | Some currentUser => inr currentUser
  | None => inl (UnauthorizedError (JStr "authentication required"))
  end.

Inductive response : Type :=
| Json (status : nat) (body : value).

Record request : Type := Request {
  params : gmap string value;
  query : gmap string value
}.

(** A request as the router hands it to a handler mounted at the path
    [/]: the pattern has no named segment, so [req.params] is empty. *)
Definition request_at_root (q : gmap string value) : request :=
  {| params := ∅; query := q |}.

(** ** The filter builder of list queries *)

Module Filter.

(** Modelled from the spec: the Filter Builder of section 4.3 and the
    Filter Spec of section 3. The code that builds list queries
    (models/company.js, models/job.js, routes/jobs.js) is absent from the
    sources; only tests of it are present. *)
Record filterSpec : Type := FilterSpec {
  text : option string;
  minimum : option Z;
  maximum : option Z;
  flag : option bool
}.

(** Modelled from the spec: one predicate of the generated clause (section
    3), with the index of its positional placeholder. *)
Inductive predicate : Type :=
| Contains (placeholder : nat)
| AtLeast (placeholder : nat)
| AtMost (placeholder : nat)
| Holds (placeholder : nat).

Definition placeholder_of (p : predicate) : nat :=
  match p with
  | Contains k | AtLeast k | AtMost k | Holds k => k
  end.

Definition render (p : predicate) : string :=
  match p with
  | Contains k => "text ILIKE $" +:+ pretty k
  | AtLeast k => "num >= $" +:+ pretty k
  | AtMost k => "num <= $" +:+ pretty k
  | Holds k => "flag = $" +:+ pretty k
  end.

Record built : Type := Built {
  predicates : list predicate;
  bound : list value
}.

Definition clause (b : built) : string :=
  String.concat " AND " (map render (predicates b)).

(** Modelled from the spec: append one predicate that uses the next
    available placeholder index, and append its value. *)
Definition add (mk : nat -> predicate) (v : value) (b : built) : built :=
  {| predicates := predicates b ++ [mk (length (bound b) + 1)];
     bound := bound b ++ [v] |}.

Definition add_if {A} (o : option A) (mk : nat -> predicate) (val : A -> value)
    (b : built) : built :=
  match o with
  | Some a => add mk (val a) b
  | None => b
  end.

(** Modelled from the spec: section 3, a minimum above the maximum makes
    the filter spec invalid. *)
Definition range_invalid (f : filterSpec) : bool :=
  match minimum f, maximum f with
  | Some lo, Some hi => (hi <? lo)%Z
  | _, _ => false
  end.

(** Modelled from the spec: section 4.3. The range is validated before
    any clause is built; then the filters present are taken in the order
    text, minimum, maximum, flag. A flag of value false is treated as
    absent. *)
Definition buildFilter (f : filterSpec) : result built :=
  if range_invalid f then inl (BadRequestError (JStr "invalid filter range")) else
  let b0 := {| predicates := []; bound := [] |} in
  let b1 := add_if (text f) Contains (fun t => JStr ("%" +:+ t +:+ "%")) b0 in
  let b2 := add_if (minimum f) AtLeast JNum b1 in
  let b3 := add_if (maximum f) AtMost JNum b2 in
  let b4 := match flag f with
            | Some true => add Holds (JBool true) b3
            | Some false | None => b3
            end in
  inr b4.

(** Modelled from the spec: the rows a list query ranges over, with the
    three kinds of column the filters of section 3 speak of. *)
Record row : Type := Row {
  row_text : string;
  row_num : Z;
  row_flag : bool
}.

Definition lower (c : ascii) : ascii :=
  let n := nat_of_ascii c in
  if ((65 <=? n) && (n <=? 90))%nat then ascii_of_nat (n + 32) else c.

(** Modelled from the spec: the case-insensitive pattern match of
    section 4.3; [%] stands for any run of characters, [_] for any one
    character. *)
Fixpoint ilike (pat : string) : string -> bool :=
  match pat with
  | EmptyString => fun s => match s with EmptyString => true | _ => false end
  | String c pat' =>
      if Ascii.eqb c "%" then
        fix any (s : string) : bool :=
          ilike pat' s || match s with
                          | EmptyString => false
                          | String _ s' => any s'
                          end
      else fun s =>
        match s with
        | EmptyString => false
        | String d s' =>
            (Ascii.eqb c "_" || Ascii.eqb (lower c) (lower d)) && ilike pat' s'
        end
  end.

(** Modelled from the spec: a predicate on a row, its placeholder bound
    by position (section 3); bounds are inclusive. *)
Definition holds (vals : list value) (r : row) (p : predicate) : bool :=
  match p, vals !! (placeholder_of p - 1) with
  | Contains _, Some (JStr pat) => ilike pat (row_text r)
  | AtLeast _, Some (JNum n) => (n <=? row_num r)%Z
  | AtMost _, Some (JNum n) => (row_num r <=? n)%Z
  | Holds _, Some (JBool b) => Bool.eqb (row_flag r) b
  | _, _ => false
  end.

Definition satisfies (b : built) (r : row) : bool :=
  forallb (holds (bound b) r) (predicates b).

(** Modelled from the spec: the list query returns the rows that satisfy
    every predicate of the clause. *)
Definition search (rows : list row) (f : filterSpec) : result (list row) :=
  match buildFilter f with
  | inl e => inl e
  | inr b => inr (filter (fun r => satisfies b r) rows)
  end.

Definition with_flag (f : filterSpec) (o : option bool) : filterSpec :=
  {| text := text f; minimum := minimum f; maximum := maximum f; flag := o |}.

(** Every placeholder of a built clause has a bound value. *)
Definition in_range (b : built) : Prop :=
  Forall (λ p, 0 < placeholder_of p ≤ length (bound b)) (predicates b).

(** The clause built from the text and the two bounds alone. *)
Definition unflagged (f : filterSpec) : built :=
  add_if (maximum f) AtMost JNum
    (add_if (minimum f) AtLeast JNum
       (add_if (text f) Contains (fun t => JStr ("%" +:+ t +:+ "%"))
          {| predicates := []; bound := [] |})).

End Filter.

(** ** Sample collaborators and a sample store

    Concrete stand-ins for the collaborators that are not part of the
    sources, used to run the model on concrete requests. *)

Module Sample.

Definition bcrypt_hash (v : value) (rounds : Z) : option value :=
  match v with
  | JStr s => Some (JStr ("$2b$" +:+ pretty rounds +:+ "$" +:+ s))
  | _ => None
  end.

Definition BCRYPT_WORK_FACTOR : Z := 12.

Definition schema (body : JS.object) : list string := [].

(** A catalog for the examples: [is_admin] is a boolean, the other
    columns are texts, which take strings and the texts of numbers and
    booleans; in a row no column is NULL, the username has at most 25
    characters and the email has an at sign after its first character.
    Usernames are ordered byte by byte. *)
Definition text_value (v : value) : option value :=
  match v with
  | JNull | JUndefined => Some JNull
  | JStr s => Some (JStr s)
  | JArr _ | JObj _ => None
  | _ => Some (JStr (to_string v))
  end.

Definition boolean_value (v : value) : option value :=
  match v with
  | JNull | JUndefined => Some JNull
  | JBool b => Some (JBool b)
  | JStr s =>
      if existsb (String.eqb s) ["true"; "t"; "yes"; "on"; "1"] then Some (JBool true)
      else if existsb (String.eqb s) ["false"; "f"; "no"; "off"; "0"] then Some (JBool false)
      else None
  | JNum n => if (n =? 1)%Z then Some (JBool true)
              else if (n =? 0)%Z then Some (JBool false) else None
  | _ => None
  end.

Definition column_value (col : string) (v : value) : option value :=
  if String.eqb col "is_admin" then boolean_value v else text_value v.

Fixpoint has_at (s : string) : bool :=
  match s with
  | EmptyString => false
  | String c s' => Ascii.eqb c "@" || has_at s'
  end.

Definition row_ok (r : Db.userRow) : bool :=
  match Db.password r, Db.first_name r, Db.last_name r, Db.email r, Db.is_admin r with
  | JStr _, JStr _, JStr _, JStr (String _ e), JBool _ =>
      (String.length (Db.username r) <=? 25)%nat && has_at e
  | _, _, _, _, _ => false
  end.

Definition catalog : Db.catalog :=
  {| Db.column_value := column_value; Db.row_ok := row_ok;
     Db.collation_le := String.leb; Db.serialize := to_string |}.

Definition createToken (user : value) : value := JStr "token".

Definition Company_findAll (filters : value) : M value := ret (JArr []).

Definition number_gt (a b : value) : bool :=
  match parseInt (to_string a), parseInt (to_string b) with
  | JNum x, JNum y => (y <? x)%Z
  | _, _ => false
  end.

Definition u1 : Db.userRow :=
  {| Db.username := "u1"; Db.password := JStr "$2b$12$password1";
     Db.first_name := JStr "U1F"; Db.last_name := JStr "U1L";
     Db.email := JStr "user1@user.com"; Db.is_admin := JBool false |}.

Definition u2 : Db.userRow :=
  {| Db.username := "u2"; Db.password := JStr "$2b$12$password2";
     Db.first_name := JStr "U2F"; Db.last_name := JStr "U2L";
     Db.email := JStr "user2@user.com"; Db.is_admin := JBool false |}.

Definition store : Db.t :=
  {| Db.users := [u1; u2]; Db.jobs := [1%Z; 2%Z]; Db.applications := [] |}.

(** The store after u1 has applied for job 1. *)
Definition applied : Db.t :=
  {| Db.users := [u1; u2]; Db.jobs := [1%Z; 2%Z]; Db.applications := [("u1", 1%Z)] |}.

Definition bcrypt_compare (plain hashed : value) : option bool :=
  match bcrypt_hash plain BCRYPT_WORK_FACTOR, hashed with
  | Some (JStr h), JStr h' => Some (String.eqb h h')
  | _, _ => None
  end.

(** A validator that wants a string under [firstName]. *)
Definition firstName_schema (body : JS.object) : list string :=
  match JS.prop body "firstName" with
  | JStr _ => []
  | _ => ["instance.firstName is not of a type(s) string"]
  end.

Definition Company_create (body : JS.object) : M value := ret (JObj body).
Definition Company_update (handle : string) (body : JS.object) : M value := ret (JObj body).
Definition Company_remove (handle : string) : M value := ret JUndefined.

(** An administrator, and a body for a new user. *)
Definition admin : option Token.payload :=
  Some {| Token.username := "admin"; Token.isAdmin := true |}.

Definition new_user : JS.object :=
  [("username", JStr "u-new"); ("firstName", JStr "First-new");
   ("lastName", JStr "Last-new"); ("password", JStr "password-new");
   ("email", JStr "new@email.com"); ("isAdmin", JBool false)].

(** The row the sample catalog makes of [new_user] and the hash of its
    password. *)
Definition new_row : Db.userRow :=
  {| Db.username := "u-new"; Db.password := JStr "$2b$12$password-new";
     Db.first_name := JStr "First-new"; Db.last_name := JStr "Last-new";
     Db.email := JStr "new@email.com"; Db.is_admin := JBool false |}.

(** u1 after its first name is set to New, and after its password is
    set as well. *)
Definition u1_renamed : Db.userRow :=
  {| Db.username := "u1"; Db.password := JStr "$2b$12$password1";
     Db.first_name := JStr "New"; Db.last_name := JStr "U1L";
     Db.email := JStr "user1@user.com"; Db.is_admin := JBool false |}.

Definition u1_secret : Db.userRow :=
  {| Db.username := "u1"; Db.password := JStr "$2b$12$secret";
     Db.first_name := JStr "New"; Db.last_name := JStr "U1L";
     Db.email := JStr "user1@user.com"; Db.is_admin := JBool false |}.

(** A query string with a minimum above the maximum. *)
Definition bad_range : gmap string value :=
  {[ "minEmployees" := JStr "5"; "maxEmployees" := JStr "1" ]}.

End Sample.

Section Jobly.

(** The database behind [db.query]. *)
Variable catalog : Db.catalog.

(** Collaborators that are not part of the sources. *)
Variable bcrypt_hash : value -> Z -> option value.
Variable BCRYPT_WORK_FACTOR : Z.
Variable userNewSchema : JS.object -> list string.
Variable userUpdateSchema : JS.object -> list string.
Variable createToken : value -> value.
Variable Company_findAll : value -> M value.
(** [+a > +b] *)
Variable number_gt : value -> value -> bool.

(** [await bcrypt.hash(v, BCRYPT_WORK_FACTOR)] *)
Definition hash (v : value) : M value :=
  match bcrypt_hash v BCRYPT_WORK_FACTOR with
  | Some h => ret h
  | None => throw (OtherError "bcrypt")
  end.

(** *** models/user.js *)

Definition register (body : JS.object) : M value :=
  let username := JS.prop body "username" in
  let password := JS.prop body "password" in
  let firstName := JS.prop body "firstName" in
  let lastName := JS.prop body "lastName" in
  let email := JS.prop body "email" in
  let isAdmin := JS.prop body "isAdmin" in
  await duplicateCheck <- reading (Db.select_users Db.username_object (to_string username));
  match duplicateCheck with
  | _ :: _ =>
      throw (BadRequestError (JStr ("Duplicate username: " +:+ to_string username)))
  | [] =>
      await hashedPassword <- hash password;
      await rows <- execute (Db.insert_user catalog
                        [username; hashedPassword; firstName; lastName; email; isAdmin]);
      ret (first_row rows)
  end.

Definition findAll : M value :=
  await rows <- reading (fun db =>
                  map Db.user_object (Db.order_by_username catalog (Db.users db)));
  ret (JArr (map JObj rows)).

Definition getUserApplications (username : string) : M value :=
  await rows <- reading (Db.select_applications username);
  let _ := map (fun r => JS.prop r "job_id") rows in
  ret JUndefined.

Definition get (username : string) : M value :=
  await rows <- reading (Db.select_users Db.user_object username);
  match rows with
  | [] => throw (NotFoundError (JStr ("No user: " +:+ username)))
  | user :: _ =>
      await jobIds <- getUserApplications username;
      ret (JObj (JS.assign user "josb" jobIds))
  end.

Definition userJsToSql : gmap string value :=
  {[ "firstName" := JStr "first_name";
     "lastName" := JStr "last_name";
     "isAdmin" := JStr "is_admin" ]}.

Definition updateSql (setCols usernameVarIdx : string) : string :=
  "UPDATE users 
                      SET " +:+ setCols +:+ " 
                      WHERE username = " +:+ usernameVarIdx +:+ " 
                      RETURNING username,
                                first_name AS " +:+ dquote +:+ "firstName" +:+ dquote +:+ ",
                                last_name AS " +:+ dquote +:+ "lastName" +:+ dquote +:+ ",
                                email,
                                is_admin AS " +:+ dquote +:+ "isAdmin" +:+ dquote.

(** [if (data.password) data.password = await bcrypt.hash(...)] *)
Definition hashPassword (data : JS.object) : M JS.object :=
  if truthy (JS.prop data "password") then
    await hashed <- hash (JS.prop data "password");
    ret (JS.assign data "password" hashed)
  else ret data.

(** The statement of [update] and the values bound to it, in the order
    they are passed to [db.query]. *)
Definition updateStatement (username : string) (data : JS.object)
  : result (string * list value) :=
  match sqlForPartialUpdate data userJsToSql with
  | inl e => inl e
  | inr upd =>
      let usernameVarIdx := "$" +:+ pretty (length (values upd) + 1) in
      inr (updateSql (setCols upd) usernameVarIdx, (values upd ++ [JStr username])%list)
  end.

(** [db.query(querySql, [...values, username])] and what follows it. *)
Definition sendUpdate (username : string) (stmt : string * list value) : M value :=
  await rows <- execute (Db.update_users catalog stmt.1 stmt.2);
  match rows with
  | [] => throw (NotFoundError (JStr ("No user: " +:+ username)))
  | user :: _ => ret (JObj (JS.delete user "password"))
  end.

Definition update (username : string) (data : JS.object) : M value :=
  await data <- hashPassword data;
  await stmt <- lift (updateStatement username data);
  sendUpdate username stmt.

Definition applyForJob (username : string) (jobId : value) : M value :=
  await userCheck <- reading (Db.select_users Db.username_object username);
  match userCheck with
  | [] => throw (NotFoundError (JStr ("No user: " +:+ username)))
  | _ :: _ =>
      await jobCheck <- attempt (Db.select_job catalog jobId);
      match jobCheck with
      | [] => throw (NotFoundError (JStr ("No job: " +:+ to_string jobId)))
      | _ :: _ =>
          await_ execute (Db.insert_application catalog username jobId);
          ret (JObj [("applied", jobId)])
      end
  end.

Definition remove (username : string) : M value :=
  await rows <- execute (fun db => inr (Db.delete_user username db));
  match rows with
  | [] => throw (NotFoundError (JStr ("No user: " +:+ username)))
  | _ :: _ => ret JUndefined
  end.

(** *** routes/users.js

    Every handler runs after authenticateJWT and ensureLoggedIn;
    [locals_user] is what the former left in [res.locals.user]. An error
    result is what the handler passes to [next]. *)

(** POST / *)
Definition users_post (locals_user : option Token.payload) (body : JS.object)
  : M response :=
  await currentUser <- lift (ensureLoggedIn locals_user);
  if negb (Token.isAdmin currentUser) then
    throw (UnauthorizedError (JStr "Admin privileges required"))
  else
    match userNewSchema body with
    | [] =>
        await user <- register body;
        let token := createToken user in
        ret (Json 201 (JObj [("user", user); ("token", token)]))
    | errs => throw (BadRequestError (JArr (map JStr errs)))
    end.

(** GET / *)
Definition users_get (locals_user : option Token.payload) : M response :=
  await currentUser <- lift (ensureLoggedIn locals_user);
  if negb (Token.isAdmin currentUser) then
    throw (UnauthorizedError (JStr "Admin privileges required"))
  else
    await users <- findAll;
    ret (Json 200 (JObj [("users", users)])).

(** GET /:username *)
Definition users_get_username (locals_user : option Token.payload) (username : string)
  : M response :=
  await currentUser <- lift (ensureLoggedIn locals_user);
  if negb (String.eqb (Token.username currentUser) username)
     && negb (Token.isAdmin currentUser) then
    throw (UnauthorizedError (JStr "You do not have permission to view this user"))
  else
    await user <- get username;
    ret (Json 200 (JObj [("user", user)])).

(** PATCH /:username *)
Definition users_patch_username (locals_user : option Token.payload) (username : string)
    (body : JS.object) : M response :=
  await currentUser <- lift (ensureLoggedIn locals_user);
  if negb (String.eqb (Token.username currentUser) username)
     && negb (Token.isAdmin currentUser) then
    throw (UnauthorizedError (JStr "You do not have permission to update this user"))
  else
    match userUpdateSchema body with
    | [] =>
        await user <- update username body;
        ret (Json 200 (JObj [("user", user)]))
    | errs => throw (BadRequestError (JArr (map JStr errs)))
    end.

(** POST /:username/jobs/:id *)
Definition users_post_username_jobs_id (locals_user : option Token.payload)
    (username jobIdParam : string) : M response :=
  await currentUser <- lift (ensureLoggedIn locals_user);
  let jobId := parseInt jobIdParam in
  if negb (String.eqb (Token.username currentUser) username)
     && negb (Token.isAdmin currentUser) then
    throw (UnauthorizedError
             (JStr "You do not have permission to apply for jobs for this user."))
  else
    await_ applyForJob username jobId;
    ret (Json 200 (JObj [("applied", jobId)])).

(** DELETE /:username *)
Definition users_delete_username (locals_user : option Token.payload) (username : string)
  : M response :=
  await currentUser <- lift (ensureLoggedIn locals_user);
  if negb (String.eqb (Token.username currentUser) username)
     && negb (Token.isAdmin currentUser) then
    throw (UnauthorizedError (JStr "You do not have permission to delete this user"))
  else
    await_ remove username;
    ret (Json 200 (JObj [("deleted", JStr username)])).

(** *** routes/companies.js, GET / *)

Definition companies_get (req : request) : M response :=
  let nameLike := JS.get (params req) "nameLike" in
  let minEmployees := JS.get (params req) "minEmployees" in
  let maxEmployees := JS.get (params req) "maxEmployees" in
  if negb (is_undefined minEmployees) && negb (is_undefined maxEmployees)
     && number_gt minEmployees maxEmployees then
    throw (BadRequestError (JStr "minEmployees cannot be greater than maxEmployees"))
  else
    await companies <- Company_findAll
        (JObj [("nameLike", nameLike); ("minEmployees", minEmployees);
               ("maxEmployees", maxEmployees)]);
    ret (Json 200 (JObj [("companies", companies)])).

(** *** The operation classes of routes/users.js *)

(** The requests guarded by the owner-or-administrator check. *)
Inductive selfOrAdmin : Type :=
| GetUser
| PatchUser (body : JS.object)
| ApplyForJob (jobIdParam : string)
| DeleteUser.

Definition handle (op : selfOrAdmin) (locals_user : option Token.payload)
    (username : string) : M response :=
  match op with
  | GetUser => users_get_username locals_user username
  | PatchUser body => users_patch_username locals_user username body
  | ApplyForJob jobIdParam => users_post_username_jobs_id locals_user username jobIdParam
  | DeleteUser => users_delete_username locals_user username
  end.

(** What each of these handlers does once its check has passed. *)
Definition proceed (op : selfOrAdmin) (username : string) : M response :=
  match op with
  | GetUser =>
      await user <- get username;
      ret (Json 200 (JObj [("user", user)]))
  | PatchUser body =>
      match userUpdateSchema body with
      | [] =>
          await user <- update username body;
          ret (Json 200 (JObj [("user", user)]))
      | errs => throw (BadRequestError (JArr (map JStr errs)))
      end
  | ApplyForJob jobIdParam =>
      await_ applyForJob username (parseInt jobIdParam);
      ret (Json 200 (JObj [("applied", parseInt jobIdParam)]))
  | DeleteUser =>
      await_ remove username;
      ret (Json 200 (JObj [("deleted", JStr username)]))
  end.

(** The identity is the owner of the resource or an administrator. *)
Definition ownerOrAdmin (locals_user : option Token.payload) (username : string) : Prop :=
  ∃ currentUser, locals_user = Some currentUser ∧
    (Token.username currentUser = username ∨ Token.isAdmin currentUser = true).

Definition unauthorized {A} (r : result A) : Prop :=
  ∃ message, r = inl (UnauthorizedError message).

(** *** models/user.js, authenticate *)

(** [await bcrypt.compare(password, user.password)]; [None] when the
    library throws. *)
Variable bcrypt_compare : value -> value -> option bool.

Definition authenticate (username : string) (password : value) : M value :=
  await rows <- reading (Db.select_users Db.credentials_object username);
  match rows with
  | user :: _ =>
      match bcrypt_compare password (JS.prop user "password") with
      | None => throw (OtherError "bcrypt")
      | Some true => ret (JObj (JS.delete user "password"))
      | Some false => throw (UnauthorizedError (JStr "Invalid username/password"))
      end
  | [] => throw (UnauthorizedError (JStr "Invalid username/password"))
  end.

(** *** routes/companies.js, the other handlers

    models/company.js and the two schemas are not part of the sources. *)
Variable companyNewSchema : JS.object -> list string.
Variable companyUpdateSchema : JS.object -> list string.
Variable Company_create : JS.object -> M value.
Variable Company_get : string -> M value.
Variable Company_update : string -> JS.object -> M value.
Variable Company_remove : string -> M value.

(** POST / *)
Definition companies_post (locals_user : option Token.payload) (body : JS.object)
  : M response :=
  await currentUser <- lift (ensureLoggedIn locals_user);
  if negb (Token.isAdmin currentUser) then
    throw (UnauthorizedError (JStr "Admin privleges requires"))
  else
    match companyNewSchema body with
    | [] =>
        await company <- Company_create body;
        ret (Json 201 (JObj [("company", company)]))
    | errs => throw (BadRequestError (JArr (map JStr errs)))
    end.

(** GET /:handle *)
Definition companies_get_handle (handle : string) : M response :=
  await company <- Company_get handle;
  ret (Json 200 (JObj [("company", company)])).

(** PATCH /:handle *)
Definition companies_patch_handle (locals_user : option Token.payload) (handle : string)
    (body : JS.object) : M response :=
  await currentUser <- lift (ensureLoggedIn locals_user);
  if negb (Token.isAdmin currentUser) then
    throw (UnauthorizedError (JStr "Admin privleges required"))
  else
    match companyUpdateSchema body with
    | [] =>
        await company <- Company_update handle body;
        ret (Json 200 (JObj [("company", company)]))
    | errs => throw (BadRequestError (JArr (map JStr errs)))
    end.

(** DELETE /:handle *)
Definition companies_delete_handle (locals_user : option Token.payload) (handle : string)
  : M response :=
  await currentUser <- lift (ensureLoggedIn locals_user);
  if negb (Token.isAdmin currentUser) then
    throw (UnauthorizedError (JStr "Admin privileges required"))
  else
    await_ Company_remove handle;
    ret (Json 200 (JObj [("deleted", JStr handle)])).

(** The requests of routes/companies.js that only an administrator may
    make. *)
Inductive adminOnly : Type :=
| CreateCompany (body : JS.object)
| PatchCompany (handle : string) (body : JS.object)
| DeleteCompany (handle : string).

Definition handle_company (op : adminOnly) (locals_user : option Token.payload)
  : M response :=
  match op with
  | CreateCompany body => companies_post locals_user body
  | PatchCompany handle body => companies_patch_handle locals_user handle body
  | DeleteCompany handle => companies_delete_handle locals_user handle
  end.

(** What each of them does once the check has passed. *)
Definition proceed_company (op : adminOnly) : M response :=
  match op with
  | CreateCompany body =>
      match companyNewSchema body with
      | [] =>
          await company <- Company_create body;
          ret (Json 201 (JObj [("company", company)]))
      | errs => throw (BadRequestError (JArr (map JStr errs)))
      end
  | PatchCompany handle body =>
      match companyUpdateSchema body with
      | [] =>
          await company <- Company_update handle body;
          ret (Json 200 (JObj [("company", company)]))
      | errs => throw (BadRequestError (JArr (map JStr errs)))
      end
  | DeleteCompany handle =>
      await_ Company_remove handle;
      ret (Json 200 (JObj [("deleted", JStr handle)]))
  end.

(** The identity is an administrator. *)
Definition administrator (locals_user : option Token.payload) : Prop :=
  ∃ currentUser, locals_user = Some currentUser ∧ Token.isAdmin currentUser = true.

(** The username of the first row is not after that of the second, in
    the order of the collation. *)
Definition by_username (r1 r2 : Db.userRow) : Prop :=
  Db.collation_le catalog (Db.username r1) (Db.username r2) = true.

(** *** Vocabulary of the statements below *)

(** A record with this key is stored. *)
Definition stored (username : string) (db : Db.t) : Prop :=
  ∃ r, r ∈ Db.users db ∧ Db.username r = username.

(** The text has no double quote in it. *)
Fixpoint quote_free (s : string) : bool :=
  match s with
  | EmptyString => true
  | String c s' => negb (Ascii.eqb c "034") && quote_free s'
  end.

(** The name can be written between double quotes as it is: it is not
    empty and has no double quote in it. *)
Definition plain (s : string) : bool := negb (String.eqb s EmptyString) && quote_free s.

(** The text is made of decimal digits. *)
Fixpoint digits_only (s : string) : bool :=
  match s with
  | EmptyString => true
  | String c s' => Db.is_digit c && digits_only s'
  end.

(** The tokens of a SET clause that assigns the parameters from [k] on
    to the columns. *)
Fixpoint set_tokens (cols : list string) (k : nat) : list Db.token :=
  match cols with
  | [] => []
  | [col] => [Db.Quoted col; Db.Equals; Db.Placeholder (pretty k)]
  | col :: cols' =>
      [Db.Quoted col; Db.Equals; Db.Placeholder (pretty k); Db.Comma]
        ++ set_tokens cols' (S k)
  end.

(** The hashing library accepts the password of the field map, if it has
    one. *)
Definition hashes (data : JS.object) : Prop :=
  truthy (JS.prop data "password") = true →
  is_Some (bcrypt_hash (JS.prop data "password") BCRYPT_WORK_FACTOR).

(** ** Properties of helpers/sql.js *)

Lemma own_absent (o : JS.object) (k : string) : k ∉ JS.keys o → own o k = None.
Proof.
  unfold JS.keys. induction o as [|[k' v] o IH]; simpl; [done|].
  rewrite not_elem_of_cons. intros [Hne Hout].
  destruct (String.eqb k' k) eqn:Hk; [|by apply IH].
  apply String.eqb_eq in Hk. congruence.
Qed.

Lemma inherited_absent (k : string) : k ∉ JS.keys Object_prototype → inherited k = JUndefined.
Proof. intros Hout. unfold inherited. by rewrite own_absent. Qed.

Lemma keys_length (o : JS.object) : length (JS.keys o) = length o.
Proof. unfold JS.keys. apply length_fmap. Qed.

Lemma values_length (o : JS.object) : length (JS.values o) = length o.
Proof. unfold JS.values. apply length_fmap. Qed.

(** On a non-empty field map the builder returns, and what it returns
    is the join of one fragment per key and the values in key order. *)
Lemma sqlForPartialUpdate_nonempty (dataToUpdate : JS.object) (jsToSql : gmap string value) :
  dataToUpdate ≠ [] →
  sqlForPartialUpdate dataToUpdate jsToSql =
    inr {| setCols := String.concat ", " (imap (fragment jsToSql) (JS.keys dataToUpdate));
           values := JS.values dataToUpdate |}.
Proof.
  intros Hne. unfold sqlForPartialUpdate.
  destruct dataToUpdate as [|[k v] rest]; [done|]. reflexivity.
Qed.

Lemma imap_fragment_seq (jsToSql : gmap string value) (ks : list string) :
  imap (fragment jsToSql) ks =
  zip_with (fun col k => dquote +:+ col +:+ dquote +:+ "=$" +:+ pretty k)
           (map (columnName jsToSql) ks) (seq 1 (length ks)).
Proof.
  apply list_eq. intros i.
  rewrite list_lookup_imap, lookup_zip_with, list_lookup_fmap.
  destruct (ks !! i) as [k|] eqn:Hk; simpl; [|done].
  assert (Hi : i < length ks) by (eapply lookup_lt_Some; eauto).
  rewrite (lookup_seq_lt 1 (length ks) i Hi). simpl.
  unfold fragment. by replace (i + 1) with (S i) by lia.
Qed.

(** C1: for every non-empty field map and every column mapping the
    builder returns; the value sequence has one element per entry; the
    clause is the comma-and-space join of as many fragments, the k-th of
    them (counted from 1) being the quoted column of the k-th key followed
    by the placeholder [$k], so that the placeholders are [$1], ..., [$n]
    in the iteration order of the field map; and the k-th value is the
    value of the k-th entry. *)
Theorem sqlForPartialUpdate_placeholders
    (dataToUpdate : JS.object) (jsToSql : gmap string value) :
  dataToUpdate ≠ [] →
  ∃ upd cols,
    sqlForPartialUpdate dataToUpdate jsToSql = inr upd ∧
    length (values upd) = length dataToUpdate ∧
    setCols upd = String.concat ", " cols ∧
    length cols = length dataToUpdate ∧
    cols = zip_with (fun col k => dquote +:+ col +:+ dquote +:+ "=$" +:+ pretty k)
             (map (columnName jsToSql) (JS.keys dataToUpdate))
             (seq 1 (length dataToUpdate)) ∧
    ∀ (k : nat) (key : string) (v : value),
      dataToUpdate !! k = Some (key, v) →
      cols !! k = Some (dquote +:+ columnName jsToSql key +:+ dquote
                          +:+ "=$" +:+ pretty (k + 1)) ∧
      values upd !! k = Some v.
Proof.
  intros Hne.
  eexists _, (imap (fragment jsToSql) (JS.keys dataToUpdate)).
  split; [by apply sqlForPartialUpdate_nonempty|]. simpl.
  split; [apply values_length|].
  split; [done|].
  split; [by rewrite length_imap, keys_length|].
  split; [by rewrite imap_fragment_seq, keys_length|].
  intros k key v Hk. unfold JS.object in *. split.
  - rewrite list_lookup_imap. unfold JS.keys.
    rewrite list_lookup_fmap, Hk. reflexivity.
  - unfold JS.values. by rewrite list_lookup_fmap, Hk.
Qed.

(** The placeholders of two different fragments differ. *)
Lemma placeholder_inj (j k : nat) : pretty (j + 1) = pretty (k + 1) → j = k.
Proof. intros H. apply (inj pretty) in H. lia. Qed.

(** C3: for every column mapping the builder fails on the empty field
    map with BadRequestError [No data]; the result is the error alone, no
    clause and no fragment comes with it. *)
Theorem sqlForPartialUpdate_empty (jsToSql : gmap string value) :
  sqlForPartialUpdate [] jsToSql = inl (BadRequestError (JStr "No data")).
Proof. reflexivity. Qed.

(** The check on the field map is the only way the builder fails. *)
Lemma sqlForPartialUpdate_fails_iff (dataToUpdate : JS.object) (jsToSql : gmap string value) :
  (∃ e, sqlForPartialUpdate dataToUpdate jsToSql = inl e) ↔ dataToUpdate = [].
Proof.
  split.
  - intros [e He]. destruct dataToUpdate as [|kv rest]; [done|].
    rewrite sqlForPartialUpdate_nonempty in He; [|done]. discriminate.
  - intros ->. eexists. apply sqlForPartialUpdate_empty.
Qed.

(** A name that the mapping does not hold is looked up in what the
    mapping inherits. *)
Lemma columnName_absent (jsToSql : gmap string value) (colName : string) :
  jsToSql !! colName = None →
  columnName jsToSql colName =
    if truthy (inherited colName) then to_string (inherited colName) else colName.
Proof.
  intros Hnone. unfold columnName, JS.get, JS.or. rewrite Hnone.
  by destruct (truthy (inherited colName)).
Qed.

(** C7 (what the code does): [jsToSql[colName]] reads the properties that
    the mapping inherits as well as its own. A field name that is absent
    from the mapping and is the name of a property of Object.prototype
    resolves to the text of that property, not to itself: with the empty
    mapping the field map [{constructor: 1}] gives the fragment whose
    column is the source text of the function Object. Every other absent
    name resolves to itself, as [age] in [{age: 32}] does; and no name
    makes the builder fail. *)
Theorem columnName_inherited :
  columnName ∅ "constructor" = "function Object() { [native code] }" ∧
  sqlForPartialUpdate [("constructor", JNum 1)] ∅ =
    inr {| setCols := dquote +:+ "function Object() { [native code] }" +:+ dquote +:+ "=$1";
           values := [JNum 1] |} ∧
  (∀ (jsToSql : gmap string value) (colName : string),
     jsToSql !! colName = None →
     (colName ∈ JS.keys Object_prototype → columnName jsToSql colName ≠ colName) ∧
     (colName ∉ JS.keys Object_prototype → columnName jsToSql colName = colName)) ∧
  sqlForPartialUpdate [("age", JNum 32)] ∅ =
    inr {| setCols := dquote +:+ "age" +:+ dquote +:+ "=$1"; values := [JNum 32] |} ∧
  (∀ (dataToUpdate : JS.object) (jsToSql : gmap string value),
     dataToUpdate ≠ [] → ∃ upd, sqlForPartialUpdate dataToUpdate jsToSql = inr upd).
Proof.
  split; [reflexivity|]. split; [reflexivity|]. split; [|split; [reflexivity|]].
  - intros jsToSql colName Hnone. rewrite (columnName_absent _ _ Hnone). split.
    + intros Hin. unfold JS.keys, Object_prototype in Hin. simpl in Hin.
      repeat (apply elem_of_cons in Hin as [->|Hin]; [by vm_compute|]).
      by apply not_elem_of_nil in Hin.
    + intros Hout. rewrite inherited_absent by done. reflexivity.
  - intros dataToUpdate jsToSql Hne. eexists. by apply sqlForPartialUpdate_nonempty.
Qed.

(** ** Properties of the guards of routes/users.js *)

Ltac run_monad :=
  unfold bind, ret, throw, lift, reading, execute, attempt, hash in *; simpl in *.

Lemma ownerOrAdmin_check (currentUser : Token.payload) (username : string) :
  negb (String.eqb (Token.username currentUser) username)
    && negb (Token.isAdmin currentUser) = false
  ↔ ownerOrAdmin (Some currentUser) username.
Proof.
  unfold ownerOrAdmin. split.
  - intros H. exists currentUser. split; [done|].
    apply andb_false_iff in H as [H|H]; apply negb_false_iff in H.
    + left. by apply String.eqb_eq.
    + by right.
  - intros (u & [= <-] & [H|H]).
    + apply String.eqb_eq in H. by rewrite H.
    + rewrite H. by rewrite andb_false_r.
Qed.

Lemma anonymous_not_ownerOrAdmin (username : string) : ¬ ownerOrAdmin None username.
Proof. by intros (u & [=] & _). Qed.

Lemma handle_allowed (op : selfOrAdmin) (locals_user : option Token.payload)
    (username : string) (db : Db.t) :
  ownerOrAdmin locals_user username →
  handle op locals_user username db = proceed op username db.
Proof.
  intros Hok. destruct locals_user as [u|]; [|by apply anonymous_not_ownerOrAdmin in Hok].
  apply ownerOrAdmin_check in Hok.
  destruct op; simpl;
    unfold users_get_username, users_patch_username,
      users_post_username_jobs_id, users_delete_username, bind, lift; simpl;
    by rewrite Hok.
Qed.

Lemma handle_denied (op : selfOrAdmin) (locals_user : option Token.payload)
    (username : string) (db : Db.t) :
  ¬ ownerOrAdmin locals_user username →
  unauthorized (handle op locals_user username db).1 ∧
  (handle op locals_user username db).2 = db.
Proof.
  intros Hno. destruct locals_user as [u|].
  - rewrite <- ownerOrAdmin_check in Hno. apply not_false_is_true in Hno.
    destruct op; simpl;
      unfold users_get_username, users_patch_username,
        users_post_username_jobs_id, users_delete_username, bind, lift, throw; simpl;
      rewrite Hno; (split; [eexists; reflexivity | reflexivity]).
  - destruct op; (split; [eexists; reflexivity | reflexivity]).
Qed.

(** What the collaborators of the user model can throw. *)
Lemma sqlForPartialUpdate_error (d : JS.object) (m : gmap string value) (e : error) :
  sqlForPartialUpdate d m = inl e → e = BadRequestError (JStr "No data").
Proof.
  unfold sqlForPartialUpdate. destruct (length (JS.keys d) =? 0)%nat; congruence.
Qed.

Lemma integer_error (v : value) (e : error) :
  Db.integer catalog v = inl e → ∃ detail, e = OtherError detail.
Proof. unfold Db.integer. repeat case_match; intros; simplify_eq; eauto. Qed.

Lemma refused_error (id : value) : ∃ detail, Db.refused id = OtherError detail.
Proof. unfold Db.refused. repeat case_match; eauto. Qed.

Lemma select_job_error (id : value) (db : Db.t) (e : error) :
  Db.select_job catalog id db = inl e → ∃ detail, e = OtherError detail.
Proof.
  unfold Db.select_job. destruct (Db.integer catalog id) as [e'|[n|]] eqn:Hi.
  - intros [= <-]. eauto using integer_error.
  - repeat case_match; intros; simplify_eq; eauto using refused_error.
  - done.
Qed.

Lemma insert_application_error (u : string) (id : value) (db : Db.t) (e : error) :
  Db.insert_application catalog u id db = inl e → ∃ detail, e = OtherError detail.
Proof.
  unfold Db.insert_application. destruct (Db.integer catalog id) as [e'|[n|]] eqn:Hi.
  - intros [= <-]. eauto using integer_error.
  - repeat case_match; intros; simplify_eq; eauto using refused_error.
  - intros; simplify_eq; eauto.
Qed.

Lemma targets_error_kinds (seen cols : list string) (e : error) :
  Db.targets_error seen cols = Some e →
  e = OtherError "column does not exist"
  ∨ e = OtherError "multiple assignments to same column".
Proof.
  revert seen. induction cols as [|col cols IH]; intros seen; simpl; [done|].
  repeat case_match; try (intros [= <-]; by eauto). apply IH.
Qed.

Lemma update_users_error (sql : string) (ps : list value) (db : Db.t) (e : error) :
  Db.update_users catalog sql ps db = inl e → ∃ detail, e = OtherError detail.
Proof.
  unfold Db.update_users, Db.run_update.
  destruct (Db.parse_update sql) as [[sets digits]|]; [|intros [= <-]; eauto].
  destruct (Db.targets_error [] sets.*1) as [e'|] eqn:Ht.
  - intros [= <-]. destruct (targets_error_kinds _ _ _ Ht) as [-> | ->]; eauto.
  - repeat case_match; intros; simplify_eq; eauto.
Qed.

Ltac collaborator_errors :=
  repeat match goal with
  | H : sqlForPartialUpdate _ _ = inl _ |- _ => apply sqlForPartialUpdate_error in H
  | H : Db.select_job _ _ _ = inl _ |- _ => apply select_job_error in H as [? ?]
  | H : Db.insert_application _ _ _ _ = inl _ |- _ =>
      apply insert_application_error in H as [? ?]
  | H : Db.update_users _ _ _ _ = inl _ |- _ => apply update_users_error in H as [? ?]
  end.

Lemma proceed_not_unauthorized (op : selfOrAdmin) (username : string) (db : Db.t) :
  ¬ unauthorized (proceed op username db).1.
Proof.
  intros [msg H]. destruct op; simpl in H;
    unfold get, getUserApplications, update, sendUpdate, hashPassword, updateStatement,
      applyForJob, remove in H;
    run_monad; repeat (case_match; simplify_eq/=);
    collaborator_errors; simplify_eq.
Qed.

Lemma ownerOrAdmin_dec (locals_user : option Token.payload) (username : string) :
  ownerOrAdmin locals_user username ∨ ¬ ownerOrAdmin locals_user username.
Proof.
  destruct locals_user as [u|]; [|right; apply anonymous_not_ownerOrAdmin].
  destruct (negb (String.eqb (Token.username u) username) && negb (Token.isAdmin u))
    eqn:Hc.
  - right. rewrite <- ownerOrAdmin_check. congruence.
  - left. by apply ownerOrAdmin_check.
Qed.

Lemma admin_only_denied (currentUser : Token.payload) (body : JS.object) (db : Db.t) :
  Token.isAdmin currentUser = false →
  users_get (Some currentUser) db
    = (inl (UnauthorizedError (JStr "Admin privileges required")), db) ∧
  users_post (Some currentUser) body db
    = (inl (UnauthorizedError (JStr "Admin privileges required")), db).
Proof.
  intros Hna. unfold users_get, users_post, bind, lift, throw. simpl.
  by rewrite Hna.
Qed.

(** C2: under the owner-or-administrator class (get, patch and delete of
    a user, apply for a job) a request is let through to the user model
    if and only if its identity is the owner named in the path or an
    administrator: then the handler does exactly what the operation does,
    and never answers Unauthorized. Every other identity, the anonymous one
    included, gets an UnauthorizedError and the store is left as it was.
    An owner who is not an administrator is let through here and still
    gets an UnauthorizedError from the administrator-only handlers
    (list users, create user). *)
Theorem self_or_admin_guard (op : selfOrAdmin) (locals_user : option Token.payload)
    (username : string) (db : Db.t) :
  (ownerOrAdmin locals_user username
     ↔ ¬ unauthorized (handle op locals_user username db).1) ∧
  (ownerOrAdmin locals_user username →
     handle op locals_user username db = proceed op username db) ∧
  (¬ ownerOrAdmin locals_user username →
     unauthorized (handle op locals_user username db).1 ∧
     (handle op locals_user username db).2 = db) ∧
  (unauthorized (handle op None username db).1) ∧
  (∀ (owner : Token.payload) (body : JS.object),
     Token.username owner = username → Token.isAdmin owner = false →
     handle op (Some owner) username db = proceed op username db ∧
     unauthorized (users_get (Some owner) db).1 ∧
     unauthorized (users_post (Some owner) body db).1).
Proof.
  split; [|split; [|split; [|split]]].
  - split.
    + intros Hok. rewrite (handle_allowed _ _ _ _ Hok).
      apply proceed_not_unauthorized.
    + intros Hres. destruct (ownerOrAdmin_dec locals_user username) as [|Hno]; [done|].
      by apply (handle_denied op _ _ db) in Hno as [? _].
  - apply handle_allowed.
  - apply handle_denied.
  - apply handle_denied, anonymous_not_ownerOrAdmin.
  - intros owner body Hown Hna. split.
    + apply handle_allowed. exists owner. auto.
    + destruct (admin_only_denied owner body db Hna) as [-> ->].
      split; eexists; reflexivity.
Qed.

(** ** Properties of routes/companies.js *)

(** C4 (what the code does): the handler of GET /companies reads the
    three filters from [req.params], which is empty for a request matched
    at the path [/]. Whatever the query string holds, all three are
    undefined, the range check is skipped, and Company.findAll is called
    with no filter at all: the handler itself never answers
    BadRequestError. *)
Theorem companies_get_never_validates (q : gmap string value) (db : Db.t) :
  companies_get (request_at_root q) db =
  (await companies <- Company_findAll
       (JObj [("nameLike", JUndefined); ("minEmployees", JUndefined);
              ("maxEmployees", JUndefined)]);
   ret (Json 200 (JObj [("companies", companies)]))) db.
Proof. reflexivity. Qed.

(** The check itself is sound on the values it is given. *)
Lemma companies_get_range_check (req : request) (lo hi : value) (db : Db.t) :
  params req !! "minEmployees" = Some lo → params req !! "maxEmployees" = Some hi →
  is_undefined lo = false → is_undefined hi = false → number_gt lo hi = true →
  companies_get req db =
  (inl (BadRequestError (JStr "minEmployees cannot be greater than maxEmployees")), db).
Proof.
  intros Hlo Hhi Hl Hh Hgt. unfold companies_get, JS.get.
  rewrite Hlo, Hhi. simpl. by rewrite Hl, Hh, Hgt.
Qed.

(** ** Properties of models/user.js *)

Lemma select_users_nil (project : Db.userRow → JS.object) (username : string) (db : Db.t) :
  Db.select_users project username db = [] ↔ ¬ stored username db.
Proof.
  unfold Db.select_users, stored. split.
  - intros H (r & Hin & Hr).
    apply fmap_nil_inv in H.
    assert (Hf : r ∈ filter (λ r, Db.has_username username r) (Db.users db)).
    { apply list_elem_of_filter. split; [|done].
      unfold Db.has_username. rewrite Hr. apply Is_true_true, String.eqb_refl. }
    rewrite H in Hf. by apply not_elem_of_nil in Hf.
  - intros H.
    destruct (filter (λ r, Db.has_username username r) (Db.users db)) as [|r rs] eqn:Hf;
      [done|].
    exfalso. apply H. exists r.
    assert (Hin : r ∈ filter (λ r, Db.has_username username r) (Db.users db))
      by (rewrite Hf; left).
    apply list_elem_of_filter in Hin as [Hu Hin]. split; [done|].
    unfold Db.has_username in Hu. by apply Is_true_true, String.eqb_eq in Hu.
Qed.

Lemma select_users_cons (project : Db.userRow → JS.object) (username : string) (db : Db.t) :
  stored username db →
  ∃ r rows, r ∈ Db.users db ∧ Db.username r = username ∧
    Db.select_users project username db = project r :: rows.
Proof.
  intros Hs. unfold Db.select_users.
  destruct (filter (λ r, Db.has_username username r) (Db.users db)) as [|r rs] eqn:Hf.
  - exfalso. apply (select_users_nil project username db); [|done].
    unfold Db.select_users. by rewrite Hf.
  - exists r, (map project rs).
    assert (Hin : r ∈ filter (λ r, Db.has_username username r) (Db.users db))
      by (rewrite Hf; left).
    apply list_elem_of_filter in Hin as [Hu Hin].
    unfold Db.has_username in Hu. apply Is_true_true, String.eqb_eq in Hu. done.
Qed.

(** C10: getUserApplications returns undefined for every username and
    every store, and leaves the store alone; so for every stored user
    [get] returns the columns of a stored row of that name followed by the
    key [josb] bound to undefined. The record has no key [jobs], and the
    job ids of the applications table never reach it. *)
Theorem get_never_delivers_applications (username : string) (db : Db.t) :
  stored username db →
  getUserApplications username db = (inr JUndefined, db) ∧
  ∃ r, r ∈ Db.users db ∧ Db.username r = username ∧
    get username db =
      (inr (JObj [("username", JStr username); ("firstName", Db.first_name r);
                  ("lastName", Db.last_name r); ("email", Db.email r);
                  ("isAdmin", Db.is_admin r); ("josb", JUndefined)]), db) ∧
    ∀ user, (get username db).1 = inr (JObj user) →
      JS.prop user "josb" = JUndefined ∧ JS.prop user "jobs" = JUndefined.
Proof.
  intros Hs. split; [reflexivity|].
  destruct (select_users_cons Db.user_object username db Hs) as (r & rows & Hin & Hr & Hsel).
  exists r. split; [done|]. split; [done|].
  assert (Hget : get username db =
      (inr (JObj [("username", JStr username); ("firstName", Db.first_name r);
                  ("lastName", Db.last_name r); ("email", Db.email r);
                  ("isAdmin", Db.is_admin r); ("josb", JUndefined)]), db)).
  { unfold get, bind, reading. rewrite Hsel. simpl. by rewrite Hr. }
  split; [done|]. rewrite Hget. intros user [= <-]. done.
Qed.

(** The only errors of applyForJob are NotFoundError and whatever the
    store throws: a refused INSERT is passed on as it is. *)
Lemma applyForJob_errors (username : string) (jobId : value) (db : Db.t) (e : error) :
  (applyForJob username jobId db).1 = inl e →
  (∃ message, e = NotFoundError message) ∨ (∃ detail, e = OtherError detail).
Proof.
  unfold applyForJob. run_monad. intros H.
  repeat (case_match; simplify_eq/=); collaborator_errors; simplify_eq; eauto.
Qed.

Lemma existsb_same_application_snoc (u : string) (n : Z) (apps : list (string * Z)) :
  existsb (Db.same_application u n) (apps ++ [(u, n)]) = true.
Proof.
  rewrite existsb_app. simpl. unfold Db.same_application at 2. simpl.
  rewrite String.eqb_refl, Z.eqb_refl. by rewrite orb_true_r.
Qed.

Lemma stored_existsb (username : string) (db : Db.t) :
  stored username db → existsb (Db.has_username username) (Db.users db) = true.
Proof.
  intros (r & Hin & Hr). apply existsb_exists. exists r.
  split; [by apply list_elem_of_In|]. by apply String.eqb_eq.
Qed.

Lemma job_existsb (n : Z) (db : Db.t) :
  n ∈ Db.jobs db → existsb (Z.eqb n) (Db.jobs db) = true.
Proof.
  intros Hin. apply existsb_exists. exists n.
  split; [by apply list_elem_of_In|]. apply Z.eqb_refl.
Qed.

Lemma select_job_found (n : Z) (db : Db.t) :
  n ∈ Db.jobs db →
  ∃ row rows, Db.select_job catalog (JNum n) db = inr (row :: rows).
Proof.
  intros Hj. unfold Db.select_job. simpl.
  destruct (filter (λ j, (j =? n)%Z) (Db.jobs db)) as [|j js] eqn:Hf.
  - assert (Hin : n ∈ filter (λ j, (j =? n)%Z) (Db.jobs db)).
    { apply list_elem_of_filter. split; [|done]. apply Is_true_true, Z.eqb_refl. }
    rewrite Hf in Hin. by apply not_elem_of_nil in Hin.
  - simpl. eauto.
Qed.

Lemma select_job_none (n : Z) (db : Db.t) :
  n ∉ Db.jobs db →
  Db.select_job catalog (JNum n) db
    = if Db.int4 n then inr [] else inl (Db.refused (JNum n)).
Proof.
  intros Hn. unfold Db.select_job. simpl.
  destruct (filter (λ j, (j =? n)%Z) (Db.jobs db)) as [|j js] eqn:Hf; [done|].
  assert (Hin : j ∈ filter (λ j : Z, (j =? n)%Z) (Db.jobs db)) by (rewrite Hf; left).
  apply list_elem_of_filter in Hin as [Hj Hin].
  apply Is_true_true, Z.eqb_eq in Hj. by subst.
Qed.

Lemma insert_application_new (username : string) (n : Z) (db : Db.t) :
  stored username db → n ∈ Db.jobs db →
  existsb (Db.same_application username n) (Db.applications db) = false →
  Db.insert_application catalog username (JNum n) db
    = inr ([], {| Db.users := Db.users db; Db.jobs := Db.jobs db;
                  Db.applications := (Db.applications db ++ [(username, n)])%list |}).
Proof.
  intros Hs Hj Hnew. unfold Db.insert_application. simpl.
  by rewrite (stored_existsb _ _ Hs), (job_existsb _ _ Hj), Hnew.
Qed.

(** The second application for the same user and job is refused by the
    store, and applyForJob passes the refusal on. *)
Lemma applyForJob_again (username : string) (n : Z) (db : Db.t) :
  stored username db → n ∈ Db.jobs db →
  existsb (Db.same_application username n) (Db.applications db) = false →
  ∃ db',
    applyForJob username (JNum n) db = (inr (JObj [("applied", JNum n)]), db') ∧
    db' = {| Db.users := Db.users db; Db.jobs := Db.jobs db;
             Db.applications := (Db.applications db ++ [(username, n)])%list |} ∧
    applyForJob username (JNum n) db' =
      (inl (OtherError "duplicate key value violates unique constraint"), db').
Proof.
  intros Hs Hj Hnew.
  destruct (select_users_cons Db.username_object username db Hs)
    as (r & rows & _ & _ & Hsel).
  destruct (select_job_found n db Hj) as (j & js & Hjob).
  eexists. split; [|split; [reflexivity|]].
  - unfold applyForJob, bind, reading, attempt, execute.
    rewrite Hsel, Hjob. simpl. by rewrite (insert_application_new _ _ _ Hs Hj Hnew).
  - unfold applyForJob, bind, reading, attempt, execute.
    unfold Db.select_users in *. simpl. rewrite Hsel.
    unfold Db.select_job in *. simpl in *.
    destruct (filter (λ j, (j =? n)%Z) (Db.jobs db)) as [|j' js'] eqn:Hf;
      [by destruct (Db.int4 n)|]. simpl.
    unfold Db.insert_application. simpl.
    rewrite (stored_existsb _ _ Hs), (job_existsb _ _ Hj). simpl.
    by rewrite existsb_same_application_snoc.
Qed.

(** *** The statement of [update] *)

Lemma assign_keys (o : JS.object) (k : string) (v : value) :
  inherited k = JUndefined →
  truthy (JS.prop o k) = true → JS.keys (JS.assign o k v) = JS.keys o.
Proof.
  intros Hk. induction o as [|[k' v'] o IH]; simpl; [by rewrite Hk|].
  intros Ht. destruct (String.eqb k' k) eqn:Heq.
  - apply String.eqb_eq in Heq. by subst.
  - unfold JS.keys in *. simpl. f_equal. by apply IH.
Qed.

Lemma hashPassword_keeps_keys (data : JS.object) (db : Db.t) :
  hashes data →
  ∃ data', hashPassword data db = (inr data', db) ∧ JS.keys data' = JS.keys data.
Proof.
  unfold hashes, hashPassword. intros Hh.
  destruct (truthy (JS.prop data "password")) eqn:Ht; [|by exists data].
  destruct (Hh eq_refl) as [h Hhash].
  exists (JS.assign data "password" h). unfold bind, hash. rewrite Hhash.
  split; [done|]. by apply assign_keys.
Qed.

Lemma keys_nonempty (o o' : JS.object) : JS.keys o' = JS.keys o → o ≠ [] → o' ≠ [].
Proof. intros Hk Hne ->. destruct o; [done|]. discriminate. Qed.

Lemma keys_same_length (o o' : JS.object) : JS.keys o' = JS.keys o → length o' = length o.
Proof. intros Hk. by rewrite <- (keys_length o'), Hk, keys_length. Qed.

(** Once the password is hashed, [update] builds its statement from the
    hashed field map and sends it. *)
Lemma update_reaches_store (username : string) (data : JS.object) (db : Db.t) :
  data ≠ [] → hashes data →
  ∃ data' : JS.object,
    hashPassword data db = (inr data', db) ∧
    JS.keys data' = JS.keys data ∧
    updateStatement username data' =
      inr (updateSql (String.concat ", " (imap (fragment userJsToSql) (JS.keys data)))
             ("$" +:+ pretty (length data + 1)),
           (JS.values data' ++ [JStr username])%list) ∧
    update username data db
      = sendUpdate username
          (updateSql (String.concat ", " (imap (fragment userJsToSql) (JS.keys data)))
             ("$" +:+ pretty (length data + 1)),
           (JS.values data' ++ [JStr username])%list) db.
Proof.
  intros Hne Hh.
  destruct (hashPassword_keeps_keys data db Hh) as (data' & Hhash & Hkeys).
  pose proof (keys_nonempty _ _ Hkeys Hne) as Hne'.
  pose proof (keys_same_length _ _ Hkeys) as Hlen.
  pose proof (sqlForPartialUpdate_nonempty data' userJsToSql Hne') as Hsql.
  exists data'. split; [done|]. split; [done|].
  assert (Hstmt : updateStatement username data' =
    inr (updateSql (String.concat ", " (imap (fragment userJsToSql) (JS.keys data)))
           ("$" +:+ pretty (length data + 1)),
         (JS.values data' ++ [JStr username])%list)).
  { unfold updateStatement. rewrite Hsql. simpl. by rewrite values_length, Hlen, Hkeys. }
  split; [done|].
  unfold update, bind at 1. rewrite Hhash. unfold bind, lift. by rewrite Hstmt.
Qed.

Lemma hashPassword_refused (data : JS.object) (db : Db.t) :
  ¬ hashes data →
  truthy (JS.prop data "password") = true ∧
  bcrypt_hash (JS.prop data "password") BCRYPT_WORK_FACTOR = None ∧
  hashPassword data db = (inl (OtherError "bcrypt"), db).
Proof.
  unfold hashes, hashPassword. intros Hno.
  destruct (truthy (JS.prop data "password")) eqn:Ht; [|by destruct Hno].
  destruct (bcrypt_hash (JS.prop data "password") BCRYPT_WORK_FACTOR) as [h|] eqn:Hh.
  - destruct Hno. intros _. by exists h.
  - unfold bind, hash. by rewrite Hh.
Qed.

Lemma hashes_dec (data : JS.object) : hashes data ∨ ¬ hashes data.
Proof.
  unfold hashes.
  destruct (truthy (JS.prop data "password")); [|by left].
  destruct (bcrypt_hash (JS.prop data "password") BCRYPT_WORK_FACTOR) as [h|].
  - left. intros _. by exists h.
  - right. intros H. by destruct (H eq_refl).
Qed.

(** *** How the store reads the statement *)

Section Reading.

#[local] Arguments String.append !_ _ / : simpl nomatch.

Lemma append_assoc (a b c : string) : (a +:+ b) +:+ c = a +:+ (b +:+ c).
Proof. induction a as [|x a IH]; simpl; [done|]. by rewrite IH. Qed.

Lemma append_nil_r (a : string) : a +:+ EmptyString = a.
Proof. induction a as [|x a IH]; simpl; [done|]. by rewrite IH. Qed.

Lemma lex_quoted (col acc rest : string) :
  quote_free col = true →
  Db.lex (Db.InQuoted acc) (col +:+ rest) = Db.lex (Db.InQuoted (acc +:+ col)) rest.
Proof.
  revert acc. induction col as [|c col IH]; intros acc Hq; simpl.
  - by rewrite append_nil_r.
  - simpl in Hq. apply andb_true_iff in Hq as [Hc Hq].
    apply negb_true_iff in Hc. rewrite Hc.
    rewrite (IH _ Hq). unfold Db.snoc. rewrite append_assoc. simpl.
    by destruct (Db.lex _ rest).
Qed.

Lemma lex_digits (ds acc rest : string) :
  digits_only ds = true →
  Db.lex (Db.InPlaceholder acc) (ds +:+ rest)
    = Db.lex (Db.InPlaceholder (acc +:+ ds)) rest.
Proof.
  revert acc. induction ds as [|c ds IH]; intros acc Hd; simpl.
  - by rewrite append_nil_r.
  - simpl in Hd. apply andb_true_iff in Hd as [Hc Hd]. rewrite Hc.
    rewrite (IH _ Hd). unfold Db.snoc. rewrite append_assoc. simpl.
    by destruct (Db.lex _ rest).
Qed.

Lemma pretty_N_go_digits (x : N) (s : string) :
  digits_only s = true → digits_only (pretty_N_go x s) = true.
Proof.
  revert s. induction (N.lt_wf_0 x) as [x _ IH]; intros s Hs.
  assert (x = 0 ∨ 0 < x)%N as [->|Hx] by lia; [by rewrite pretty_N_go_0|].
  rewrite pretty_N_go_step by done. apply IH; [by apply N.div_lt|].
  simpl. rewrite Hs, andb_true_r.
  assert (Hm : (x `mod` 10 < 10)%N) by (apply N.mod_lt; lia).
  destruct (x `mod` 10)%N as [|p] eqn:Hp; [done|].
  do 4 (destruct p as [p|p|]; try done); lia.
Qed.

Lemma pretty_nat_digits (k : nat) : digits_only (pretty k) = true.
Proof.
  unfold pretty, pretty_nat, pretty, pretty_N.
  case_decide; [done|]. by apply pretty_N_go_digits.
Qed.

Lemma pretty_N_go_nonempty (x : N) (s : string) :
  s ≠ EmptyString → pretty_N_go x s ≠ EmptyString.
Proof.
  revert s. induction (N.lt_wf_0 x) as [x _ IH]; intros s Hs.
  assert (x = 0 ∨ 0 < x)%N as [->|Hx] by lia; [by rewrite pretty_N_go_0|].
  rewrite pretty_N_go_step by done. apply IH; [by apply N.div_lt|done].
Qed.

Lemma pretty_nat_nonempty (k : nat) : String.eqb (pretty k) EmptyString = false.
Proof.
  apply String.eqb_neq. unfold pretty, pretty_nat, pretty, pretty_N.
  case_decide; [done|].
  assert (Hx : (0 < N.of_nat k)%N) by lia.
  rewrite pretty_N_go_step by done. by apply pretty_N_go_nonempty.
Qed.

(** One fragment, and the comma or the space after it. *)
Lemma lex_fragment (col : string) (k : nat) (c : ascii) (rest : string) :
  plain col = true → Db.is_digit c = false →
  Db.lex Db.Between
    ((dquote +:+ col +:+ dquote +:+ "=$" +:+ pretty k) +:+ String c rest)
  = match Db.after (Db.Placeholder (pretty k)) c with
    | Some (ts, st) =>
        match Db.lex st rest with
        | Some ts' => Some ([Db.Quoted col; Db.Equals] ++ ts ++ ts')%list
        | None => None
        end
    | None => None
    end.
Proof.
  intros Hq Hc. apply andb_true_iff in Hq as [Hne Hq]. apply negb_true_iff in Hne.
  unfold dquote. rewrite !append_assoc. simpl.
  rewrite (lex_quoted col _ _ Hq). simpl. rewrite Hne. simpl.
  rewrite (lex_digits (pretty k) _ _ (pretty_nat_digits k)). simpl.
  rewrite Hc, pretty_nat_nonempty.
  destruct (Db.after (Db.Placeholder (pretty k)) c) as [[ts st]|]; [|done].
  destruct (Db.lex st rest); done.
Qed.

Lemma concat_cons (sep x : string) (y : string) (l : list string) :
  String.concat sep (x :: y :: l) = x +:+ sep +:+ String.concat sep (y :: l).
Proof. reflexivity. Qed.

(** The SET clause and the space after it. *)
Lemma lex_clause (cols : list string) (k : nat) (rest : string) :
  cols ≠ [] → forallb plain cols = true →
  Db.lex Db.Between
    (String.concat ", "
       (zip_with (fun col k => dquote +:+ col +:+ dquote +:+ "=$" +:+ pretty k)
          cols (seq k (length cols)))
     +:+ String " " rest)
  = match Db.lex Db.Between rest with
    | Some ts => Some (set_tokens cols k ++ ts)%list
    | None => None
    end.
Proof.
  revert k. induction cols as [|col cols IH]; intros k Hne Hq; [done|].
  simpl in Hq. apply andb_true_iff in Hq as [Hcol Hq].
  destruct cols as [|col' cols].
  - cbn [String.concat length seq zip_with].
    rewrite (lex_fragment col k " " rest Hcol eq_refl). simpl.
    by destruct (Db.lex Db.Between rest).
  - specialize (IH (S k) ltac:(done) Hq). cbn [length seq zip_with] in IH.
    cbn [length seq zip_with]. rewrite concat_cons, append_assoc.
    match goal with
    | |- context [(", " +:+ ?x) +:+ ?y] =>
        change ((", " +:+ x) +:+ y) with (String "," (String " " (x +:+ y)))
    end.
    rewrite (lex_fragment col k "," _ Hcol eq_refl).
    change (Db.after (Db.Placeholder (pretty k)) ",")
      with (Some ([Db.Placeholder (pretty k); Db.Comma], Db.Between)).
    cbv beta iota.
    match goal with
    | |- context [Db.lex Db.Between (String " " ?x)] =>
        change (Db.lex Db.Between (String " " x))
          with (match Db.lex Db.Between x with
                | Some r => Some ([] ++ r)%list
                | None => None
                end)
    end.
    rewrite IH.
    destruct (Db.lex Db.Between rest); [|done].
    change (set_tokens (col :: col' :: cols) k)
      with ([Db.Quoted col; Db.Equals; Db.Placeholder (pretty k); Db.Comma]
              ++ set_tokens (col' :: cols) (S k))%list.
    by rewrite <- !app_assoc.
Qed.

Lemma parse_set_tokens (cols : list string) (k : nat) (t : Db.token) (rest : list Db.token) :
  cols ≠ [] → t ≠ Db.Comma →
  Db.parse_set (set_tokens cols k ++ t :: rest)
  = Some (zip cols (map pretty (seq k (length cols))), t :: rest).
Proof.
  intros Hne Ht. revert k. induction cols as [|col cols IH]; intros k; [done|].
  destruct cols as [|col' cols].
  - simpl. by destruct t.
  - change (set_tokens (col :: col' :: cols) k)
      with ([Db.Quoted col; Db.Equals; Db.Placeholder (pretty k); Db.Comma]
              ++ set_tokens (col' :: cols) (S k))%list.
    rewrite <- app_assoc. cbn [app Db.parse_set Db.column_of].
    rewrite (IH ltac:(done) (S k)). reflexivity.
Qed.

Lemma updateSql_text (clause digits : string) :
  updateSql clause ("$" +:+ digits) =
    "UPDATE users 
                      SET " +:+ clause +:+ " 
                      WHERE username = $" +:+ digits +:+ " 
                      RETURNING username,
                                first_name AS " +:+ dquote +:+ "firstName" +:+ dquote +:+ ",
                                last_name AS " +:+ dquote +:+ "lastName" +:+ dquote +:+ ",
                                email,
                                is_admin AS " +:+ dquote +:+ "isAdmin" +:+ dquote.
Proof. reflexivity. Qed.

(** The store reads the statement of [update] as the assignments of the
    parameters 1 to n to the columns, with the parameter n+1 as the key. *)
Lemma parse_update_statement (cols : list string) :
  cols ≠ [] → forallb plain cols = true →
  Db.parse_update
    (updateSql
       (String.concat ", "
          (zip_with (fun col k => dquote +:+ col +:+ dquote +:+ "=$" +:+ pretty k)
             cols (seq 1 (length cols))))
       ("$" +:+ pretty (length cols + 1)))
  = Some (zip cols (map pretty (seq 1 (length cols))), pretty (length cols + 1)).
Proof.
  intros Hne Hq. unfold Db.parse_update.
  assert (Hlex : Db.lex Db.Between
    (updateSql
       (String.concat ", "
          (zip_with (fun col k => dquote +:+ col +:+ dquote +:+ "=$" +:+ pretty k)
             cols (seq 1 (length cols))))
       ("$" +:+ pretty (length cols + 1)))
    = Some ([Db.Word "update"; Db.Word "users"; Db.Word "set"]
            ++ set_tokens cols 1
            ++ Db.Word "where" :: Db.Word "username" :: Db.Equals
               :: Db.Placeholder (pretty (length cols + 1)) :: Db.returning)%list).
  { unfold updateSql.
    cbn [String.append Db.lex Db.step Db.start Db.after].
    simpl.
    rewrite (lex_clause cols 1 _ Hne Hq). simpl.
    rewrite (lex_digits (pretty (length cols + 1)) _ _ (pretty_nat_digits _)). simpl.
    rewrite pretty_nat_nonempty. reflexivity. }
  rewrite Hlex. simpl.
  rewrite (parse_set_tokens cols 1 _ _ Hne) by done. simpl.
  by rewrite ?String.eqb_refl.
Qed.

End Reading.

Lemma find_seq (f : nat → bool) (i start len : nat) :
  (∀ j, f j = true ↔ j = i) → (start ≤ i < start + len)%nat →
  find f (seq start len) = Some i.
Proof.
  intros Hf. revert start. induction len as [|len IH]; intros start Hi; [lia|].
  simpl. destruct (f start) eqn:Hs.
  - apply Hf in Hs. by subst.
  - apply IH. assert (start ≠ i); [|lia].
    intros ->. assert (f i = true) by (by apply Hf). congruence.
Qed.

Lemma placeholder_pretty (params : list value) (i : nat) :
  i < length params → Db.placeholder params (pretty (i + 1)) = Some i.
Proof.
  intros Hi. unfold Db.placeholder. apply find_seq; [|lia].
  intros j. rewrite String.eqb_eq. split; [|by intros ->].
  intros H. apply (inj pretty) in H. lia.
Qed.

Lemma placeholders_from (params : list value) (cols : list string) (k : nat) :
  (k + length cols ≤ length params)%nat →
  Db.placeholders params (zip cols (map pretty (seq (S k) (length cols))))
  = Some (zip cols (seq k (length cols))).
Proof.
  revert k. induction cols as [|col cols IH]; intros k Hk; [done|].
  simpl in *. replace (S k) with (k + 1) at 1 by lia.
  rewrite placeholder_pretty by lia. rewrite IH by lia. done.
Qed.

Lemma placeholders_seq (params : list value) (cols : list string) :
  (length cols ≤ length params)%nat →
  Db.placeholders params (zip cols (map pretty (seq 1 (length cols))))
  = Some (zip cols (seq 0 (length cols))).
Proof. intros H. by apply placeholders_from. Qed.


(** C9: for every non-empty update map of n fields, the text that
    [update] hands to the store is the UPDATE of [users] whose SET clause
    is made of the n fragments of the fields, with the placeholders [$1]
    to [$n], and whose WHERE clause reads [WHERE username = $(n+1)]; the
    values bound are the n assignment values, in their positions,
    followed by the username, which is the last of n+1. What [update]
    answers is what the store answers to that text with those values. When no column
    has a double quote in its name the store reads that text as n
    assignments, the k-th of them of the k-th parameter to the column of
    the k-th field, and as the key the parameter n+1, which is the
    username. The one case in which no statement is generated is a
    password that the hashing library refuses: then [update] throws what
    the library threw. *)
Theorem update_binds_username (username : string) (data : JS.object) (db : Db.t) :
  data ≠ [] →
  (¬ hashes data ∧ update username data db = (inl (OtherError "bcrypt"), db)) ∨
  (hashes data ∧
   ∃ data' : JS.object,
    hashPassword data db = (inr data', db) ∧
    JS.keys data' = JS.keys data ∧
    let n := length data in
    let columns := map (columnName userJsToSql) (JS.keys data) in
    let clause :=
      String.concat ", "
        (zip_with (fun col k => dquote +:+ col +:+ dquote +:+ "=$" +:+ pretty k)
           columns (seq 1 n)) in
    let statement :=
      "UPDATE users 
                      SET " +:+ clause +:+ " 
                      WHERE username = $" +:+ pretty (n + 1) +:+ " 
                      RETURNING username,
                                first_name AS " +:+ dquote +:+ "firstName" +:+ dquote +:+ ",
                                last_name AS " +:+ dquote +:+ "lastName" +:+ dquote +:+ ",
                                email,
                                is_admin AS " +:+ dquote +:+ "isAdmin" +:+ dquote in
    let bound := (JS.values data' ++ [JStr username])%list in
    updateStatement username data' = inr (statement, bound) ∧
    update username data db = sendUpdate username (statement, bound) db ∧
    update username data db =
      match Db.update_users catalog statement bound db with
      | inl e => (inl e, db)
      | inr ([], db') => (inl (NotFoundError (JStr ("No user: " +:+ username))), db')
      | inr (user :: _, db') => (inr (JObj (JS.delete user "password")), db')
      end ∧
    length bound = n + 1 ∧
    bound !! n = Some (JStr username) ∧
    last bound = Some (JStr username) ∧
    (∀ k, k < n → bound !! k = JS.values data' !! k) ∧
    (forallb plain columns = true →
     Db.parse_update statement = Some (zip columns (map pretty (seq 1 n)), pretty (n + 1)) ∧
     Db.placeholders bound (zip columns (map pretty (seq 1 n)))
       = Some (zip columns (seq 0 n)) ∧
     Db.placeholder bound (pretty (n + 1)) = Some n ∧
     Db.text catalog (Db.param bound n) = Some username)).
Proof.
  intros Hne. destruct (hashes_dec data) as [Hh|Hno].
  - right. split; [done|].
    destruct (update_reaches_store username data db Hne Hh)
      as (data' & Hhash & Hkeys & Hstmt & Hupd).
    pose proof (keys_same_length _ _ Hkeys) as Hlen.
    exists data'. split; [done|]. split; [done|].
    intros n columns clause statement bound.
    assert (Hcols : length columns = n)
      by (unfold columns, n; by rewrite length_map, keys_length).
    assert (Hclause :
      clause = String.concat ", " (imap (fragment userJsToSql) (JS.keys data))).
    { unfold clause, columns, n. by rewrite imap_fragment_seq, keys_length. }
    assert (Hbound : length bound = n + 1).
    { unfold bound, n. rewrite length_app, values_length, Hlen. simpl. lia. }
    assert (Hlast : bound !! n = Some (JStr username)).
    { unfold bound, n. rewrite lookup_app_r; rewrite values_length, Hlen; [|lia].
      by rewrite Nat.sub_diag. }
    assert (Htext : statement = updateSql clause ("$" +:+ pretty (n + 1)))
      by (symmetry; apply updateSql_text).
    split; [by rewrite Htext, Hclause|]. split; [by rewrite Htext, Hclause|].
    split.
    { rewrite Htext, Hclause, Hupd. unfold sendUpdate, bind, execute. cbn [fst snd].
      by destruct (Db.update_users _ _ _ _) as [e|[[|user rows] db']]. }
    split; [done|]. split; [done|]. split; [apply last_snoc|].
    split.
    + intros k Hk. apply lookup_app_l. rewrite values_length, Hlen. unfold n in Hk. lia.
    + intros Hq. rewrite Htext. unfold clause. rewrite <- Hcols.
      split; [|split; [|split]].
      * apply parse_update_statement; [|done].
        unfold columns. destruct data; [done|discriminate].
      * apply placeholders_seq. lia.
      * apply placeholder_pretty. lia.
      * unfold Db.param. by rewrite Hcols, Hlast.
  - left. split; [done|].
    destruct (hashPassword_refused data db Hno) as (_ & _ & Hhash).
    unfold update, bind. by rewrite Hhash.
Qed.

(** *** What the store does with the statement *)

Lemma bound_parameters (cols : list string) (vals : list value) (key : value) :
  length vals = length cols →
  map (λ ci : string * nat, (ci.1, Db.param (vals ++ [key]) ci.2))
      (zip cols (seq 0 (length cols)))
  = zip cols vals.
Proof.
  intros Hlen. apply list_eq. intros i.
  rewrite list_lookup_fmap.
  rewrite (lookup_zip_with pair cols (seq 0 (length cols)) i).
  rewrite (lookup_zip_with pair cols vals i).
  destruct (cols !! i) as [col|] eqn:Hc; simpl; [|done].
  assert (Hi : i < length cols) by (eapply lookup_lt_Some; eauto).
  rewrite (lookup_seq_lt 0 (length cols) i Hi). simpl.
  destruct (lookup_lt_is_Some_2 vals i ltac:(lia)) as [v Hv]. rewrite Hv. simpl.
  unfold Db.param. by rewrite lookup_app_l, Hv by lia.
Qed.

Lemma parameters_covered (cols : list string) (params : list value) :
  length params = length cols + 1 →
  forallb (λ i, bool_decide (i ∈ length cols :: (zip cols (seq 0 (length cols))).*2))
    (seq 0 (length params)) = true.
Proof.
  intros Hlen. apply forallb_forall. intros i Hin. apply bool_decide_eq_true.
  apply in_seq in Hin. rewrite snd_zip by (rewrite length_seq; lia).
  destruct (decide (i = length cols)) as [->|Hne]; [left|right].
  apply elem_of_seq. lia.
Qed.

(** The store runs the statement of [update] as the assignment of the
    values to the columns of the fields, on the rows of the username. *)
Lemma update_users_generated (cols : list string) (vals : list value) (username : string)
    (db : Db.t) :
  cols ≠ [] → forallb plain cols = true → length vals = length cols →
  Db.update_users catalog
    (updateSql
       (String.concat ", "
          (zip_with (fun col k => dquote +:+ col +:+ dquote +:+ "=$" +:+ pretty k)
             cols (seq 1 (length cols))))
       ("$" +:+ pretty (length cols + 1)))
    (vals ++ [JStr username]) db
  = match Db.targets_error [] cols with
    | Some e => inl e
    | None => Db.run_update catalog (zip cols vals) (JStr username) db
    end.
Proof.
  intros Hne Hq Hlen. unfold Db.update_users.
  rewrite (parse_update_statement cols Hne Hq).
  assert (Hparams : length (vals ++ [JStr username]) = length cols + 1)
    by (rewrite length_app; simpl; lia).
  rewrite fst_zip by (rewrite length_map, length_seq; lia).
  destruct (Db.targets_error [] cols); [done|].
  rewrite placeholders_seq by lia. rewrite placeholder_pretty by lia.
  rewrite (parameters_covered cols _ Hparams). simpl.
  rewrite (bound_parameters cols vals _ Hlen).
  unfold Db.param at 1. rewrite lookup_app_r by lia.
  by rewrite Hlen, Nat.sub_diag.
Qed.

Lemma rewrite_rows_length (vals : list (string * value)) (rs rs' : list Db.userRow) :
  Db.rewrite_rows vals rs = Some rs' → length rs' = length rs.
Proof.
  revert rs'. induction rs as [|r rs IH]; intros rs'; simpl; [by intros [= <-]|].
  destruct (Db.set_columns vals r); [|done].
  destruct (Db.rewrite_rows vals rs) as [rest|]; [|done].
  intros [= <-]. simpl. f_equal. by apply IH.
Qed.

Lemma map_unmatched (P : Db.userRow → bool) (f : Db.userRow → Db.userRow)
    (rs : list Db.userRow) :
  filter (λ r, P r) rs = [] → map (λ r, if P r then f r else r) rs = rs.
Proof.
  induction rs as [|r rs IH]; simpl; [done|].
  destruct (P r) eqn:Hr.
  - rewrite filter_cons_True by (by rewrite Hr). done.
  - rewrite filter_cons_False by (rewrite Hr; exact id). intros H. by rewrite IH.
Qed.

(** An UPDATE that answers no row has rewritten none: the store is what
    it was. *)
Lemma run_update_no_rows (sets : list (string * value)) (key : value) (db db' : Db.t) :
  Db.run_update catalog sets key db = inr ([], db') → db' = db.
Proof.
  unfold Db.run_update. cbv zeta.
  destruct (Db.column_values catalog sets) as [vals|]; [|done].
  destruct (Db.text catalog key) as [u|].
  - destruct (Db.rewrite_rows vals (filter _ (Db.users db)))
      as [rewritten|] eqn:Hrw; [|done].
    repeat case_match; try done. intros [= Hrows <-].
    apply fmap_nil_inv in Hrows. subst rewritten.
    apply rewrite_rows_length in Hrw. simpl in Hrw. symmetry in Hrw.
    apply length_zero_iff_nil in Hrw.
    rewrite (map_unmatched _ _ _ Hrw). by destruct db.
  - destruct (Db.rewrite_rows vals (filter _ (Db.users db))) as [rewritten|]; [|done].
    repeat case_match; try done. intros [= _ <-].
    rewrite map_id. by destruct db.
Qed.

Lemma update_users_no_rows (sql : string) (params : list value) (db db' : Db.t) :
  Db.update_users catalog sql params db = inr ([], db') → db' = db.
Proof.
  unfold Db.update_users. repeat case_match; try done. apply run_update_no_rows.
Qed.

Lemma targets_checked (seen cols : list string) :
  forallb Db.is_column cols = true → Db.distinct cols = true →
  (∀ col, col ∈ cols → col ∉ seen) →
  Db.targets_error seen cols = None.
Proof.
  revert seen. induction cols as [|col cols IH]; intros seen Hcols Hdist Hseen; [done|].
  simpl in *. apply andb_true_iff in Hcols as [Hcol Hcols].
  apply andb_true_iff in Hdist as [Hnew Hdist]. apply negb_true_iff in Hnew.
  rewrite Hcol. simpl.
  assert (Hs : existsb (String.eqb col) seen = false).
  { destruct (existsb _ seen) eqn:He; [|done].
    apply existsb_exists in He as (x & Hin & Hx). apply String.eqb_eq in Hx as <-.
    destruct (Hseen col); [left|by apply list_elem_of_In]. }
  rewrite Hs. apply IH; [done..|].
  intros c Hc. rewrite not_elem_of_cons. split; [|apply Hseen; by right].
  intros ->. assert (existsb (String.eqb col) cols = true); [|congruence].
  apply existsb_exists. exists col. split; [by apply list_elem_of_In|apply String.eqb_refl].
Qed.

Lemma filter_has_username_nil (username : string) (db : Db.t) :
  ¬ stored username db →
  filter (λ r, Db.has_username username r) (Db.users db) = [].
Proof.
  intros Hno. pose proof (proj2 (select_users_nil Db.user_object username db) Hno) as H.
  unfold Db.select_users in H. by apply fmap_nil_inv in H.
Qed.

(** An UPDATE whose key no row has answers no row, if it answers. *)
Lemma run_update_absent (sets : list (string * value)) (username : string)
    (rows : list JS.object) (db db' : Db.t) :
  ¬ stored username db →
  Db.run_update catalog sets (JStr username) db = inr (rows, db') → rows = [].
Proof.
  intros Hno. unfold Db.run_update.
  destruct (Db.column_values catalog sets) as [vals|]; [|done]. simpl.
  rewrite (filter_has_username_nil username db Hno). simpl.
  repeat case_match; try done. by intros [= <- _].
Qed.

(** The statement that [update] sends for a field map. *)
Lemma updateStatement_generated (username : string) (data' : JS.object)
    (stmt : string * list value) :
  updateStatement username data' = inr stmt →
  data' ≠ [] ∧
  stmt =
    (updateSql
       (String.concat ", "
          (zip_with (fun col k => dquote +:+ col +:+ dquote +:+ "=$" +:+ pretty k)
             (map (columnName userJsToSql) (JS.keys data'))
             (seq 1 (length (map (columnName userJsToSql) (JS.keys data'))))))
       ("$" +:+ pretty (length (map (columnName userJsToSql) (JS.keys data')) + 1)),
     (JS.values data' ++ [JStr username])%list).
Proof.
  intros Hstmt. unfold updateStatement in Hstmt.
  assert (Hne : data' ≠ []) by (by intros ->).
  split; [done|].
  rewrite sqlForPartialUpdate_nonempty in Hstmt by done. cbn [setCols values] in Hstmt.
  injection Hstmt as <-.
  rewrite imap_fragment_seq, !length_map, !keys_length, values_length. reflexivity.
Qed.

Lemma remove_no_rows (username : string) (db : Db.t) :
  (Db.delete_user username db).1 = [] →
  remove username db = (inl (NotFoundError (JStr ("No user: " +:+ username))), db).
Proof.
  intros Hrows. unfold remove, bind, execute, throw.
  destruct (Db.delete_user username db) as [rows db'] eqn:Hdel. simpl in Hrows. subst rows.
  f_equal. unfold Db.delete_user in Hdel. injection Hdel as Hsel <-.
  unfold Db.select_users in Hsel. apply fmap_nil_inv in Hsel.
  rewrite Hsel. simpl. destruct db as [us js apps]. simpl in *. f_equal.
  induction us as [|r us IH]; [done|].
  destruct (Db.has_username username r) eqn:Hr.
  - rewrite filter_cons_True in Hsel by (by rewrite Hr). done.
  - rewrite filter_cons_False in Hsel by (rewrite Hr; exact id).
    rewrite filter_cons_True by (by rewrite Hr). f_equal. by apply IH.
Qed.

Lemma get_no_rows (username : string) (db : Db.t) :
  Db.select_users Db.user_object username db = [] →
  get username db = (inl (NotFoundError (JStr ("No user: " +:+ username))), db).
Proof. intros Hrows. unfold get, bind, reading. by rewrite Hrows. Qed.

Lemma update_no_rows (username : string) (data data' : JS.object)
    (stmt : string * list value) (db db' : Db.t) :
  hashPassword data db = (inr data', db) →
  updateStatement username data' = inr stmt →
  Db.update_users catalog stmt.1 stmt.2 db = inr ([], db') →
  update username data db = (inl (NotFoundError (JStr ("No user: " +:+ username))), db).
Proof.
  intros Hhash Hstmt Hrows.
  pose proof (update_users_no_rows _ _ _ _ Hrows) as ->.
  unfold update, bind at 1. rewrite Hhash. unfold bind at 1, lift. rewrite Hstmt.
  unfold sendUpdate, bind, execute. by rewrite Hrows.
Qed.

(** The statement of an update whose key no row has answers no row, if
    the store runs it. *)
Lemma update_absent (username : string) (data' : JS.object) (stmt : string * list value)
    (rows : list JS.object) (db db' : Db.t) :
  ¬ stored username db →
  updateStatement username data' = inr stmt →
  forallb plain (map (columnName userJsToSql) (JS.keys data')) = true →
  Db.update_users catalog stmt.1 stmt.2 db = inr (rows, db') → rows = [].
Proof.
  intros Hno Hstmt Hq.
  destruct (updateStatement_generated _ _ _ Hstmt) as [Hne ->]. simpl.
  rewrite update_users_generated; [|by destruct data'|done|].
  - repeat case_match; try done. by apply run_update_absent.
  - by rewrite values_length, length_map, keys_length.
Qed.

(** C6: an operation on a user that gets zero rows from the store fails
    with NotFoundError [No user: ...] and leaves the store as it was: a
    get whose SELECT returns no row, a delete whose DELETE returns no
    row, an update whose UPDATE returns no row. A key that matches no
    stored record gives zero rows: always for get and delete, and for an
    update whenever the store runs its statement. The handlers pass the
    NotFoundError on to an owner or an administrator; every other
    identity gets an UnauthorizedError instead, whether the key is stored
    or not. *)
Theorem absent_key_not_found (username : string) (db : Db.t) :
  (Db.select_users Db.user_object username db = [] →
     get username db = (inl (NotFoundError (JStr ("No user: " +:+ username))), db)) ∧
  ((Db.delete_user username db).1 = [] →
     remove username db = (inl (NotFoundError (JStr ("No user: " +:+ username))), db)) ∧
  (∀ (data data' : JS.object) (stmt : string * list value) (db' : Db.t),
     hashPassword data db = (inr data', db) →
     updateStatement username data' = inr stmt →
     Db.update_users catalog stmt.1 stmt.2 db = inr ([], db') →
     update username data db
       = (inl (NotFoundError (JStr ("No user: " +:+ username))), db)) ∧
  (¬ stored username db →
     Db.select_users Db.user_object username db = [] ∧
     (Db.delete_user username db).1 = [] ∧
     ∀ (data' : JS.object) (stmt : string * list value) (rows : list JS.object)
       (db' : Db.t),
       updateStatement username data' = inr stmt →
       forallb plain (map (columnName userJsToSql) (JS.keys data')) = true →
       Db.update_users catalog stmt.1 stmt.2 db = inr (rows, db') → rows = []) ∧
  (∀ locals_user : option Token.payload,
     ownerOrAdmin locals_user username →
     (Db.select_users Db.user_object username db = [] →
        users_get_username locals_user username db
          = (inl (NotFoundError (JStr ("No user: " +:+ username))), db)) ∧
     ((Db.delete_user username db).1 = [] →
        users_delete_username locals_user username db
          = (inl (NotFoundError (JStr ("No user: " +:+ username))), db)) ∧
     (∀ (body data' : JS.object) (stmt : string * list value) (db' : Db.t),
        userUpdateSchema body = [] →
        hashPassword body db = (inr data', db) →
        updateStatement username data' = inr stmt →
        Db.update_users catalog stmt.1 stmt.2 db = inr ([], db') →
        users_patch_username locals_user username body db
          = (inl (NotFoundError (JStr ("No user: " +:+ username))), db))) ∧
  (∀ (locals_user : option Token.payload) (body : JS.object),
     ¬ ownerOrAdmin locals_user username →
     unauthorized (users_get_username locals_user username db).1 ∧
     unauthorized (users_delete_username locals_user username db).1 ∧
     unauthorized (users_patch_username locals_user username body db).1).
Proof.
  split; [apply get_no_rows|]. split; [apply remove_no_rows|].
  split; [intros data data' stmt db'; apply update_no_rows|]. split; [|split].
  - intros Hno. split; [by apply select_users_nil|]. split.
    + unfold Db.delete_user. simpl. by rewrite (filter_has_username_nil _ _ Hno).
    + intros data' stmt rows db'. by apply update_absent.
  - intros locals_user Hok. split; [|split].
    + intros Hrows. pose proof (handle_allowed GetUser _ _ db Hok) as H. simpl in H.
      rewrite H. unfold bind. by rewrite (get_no_rows _ _ Hrows).
    + intros Hrows. pose proof (handle_allowed DeleteUser _ _ db Hok) as H. simpl in H.
      rewrite H. unfold bind. by rewrite (remove_no_rows _ _ Hrows).
    + intros body data' stmt db' Hvalid Hhash Hstmt Hrows.
      pose proof (handle_allowed (PatchUser body) _ _ db Hok) as H. simpl in H.
      rewrite H, Hvalid. unfold bind. by rewrite (update_no_rows _ _ _ _ _ _ Hhash Hstmt Hrows).
  - intros locals_user body Hno. split; [|split].
    + by destruct (handle_denied GetUser _ _ db Hno).
    + by destruct (handle_denied DeleteUser _ _ db Hno).
    + by destruct (handle_denied (PatchUser body) _ _ db Hno).
Qed.

(** ** Properties of the filter builder *)

Import Filter.

Lemma add_in_range (mk : nat → predicate) (v : value) (b : built) :
  (∀ k, placeholder_of (mk k) = k) → in_range b → in_range (add mk v b).
Proof.
  unfold in_range, add. simpl. intros Hmk Hb. rewrite length_app. simpl.
  apply Forall_app. split.
  - eapply Forall_impl; [exact Hb|]. simpl. intros p Hp. lia.
  - apply Forall_singleton. rewrite Hmk. lia.
Qed.

Lemma add_if_in_range {A} (o : option A) (mk : nat → predicate) (val : A → value)
    (b : built) :
  (∀ k, placeholder_of (mk k) = k) → in_range b → in_range (add_if o mk val b).
Proof. destruct o; simpl; [apply add_in_range|done]. Qed.

Lemma unflagged_in_range (f : filterSpec) : in_range (unflagged f).
Proof.
  unfold unflagged. repeat apply add_if_in_range; try done.
  unfold in_range. simpl. constructor.
Qed.

Lemma holds_more_values (vals extra : list value) (r : row) (p : predicate) :
  0 < placeholder_of p ≤ length vals →
  holds (vals ++ extra) r p = holds vals r p.
Proof.
  intros Hp. unfold holds.
  destruct p as [k|k|k|k]; simpl in *; by rewrite lookup_app_l by lia.
Qed.

Lemma forallb_agree {A} (f g : A → bool) (l : list A) :
  Forall (λ x, f x = g x) l → forallb f l = forallb g l.
Proof. induction 1 as [|x l Hx _ IH]; simpl; [done|]. by rewrite Hx, IH. Qed.

Lemma satisfies_add_flag (b : built) (r : row) :
  in_range b →
  satisfies (add Holds (JBool true) b) r = satisfies b r && row_flag r.
Proof.
  intros Hb. unfold satisfies, add. simpl. rewrite forallb_app. simpl.
  f_equal.
  - apply forallb_agree. eapply Forall_impl; [exact Hb|]. simpl.
    intros p Hp. by apply holds_more_values.
  - unfold holds. simpl. rewrite Nat.add_sub, lookup_app_r by lia.
    rewrite Nat.sub_diag. simpl. destruct (row_flag r); reflexivity.
Qed.

(** C8: a flag of value false adds no predicate and no placeholder: the
    builder returns what it returns when the flag is absent, and the list
    query returns the same rows. A flag of value true adds one predicate,
    bound to the next placeholder, and the list query then returns those
    rows of the unflagged answer on which the flag holds. *)
Theorem flag_false_is_absent (f : filterSpec) (rows : list row) :
  buildFilter (with_flag f (Some false)) = buildFilter (with_flag f None) ∧
  search rows (with_flag f (Some false)) = search rows (with_flag f None) ∧
  ∀ b : built, buildFilter (with_flag f None) = inr b →
    buildFilter (with_flag f (Some true)) = inr (add Holds (JBool true) b) ∧
    length (predicates (add Holds (JBool true) b)) = S (length (predicates b)) ∧
    ∀ found, search rows (with_flag f None) = inr found →
      search rows (with_flag f (Some true)) = inr (filter (λ r, row_flag r) found).
Proof.
  split; [reflexivity|]. split; [reflexivity|].
  intros b Hb. unfold search, buildFilter, with_flag, range_invalid in *. simpl in *.
  destruct (match minimum f with
            | Some lo => match maximum f with
                         | Some hi => (hi <? lo)%Z
                         | None => false
                         end
            | None => false
            end); [done|].
  injection Hb as <-. fold (unflagged f).
  split; [reflexivity|]. split.
  - unfold add. simpl. rewrite length_app. simpl. lia.
  - intros found [= <-]. f_equal.
    rewrite list_filter_filter. apply list_filter_iff. intros r.
    rewrite (satisfies_add_flag _ r (unflagged_in_range f)).
    rewrite andb_True. tauto.
Qed.

(** ** Further properties of models/user.js *)

Lemma not_stored_existsb (username : string) (db : Db.t) :
  ¬ stored username db → existsb (Db.has_username username) (Db.users db) = false.
Proof.
  intros Hno. destruct (existsb _ _) eqn:He; [|done].
  apply existsb_exists in He as (r & Hin & Hr). destruct Hno.
  exists r. split; [by apply list_elem_of_In|]. by apply String.eqb_eq.
Qed.

Lemma get_absent (username : string) (db : Db.t) :
  ¬ stored username db →
  get username db = (inl (NotFoundError (JStr ("No user: " +:+ username))), db).
Proof.
  intros Hno. unfold get, bind, reading.
  by rewrite (proj2 (select_users_nil Db.user_object username db) Hno).
Qed.

Lemma remove_absent (username : string) (db : Db.t) :
  ¬ stored username db →
  (remove username db).1 = inl (NotFoundError (JStr ("No user: " +:+ username))).
Proof.
  intros Hno. rewrite remove_no_rows; [done|].
  unfold Db.delete_user. simpl. by rewrite (filter_has_username_nil _ _ Hno).
Qed.

Lemma has_username_true (username : string) (r : Db.userRow) :
  Db.has_username username r = true ↔ Db.username r = username.
Proof. unfold Db.has_username. apply String.eqb_eq. Qed.

Lemma stored_dec (username : string) (db : Db.t) :
  stored username db ∨ ¬ stored username db.
Proof.
  destruct (Db.select_users Db.username_object username db) eqn:Hsel.
  - right. by apply (select_users_nil Db.username_object).
  - left. destruct (Db.users db) as [|r0 rs] eqn:Hu.
    + unfold Db.select_users in Hsel. by rewrite Hu in Hsel.
    + assert (Hne : Db.select_users Db.username_object username db ≠ [])
        by (by rewrite Hsel).
      rewrite select_users_nil in Hne.
      unfold stored in *. rewrite Hu in *.
      assert (Hex : existsb (Db.has_username username) (r0 :: rs) = true).
      { destruct (existsb _ _) eqn:He; [done|]. destruct Hne.
        intros (r & Hin & Hr). apply list_elem_of_In in Hin.
        assert (existsb (Db.has_username username) (r0 :: rs) = true); [|congruence].
        apply existsb_exists. exists r. split; [done|]. by apply has_username_true. }
      apply existsb_exists in Hex as (r & Hin & Hr).
      exists r. split; [by apply list_elem_of_In|]. by apply has_username_true.
Qed.

Lemma register_stored (body : JS.object) (db : Db.t) :
  stored (to_string (JS.prop body "username")) db →
  register body db =
    (inl (BadRequestError
            (JStr ("Duplicate username: " +:+ to_string (JS.prop body "username")))), db).
Proof.
  intros Hs.
  destruct (select_users_cons Db.username_object _ db Hs) as (r & rows & _ & _ & Hsel).
  unfold register, bind, reading. by rewrite Hsel.
Qed.


Lemma make_row_error (ps : list value) (e : error) :
  Db.make_row catalog ps = inl e → ∃ detail, e = OtherError detail.
Proof. unfold Db.make_row. repeat case_match; intros; simplify_eq; eauto. Qed.

Lemma insert_user_error (ps : list value) (db : Db.t) (e : error) :
  Db.insert_user catalog ps db = inl e → ∃ detail, e = OtherError detail.
Proof.
  unfold Db.insert_user. destruct (Db.make_row catalog ps) eqn:Hrow.
  - intros [= <-]. eauto using make_row_error.
  - case_match; intros; simplify_eq; eauto.
Qed.


Lemma stored_snoc (username : string) (r : Db.userRow) (db db' : Db.t) :
  Db.users db' = (Db.users db ++ [r])%list →
  stored username db' ↔ stored username db ∨ Db.username r = username.
Proof.
  intros Hu. unfold stored. rewrite Hu. split.
  - intros (x & Hin & Hx). apply elem_of_app in Hin as [Hin|Hin]; [left; eauto|].
    apply list_elem_of_singleton in Hin as ->. by right.
  - intros [(x & Hin & Hx)|Hr].
    + exists x. split; [|done]. apply elem_of_app. by left.
    + exists r. split; [|done]. apply elem_of_app. right. by apply list_elem_of_singleton.
Qed.

(** The columns of the row the store makes of six parameters. *)
Lemma make_row_columns (u p f l e a : value) (r : Db.userRow) :
  Db.make_row catalog [u; p; f; l; e; a] = inr r →
  Db.column_value catalog "username" u = Some (JStr (Db.username r)) ∧
  Db.column_value catalog "password" p = Some (Db.password r) ∧
  Db.column_value catalog "first_name" f = Some (Db.first_name r) ∧
  Db.column_value catalog "last_name" l = Some (Db.last_name r) ∧
  Db.column_value catalog "email" e = Some (Db.email r) ∧
  Db.column_value catalog "is_admin" a = Some (Db.is_admin r) ∧
  Db.row_ok catalog r = true.
Proof.
  unfold Db.make_row. simpl.
  destruct (Db.column_value catalog "username" u) as [u'|]; [|done].
  destruct (Db.column_value catalog "password" p) as [p'|]; [|done].
  destruct (Db.column_value catalog "first_name" f) as [f'|]; [|done].
  destruct (Db.column_value catalog "last_name" l) as [l'|]; [|done].
  destruct (Db.column_value catalog "email" e) as [e'|]; [|done].
  destruct (Db.column_value catalog "is_admin" a) as [a'|]; [|done].
  simpl. destruct u'; try done. simpl.
  case_match; [|done]. intros [= <-]. simpl. done.
Qed.

Lemma register_fresh (body : JS.object) (hashed : value) (r : Db.userRow) (db : Db.t) :
  ¬ stored (to_string (JS.prop body "username")) db →
  bcrypt_hash (JS.prop body "password") BCRYPT_WORK_FACTOR = Some hashed →
  Db.make_row catalog
    [JS.prop body "username"; hashed; JS.prop body "firstName"; JS.prop body "lastName";
     JS.prop body "email"; JS.prop body "isAdmin"] = inr r →
  Db.username r = to_string (JS.prop body "username") →
  register body db =
    (inr (JObj (Db.user_object r)),
     {| Db.users := (Db.users db ++ [r])%list;
        Db.jobs := Db.jobs db; Db.applications := Db.applications db |}).
Proof.
  intros Hno Hh Hrow Hname.
  pose proof (proj2 (select_users_nil Db.username_object _ db) Hno) as Hsel.
  pose proof (not_stored_existsb _ db Hno) as Hex.
  unfold register, bind, reading, hash, execute, Db.insert_user.
  rewrite Hsel, Hh. cbn [ret]. rewrite Hrow, Hname, Hex. reflexivity.
Qed.

Lemma get_registered (r : Db.userRow) (db : Db.t) :
  ¬ stored (Db.username r) db →
  get (Db.username r)
    {| Db.users := (Db.users db ++ [r])%list;
       Db.jobs := Db.jobs db; Db.applications := Db.applications db |}
  = (inr (JObj (Db.user_object r ++ [("josb", JUndefined)])%list),
     {| Db.users := (Db.users db ++ [r])%list;
        Db.jobs := Db.jobs db; Db.applications := Db.applications db |}).
Proof.
  intros Hno. unfold get, bind, reading, Db.select_users. simpl.
  rewrite filter_app, (filter_has_username_nil _ db Hno). simpl.
  rewrite filter_cons_True by (apply Is_true_true, String.eqb_refl).
  reflexivity.
Qed.

(** X3: registering a username that is not stored, with a password the
    hashing library accepts and values of which the store makes a row of
    that username, appends that row to the users (its password is what
    the column holds of the hash, never of the password given), leaves
    jobs and applications alone, and returns the five public columns of
    the row. Afterwards [get] of that username returns the same columns
    followed by [josb], and registering the same body again fails as a
    duplicate. *)
Theorem register_then_get (body : JS.object) (hashed : value) (r : Db.userRow)
    (db : Db.t) :
  ¬ stored (to_string (JS.prop body "username")) db →
  bcrypt_hash (JS.prop body "password") BCRYPT_WORK_FACTOR = Some hashed →
  Db.make_row catalog
    [JS.prop body "username"; hashed; JS.prop body "firstName"; JS.prop body "lastName";
     JS.prop body "email"; JS.prop body "isAdmin"] = inr r →
  Db.username r = to_string (JS.prop body "username") →
  ∃ db',
    register body db = (inr (JObj (Db.user_object r)), db') ∧
    Db.users db' = (Db.users db ++ [r])%list ∧
    Db.jobs db' = Db.jobs db ∧ Db.applications db' = Db.applications db ∧
    Db.column_value catalog "password" hashed = Some (Db.password r) ∧
    Db.row_ok catalog r = true ∧
    JS.prop (Db.user_object r) "password" = JUndefined ∧
    get (to_string (JS.prop body "username")) db' =
      (inr (JObj (Db.user_object r ++ [("josb", JUndefined)])%list), db') ∧
    register body db' =
      (inl (BadRequestError
              (JStr ("Duplicate username: " +:+ to_string (JS.prop body "username")))),
       db').
Proof.
  intros Hno Hh Hrow Hname.
  destruct (make_row_columns _ _ _ _ _ _ _ Hrow) as (_ & Hp & _ & _ & _ & _ & Hok).
  exists {| Db.users := (Db.users db ++ [r])%list;
            Db.jobs := Db.jobs db; Db.applications := Db.applications db |}.
  split; [by apply (register_fresh body hashed)|].
  split; [done|split; [done|split; [done|split; [done|split; [done|split; [done|split]]]]]].
  - rewrite <- Hname. apply get_registered. by rewrite Hname.
  - apply register_stored.
    apply (stored_snoc _ r db); [done|by right].
Qed.

(** When the store makes no row of the values, [register] passes on what
    the store threw, and nothing is stored. *)
Lemma register_refused (body : JS.object) (hashed : value) (e : error) (db : Db.t) :
  ¬ stored (to_string (JS.prop body "username")) db →
  bcrypt_hash (JS.prop body "password") BCRYPT_WORK_FACTOR = Some hashed →
  Db.make_row catalog
    [JS.prop body "username"; hashed; JS.prop body "firstName"; JS.prop body "lastName";
     JS.prop body "email"; JS.prop body "isAdmin"] = inl e →
  register body db = (inl e, db).
Proof.
  intros Hno Hh Hrow.
  pose proof (proj2 (select_users_nil Db.username_object _ db) Hno) as Hsel.
  unfold register, bind, reading, hash, execute, Db.insert_user.
  rewrite Hsel, Hh. cbn [ret]. by rewrite Hrow.
Qed.

(** X4: removing a stored user returns undefined and leaves a store in
    which that username is no longer stored, every other username is
    stored exactly as before, and the jobs are untouched; a [get] or a
    second [remove] of the same username then fails with NotFoundError. *)
Theorem remove_then_gone (username : string) (db : Db.t) :
  stored username db →
  ∃ db',
    remove username db = (inr JUndefined, db') ∧
    ¬ stored username db' ∧
    (∀ r, r ∈ Db.users db' ↔ r ∈ Db.users db ∧ Db.username r ≠ username) ∧
    Db.jobs db' = Db.jobs db ∧
    get username db' = (inl (NotFoundError (JStr ("No user: " +:+ username))), db') ∧
    (remove username db').1 = inl (NotFoundError (JStr ("No user: " +:+ username))).
Proof.
  intros Hs.
  destruct (select_users_cons Db.username_object username db Hs)
    as (r0 & rows & _ & _ & Hsel).
  exists (Db.delete_user username db).2.
  assert (Hrows : ∀ r, r ∈ Db.users (Db.delete_user username db).2
                       ↔ r ∈ Db.users db ∧ Db.username r ≠ username).
  { intros r. unfold Db.delete_user. simpl. rewrite list_elem_of_filter.
    rewrite <- (has_username_true username r).
    destruct (Db.has_username username r); simpl; split; intros [? ?]; split;
      try done; by auto. }
  assert (Hgone : ¬ stored username (Db.delete_user username db).2).
  { intros (r & Hin & Hr). apply Hrows in Hin as [_ Hne]. done. }
  split; [|split; [done|split; [done|split; [done|split]]]].
  - assert (Hdeleted : (Db.delete_user username db).1 = Db.username_object r0 :: rows)
      by exact Hsel.
    unfold remove, bind, execute.
    destruct (Db.delete_user username db) as [rs db'] eqn:Hdel. simpl in *.
    by rewrite Hdeleted.
  - by apply get_absent.
  - by apply remove_absent.
Qed.

(** Within the range of an integer column a number is written with
    all its digits. *)
Lemma print_number_int4 (n : Z) : Db.int4 n = true → print_number n = pretty n.
Proof.
  unfold Db.int4, print_number, print_natural. intros H.
  apply andb_true_iff in H as [H1 H2]. apply Z.leb_le in H1. apply Z.ltb_lt in H2.
  change (2 ^ 31)%Z with 2147483648%Z in *.
  destruct (n <? 0)%Z eqn:Hneg.
  - apply Z.ltb_lt in Hneg.
    assert (Hle : (- n <=? 2 ^ 53)%Z = true)
      by (apply Z.leb_le; change (2 ^ 53)%Z with 9007199254740992%Z; lia).
    rewrite Hle. destruct n; try lia. reflexivity.
  - apply Z.ltb_ge in Hneg.
    assert (Hle : (n <=? 2 ^ 53)%Z = true)
      by (apply Z.leb_le; change (2 ^ 53)%Z with 9007199254740992%Z; lia).
    by rewrite Hle.
Qed.

(** X5: [applyForJob] answers NotFoundError [No user: ...] when the
    username is not stored, whatever the job id is: the user is checked
    first. When the user is stored and the id is the id of no job, it
    answers NotFoundError [No job: ...] for an id within the range of the
    column and for [null], and passes on what the store threw for an id
    outside the range and for NaN, which [parseInt] gives for a path
    segment without digits. In all these cases nothing is written. *)
Theorem applyForJob_not_found (username : string) (db : Db.t) :
  (∀ jobId, ¬ stored username db →
     applyForJob username jobId db
       = (inl (NotFoundError (JStr ("No user: " +:+ username))), db)) ∧
  (∀ n : Z, stored username db → n ∉ Db.jobs db → Db.int4 n = true →
     applyForJob username (JNum n) db
       = (inl (NotFoundError (JStr ("No job: " +:+ pretty n))), db)) ∧
  (∀ n : Z, stored username db → n ∉ Db.jobs db → Db.int4 n = false →
     applyForJob username (JNum n) db = (inl (Db.refused (JNum n)), db) ∧
     ∃ detail, Db.refused (JNum n) = OtherError detail) ∧
  (stored username db →
     applyForJob username JNull db = (inl (NotFoundError (JStr "No job: null")), db) ∧
     applyForJob username JNaN db
       = (inl (OtherError "invalid input syntax for type integer"), db)).
Proof.
  split; [|split; [|split]].
  - intros jobId Hno. unfold applyForJob, bind, reading.
    by rewrite (proj2 (select_users_nil Db.username_object username db) Hno).
  - intros n Hs Hn Hrange.
    destruct (select_users_cons Db.username_object username db Hs)
      as (r0 & rows & _ & _ & Hsel).
    unfold applyForJob, bind, reading, attempt. rewrite Hsel.
    rewrite (select_job_none n db Hn), Hrange. cbn [throw to_string].
    by rewrite (print_number_int4 n Hrange).
  - intros n Hs Hn Hrange. split; [|apply refused_error].
    destruct (select_users_cons Db.username_object username db Hs)
      as (r0 & rows & _ & _ & Hsel).
    unfold applyForJob, bind, reading, attempt. rewrite Hsel.
    by rewrite (select_job_none n db Hn), Hrange.
  - intros Hs.
    destruct (select_users_cons Db.username_object username db Hs)
      as (r0 & rows & _ & _ & Hsel).
    unfold applyForJob, bind, reading, attempt. rewrite Hsel. split; reflexivity.
Qed.

(** X6: when the user is stored, the job exists and the pair is new,
    [applyForJob] answers [{applied: id}] and the store gains exactly that
    application: users and jobs are what they were, and the applications
    selected for the user are the former ones followed by the job. *)
Theorem applyForJob_records (username : string) (n : Z) (db : Db.t) :
  stored username db → n ∈ Db.jobs db →
  existsb (Db.same_application username n) (Db.applications db) = false →
  ∃ db',
    applyForJob username (JNum n) db = (inr (JObj [("applied", JNum n)]), db') ∧
    Db.users db' = Db.users db ∧ Db.jobs db' = Db.jobs db ∧
    Db.applications db' = (Db.applications db ++ [(username, n)])%list ∧
    Db.select_applications username db' =
      (Db.select_applications username db ++ [[("job_id", JNum n)]])%list.
Proof.
  intros Hs Hj Hnew.
  destruct (applyForJob_again username n db Hs Hj Hnew) as (db' & Hfirst & -> & _).
  eexists. split; [exact Hfirst|]. simpl.
  repeat split. unfold Db.select_applications. simpl.
  rewrite filter_app, fmap_app. f_equal.
  rewrite filter_cons_True by (apply Is_true_true, String.eqb_refl). reflexivity.
Qed.

(** *** What a successful update leaves behind *)

Lemma userJsToSql_absent (k : string) :
  k ≠ "firstName" → k ≠ "lastName" → k ≠ "isAdmin" → userJsToSql !! k = None.
Proof.
  intros H1 H2 H3. unfold userJsToSql.
  rewrite !lookup_insert_ne by done. by rewrite lookup_singleton_ne.
Qed.

(** A column that no field is mapped to is the column of the field of
    its name only. *)
Lemma columnName_user (k col : string) :
  Db.is_column col = true →
  col ≠ "first_name" → col ≠ "last_name" → col ≠ "is_admin" →
  columnName userJsToSql k = col → k = col.
Proof.
  intros Hcol H1 H2 H3 Hc.
  destruct (decide (k = "firstName")) as [->|Hf]; [done|].
  destruct (decide (k = "lastName")) as [->|Hl]; [done|].
  destruct (decide (k = "isAdmin")) as [->|Ha]; [done|].
  rewrite (columnName_absent _ _ (userJsToSql_absent k Hf Hl Ha)) in Hc.
  destruct (decide (k ∈ JS.keys Object_prototype)) as [Hin|Hout].
  - unfold JS.keys, Object_prototype in Hin. simpl in Hin.
    repeat (apply elem_of_cons in Hin as [->|Hin];
            [vm_compute in Hc; subst col; by vm_compute in Hcol|]).
    by apply not_elem_of_nil in Hin.
  - by rewrite (inherited_absent _ Hout) in Hc.
Qed.

Lemma is_column_plain (col : string) :
  Db.is_column col = true → plain col = true.
Proof.
  unfold Db.is_column, Db.columns. simpl. intros H.
  repeat (apply orb_true_iff in H as [H|H]; [by apply String.eqb_eq in H as ->|]).
  done.
Qed.

Lemma columns_plain (cols : list string) :
  forallb Db.is_column cols = true → forallb plain cols = true.
Proof.
  induction cols as [|col cols IH]; simpl; [done|].
  intros H. apply andb_true_iff in H as [Hc H].
  by rewrite (is_column_plain _ Hc), IH.
Qed.

Lemma distinct_NoDup (l : list string) : Db.distinct l = true → NoDup l.
Proof.
  induction l as [|x l IH]; simpl; [constructor|].
  intros H. apply andb_true_iff in H as [Hx H]. constructor; [|by apply IH].
  intros Hin. apply negb_true_iff in Hx.
  assert (existsb (String.eqb x) l = true); [|congruence].
  apply existsb_exists. exists x. split; [by apply list_elem_of_In|apply String.eqb_refl].
Qed.

(** What [hashPassword] returns, when it returns. *)
Lemma hashPassword_returns (data data' : JS.object) (db db' : Db.t) :
  hashPassword data db = (inr data', db') →
  db' = db ∧ JS.keys data' = JS.keys data ∧
  if truthy (JS.prop data "password")
  then ∃ hashed, bcrypt_hash (JS.prop data "password") BCRYPT_WORK_FACTOR = Some hashed ∧
                 data' = JS.assign data "password" hashed
  else data' = data.
Proof.
  unfold hashPassword, bind, hash.
  destruct (truthy (JS.prop data "password")) eqn:Ht.
  - destruct (bcrypt_hash _ _) as [h|]; [|done]. intros [= <- <-].
    split; [done|]. split; [by apply assign_keys|]. by exists h.
  - by intros [= <- <-].
Qed.

(** **** Assignments to a row *)

Lemma set_column_same (col : string) (v : value) (r r' : Db.userRow) :
  Db.set_column col v r = Some r' → Db.column col r' = Some v.
Proof.
  unfold Db.set_column, Db.column.
  repeat (case_match; try done); intros; simplify_eq; done.
Qed.

Lemma set_column_other (col col' : string) (v : value) (r r' : Db.userRow) :
  col' ≠ col → Db.set_column col v r = Some r' → Db.column col' r' = Db.column col' r.
Proof.
  intros Hne. unfold Db.set_column, Db.column.
  destruct (String.eqb col "username") eqn:E1.
  { apply String.eqb_eq in E1 as ->. apply String.eqb_neq in Hne. rewrite Hne.
    destruct v; try done. by intros [= <-]. }
  destruct (String.eqb col "password") eqn:E2.
  { apply String.eqb_eq in E2 as ->. intros [= <-]. simpl.
    apply String.eqb_neq in Hne. by rewrite Hne. }
  destruct (String.eqb col "first_name") eqn:E3.
  { apply String.eqb_eq in E3 as ->. intros [= <-]. simpl.
    apply String.eqb_neq in Hne. by rewrite Hne. }
  destruct (String.eqb col "last_name") eqn:E4.
  { apply String.eqb_eq in E4 as ->. intros [= <-]. simpl.
    apply String.eqb_neq in Hne. by rewrite Hne. }
  destruct (String.eqb col "email") eqn:E5.
  { apply String.eqb_eq in E5 as ->. intros [= <-]. simpl.
    apply String.eqb_neq in Hne. by rewrite Hne. }
  destruct (String.eqb col "is_admin") eqn:E6; [|done].
  apply String.eqb_eq in E6 as ->. intros [= <-]. simpl.
  apply String.eqb_neq in Hne. by rewrite Hne.
Qed.

Lemma set_columns_other (sets : list (string * value)) (col : string) (r r' : Db.userRow) :
  col ∉ sets.*1 → Db.set_columns sets r = Some r' → Db.column col r' = Db.column col r.
Proof.
  revert r. induction sets as [|[c v] sets IH]; intros r; simpl; [by intros _ [= <-]|].
  rewrite not_elem_of_cons. intros [Hne Hout].
  destruct (Db.set_column c v r) as [r1|] eqn:Hset; [|done]. intros Hrest.
  rewrite (IH _ Hout Hrest). by apply (set_column_other c col v r r1).
Qed.

Lemma set_columns_assigned (sets : list (string * value)) (col : string) (v : value)
    (r r' : Db.userRow) :
  NoDup sets.*1 → (col, v) ∈ sets → Db.set_columns sets r = Some r' →
  Db.column col r' = Some v.
Proof.
  revert r. induction sets as [|[c w] sets IH]; intros r Hnd Hin; simpl.
  { by apply not_elem_of_nil in Hin. }
  simpl in Hnd. apply NoDup_cons in Hnd as [Hc Hnd].
  destruct (Db.set_column c w r) as [r1|] eqn:Hset; [|done]. intros Hrest.
  apply elem_of_cons in Hin as [[= -> ->]|Hin].
  - rewrite (set_columns_other _ _ _ _ Hc Hrest). by apply (set_column_same c w r).
  - by apply (IH r1).
Qed.

Lemma column_username (r r' : Db.userRow) :
  Db.column "username" r' = Db.column "username" r → Db.username r' = Db.username r.
Proof. unfold Db.column. simpl. by intros [= ->]. Qed.

(** **** The values the store takes *)

Lemma column_values_columns (l sets : list (string * value)) :
  Db.column_values catalog l = Some sets → sets.*1 = l.*1.
Proof.
  revert sets. induction l as [|[c v] l IH]; intros sets; simpl; [by intros [= <-]|].
  destruct (Db.column_value catalog c v) as [v'|]; [|done].
  destruct (Db.column_values catalog l) as [rest|]; [|done].
  intros [= <-]. simpl. f_equal. by apply IH.
Qed.

Lemma column_values_elem (l sets : list (string * value)) (col : string) (v : value) :
  Db.column_values catalog l = Some sets → (col, v) ∈ l →
  ∃ v', Db.column_value catalog col v = Some v' ∧ (col, v') ∈ sets.
Proof.
  revert sets. induction l as [|[c w] l IH]; intros sets; simpl.
  { intros _ Hin. by apply not_elem_of_nil in Hin. }
  destruct (Db.column_value catalog c w) as [w'|] eqn:Hw; [|done].
  destruct (Db.column_values catalog l) as [rest|]; [|done].
  intros [= <-] Hin. apply elem_of_cons in Hin as [[= -> ->]|Hin].
  - exists w'. split; [done|left].
  - destruct (IH rest eq_refl Hin) as (v' & Hv & Hin'). exists v'. split; [done|by right].
Qed.

Lemma zip_keys_values (f : string → string) (o : JS.object) :
  zip (map f (JS.keys o)) (JS.values o) = map (λ kv, (f kv.1, kv.2)) o.
Proof.
  unfold JS.keys, JS.values. induction o as [|[k v] o IH]; simpl; [done|].
  f_equal. exact IH.
Qed.

(** **** The update of a stored user *)

Lemma filter_changed (P : Db.userRow → bool) (f : Db.userRow → Db.userRow)
    (rs : list Db.userRow) :
  (∀ r, P r = true → P (f r) = true) →
  filter (λ r, P r) (map (λ r, if P r then f r else r) rs)
  = map f (filter (λ r, P r) rs).
Proof.
  intros Hf. induction rs as [|r rs IH]; simpl; [done|].
  destruct (P r) eqn:Hr.
  - rewrite !filter_cons_True by (apply Is_true_true; by rewrite ?Hf).
    simpl. f_equal. exact IH.
  - rewrite !filter_cons_False by (rewrite Hr; exact id). exact IH.
Qed.

Lemma only_row (username : string) (r0 r : Db.userRow) (db : Db.t) :
  filter (λ r, Db.has_username username r) (Db.users db) = [r0] →
  r ∈ Db.users db → Db.has_username username r = true → r = r0.
Proof.
  intros Hf Hin Hr.
  assert (H : r ∈ filter (λ r, Db.has_username username r) (Db.users db)).
  { apply list_elem_of_filter. split; [by rewrite Hr|done]. }
  rewrite Hf in H. by apply list_elem_of_singleton in H.
Qed.

Lemma only_row_stored (username : string) (r0 : Db.userRow) (db : Db.t) :
  filter (λ r, Db.has_username username r) (Db.users db) = [r0] →
  r0 ∈ Db.users db ∧ Db.username r0 = username.
Proof.
  intros Hf.
  assert (H : r0 ∈ filter (λ r, Db.has_username username r) (Db.users db))
    by (rewrite Hf; left).
  apply list_elem_of_filter in H as [Hr Hin]. split; [done|].
  by apply String.eqb_eq, Is_true_true.
Qed.

(** What [update] does when the store runs its statement on the one row
    of the username: the row is rewritten by the assignments, and
    returned. *)
Lemma update_stored (username : string) (data data' : JS.object)
    (sets : list (string * value)) (r0 r' : Db.userRow) (db : Db.t) :
  data ≠ [] →
  hashPassword data db = (inr data', db) →
  forallb Db.is_column (map (columnName userJsToSql) (JS.keys data)) = true →
  Db.distinct (map (columnName userJsToSql) (JS.keys data)) = true →
  ("username" ∉ JS.keys data) →
  Db.column_values catalog (map (λ kv, (columnName userJsToSql kv.1, kv.2)) data')
    = Some sets →
  filter (λ r, Db.has_username username r) (Db.users db) = [r0] →
  Db.set_columns sets r0 = Some r' →
  Db.row_ok catalog r' = true →
  update username data db =
    (inr (JObj (Db.user_object r')),
     {| Db.users := map (λ r, if Db.has_username username r then r' else r) (Db.users db);
        Db.jobs := Db.jobs db; Db.applications := Db.applications db |}).
Proof.
  intros Hne Hhash Hcols Hdist Hnu Hvals Hrow Hset Hok.
  destruct (hashPassword_returns _ _ _ _ Hhash) as (_ & Hkeys & _).
  pose proof (keys_nonempty _ _ Hkeys Hne) as Hne'.
  rewrite <- Hkeys in Hcols, Hdist.
  assert (Hno : "username" ∉ map (columnName userJsToSql) (JS.keys data')).
  { rewrite Hkeys. intros Hin. apply list_elem_of_fmap in Hin as (k & Hk & Hin).
    symmetry in Hk. apply columnName_user in Hk; [by subst|done..]. }
  destruct (updateStatement username data') as [e|stmt] eqn:Hstmt.
  { exfalso. apply Hne'. apply (sqlForPartialUpdate_fails_iff data' userJsToSql).
    unfold updateStatement in Hstmt.
    destruct (sqlForPartialUpdate data' userJsToSql); [eauto|done]. }
  destruct (updateStatement_generated _ _ _ Hstmt) as [_ ->].
  unfold update, bind at 1. rewrite Hhash. unfold bind at 1, lift. rewrite Hstmt.
  unfold sendUpdate, bind, execute. cbn [fst snd].
  rewrite update_users_generated;
    [|by destruct data'|by apply columns_plain
     |by rewrite values_length, length_map, keys_length].
  rewrite (targets_checked [] _ Hcols Hdist) by (intros ? _; apply not_elem_of_nil).
  unfold Db.run_update. cbv zeta.
  rewrite zip_keys_values, Hvals. cbn [Db.text].
  rewrite Hrow. cbn [Db.rewrite_rows]. rewrite Hset. cbn [forallb].
  rewrite Hok. cbn [andb negb].
  assert (Hu : bool_decide
                 ("username" ∈ (map (λ kv, (columnName userJsToSql kv.1, kv.2)) data').*1)
               = false).
  { apply bool_decide_eq_false. rewrite <- zip_keys_values.
    rewrite fst_zip by (rewrite values_length, length_map, keys_length; lia). done. }
  rewrite Hu. cbn [andb map]. f_equal. f_equal.
  apply map_ext_in. intros r Hin. apply list_elem_of_In in Hin.
  destruct (Db.has_username username r) eqn:Hr; [|done].
  by rewrite (only_row _ _ _ _ Hrow Hin Hr), Hset.
Qed.

(** X7: an update of a stored user, with a non-empty field map that does
    not assign the username, whose fields are columns of the table, each
    assigned once, and whose values the store takes, rewrites the row of
    that username by the assignments and returns its five public
    columns, without a password. Every column of a field holds what the
    store makes of the value of the field, every other column is what it
    was. A [get] of the same username afterwards returns the same columns
    followed by [josb]; rows of other usernames are not touched. *)
Theorem update_then_get (username : string) (data data' : JS.object)
    (sets : list (string * value)) (r0 r' : Db.userRow) (db : Db.t) :
  data ≠ [] →
  hashPassword data db = (inr data', db) →
  forallb Db.is_column (map (columnName userJsToSql) (JS.keys data)) = true →
  Db.distinct (map (columnName userJsToSql) (JS.keys data)) = true →
  ("username" ∉ JS.keys data) →
  Db.column_values catalog (map (λ kv, (columnName userJsToSql kv.1, kv.2)) data')
    = Some sets →
  filter (λ r, Db.has_username username r) (Db.users db) = [r0] →
  Db.set_columns sets r0 = Some r' →
  Db.row_ok catalog r' = true →
  ∃ db' : Db.t,
    update username data db = (inr (JObj (Db.user_object r')), db') ∧
    Db.username r' = username ∧ r' ∈ Db.users db' ∧
    JS.prop (Db.user_object r') "password" = JUndefined ∧
    (∀ key v, (key, v) ∈ data' →
       ∃ v', Db.column_value catalog (columnName userJsToSql key) v = Some v' ∧
             Db.column (columnName userJsToSql key) r' = Some v') ∧
    (∀ col, col ∉ map (columnName userJsToSql) (JS.keys data) →
       Db.column col r' = Db.column col r0) ∧
    get username db' =
      (inr (JObj (Db.user_object r' ++ [("josb", JUndefined)])%list), db') ∧
    (∀ r, Db.username r ≠ username → r ∈ Db.users db' ↔ r ∈ Db.users db) ∧
    Db.jobs db' = Db.jobs db ∧ Db.applications db' = Db.applications db.
Proof.
  intros Hne Hhash Hcols Hdist Hnu Hvals Hrow Hset Hok.
  destruct (hashPassword_returns _ _ _ _ Hhash) as (_ & Hkeys & _).
  destruct (only_row_stored _ _ _ Hrow) as [Hin0 Hu0].
  pose proof (column_values_columns _ _ Hvals) as Hsets.
  rewrite <- zip_keys_values in Hsets.
  rewrite fst_zip in Hsets by (rewrite values_length, length_map, keys_length; lia).
  rewrite Hkeys in Hsets.
  assert (Hno : "username" ∉ sets.*1).
  { rewrite Hsets. intros Hin. apply list_elem_of_fmap in Hin as (k & Hk & Hin).
    symmetry in Hk. apply columnName_user in Hk; [by subst|done..]. }
  assert (Hname : Db.username r' = username).
  { rewrite <- Hu0. apply column_username. by apply (set_columns_other sets). }
  eexists. split; [by apply (update_stored username data data' sets r0 r')|].
  split; [done|]. cbn [Db.users Db.jobs Db.applications].
  split.
  { apply list_elem_of_fmap. exists r0. split; [|done].
    by rewrite (proj2 (has_username_true username r0) Hu0). }
  split; [done|]. split.
  { intros key v Hin.
    destruct (column_values_elem _ sets (columnName userJsToSql key) v Hvals)
      as (v' & Hv & Hin').
    { apply list_elem_of_fmap. by exists (key, v). }
    exists v'. split; [done|].
    apply (set_columns_assigned sets _ _ r0); [|done..].
    rewrite Hsets. by apply distinct_NoDup. }
  split.
  { intros col Hout. apply (set_columns_other sets); [|done]. by rewrite Hsets. }
  split.
  { unfold get, bind, reading, Db.select_users. cbn [Db.users].
    rewrite (filter_changed (Db.has_username username) (λ _, r')).
    - rewrite Hrow. simpl. by rewrite Hname.
    - intros r Hr. by apply has_username_true. }
  split; [|done].
  intros r Hr. rewrite list_elem_of_fmap. split.
  - intros (x & -> & Hx). destruct (Db.has_username username x) eqn:Hux; [|done].
    by destruct Hr.
  - intros Hin. exists r. split; [|done].
    destruct (Db.has_username username r) eqn:Hur; [|done].
    by apply has_username_true in Hur.
Qed.

Lemma assign_elem (o : JS.object) (k : string) (v : value) :
  truthy (JS.prop o k) = true → inherited k = JUndefined → (k, v) ∈ JS.assign o k v.
Proof.
  intros Ht Hk. induction o as [|[k' v'] o IH]; simpl in *.
  { by rewrite Hk in Ht. }
  destruct (String.eqb k' k) eqn:Heq; [left|right; by apply IH].
Qed.

(** X8: when the field map of such an update carries a password, what
    is written to the store is the hash the library returned for it, as
    the password column takes it, and never the password given: the
    rewritten row has that password, so has every row of that username
    after the update, and the returned record has no password at all. *)
Theorem update_stores_hash (username : string) (data data' : JS.object) (hashed : value)
    (sets : list (string * value)) (r0 r' : Db.userRow) (db : Db.t) :
  truthy (JS.prop data "password") = true →
  bcrypt_hash (JS.prop data "password") BCRYPT_WORK_FACTOR = Some hashed →
  hashPassword data db = (inr data', db) →
  forallb Db.is_column (map (columnName userJsToSql) (JS.keys data)) = true →
  Db.distinct (map (columnName userJsToSql) (JS.keys data)) = true →
  ("username" ∉ JS.keys data) →
  Db.column_values catalog (map (λ kv, (columnName userJsToSql kv.1, kv.2)) data')
    = Some sets →
  filter (λ r, Db.has_username username r) (Db.users db) = [r0] →
  Db.set_columns sets r0 = Some r' →
  Db.row_ok catalog r' = true →
  ∃ (stored_hash : value) (db' : Db.t),
    data' = JS.assign data "password" hashed ∧
    Db.column_value catalog "password" hashed = Some stored_hash ∧
    update username data db = (inr (JObj (Db.user_object r')), db') ∧
    Db.password r' = stored_hash ∧
    JS.prop (Db.user_object r') "password" = JUndefined ∧
    ∀ r, r ∈ Db.users db' → Db.username r = username → Db.password r = stored_hash.
Proof.
  intros Ht Hh Hhash Hcols Hdist Hnu Hvals Hrow Hset Hok.
  assert (Hne : data ≠ []) by (intros ->; done).
  destruct (hashPassword_returns _ _ _ _ Hhash) as (_ & Hkeys & Hdata).
  rewrite Ht in Hdata. destruct Hdata as (h & Hh' & Hdata).
  assert (h = hashed) as -> by congruence.
  pose proof (column_values_columns _ _ Hvals) as Hsets.
  rewrite <- zip_keys_values in Hsets.
  rewrite fst_zip in Hsets by (rewrite values_length, length_map, keys_length; lia).
  rewrite Hkeys in Hsets.
  destruct (column_values_elem _ sets "password" hashed Hvals) as (v' & Hv & Hin).
  { apply list_elem_of_fmap. exists ("password", hashed). split; [done|].
    rewrite Hdata. by apply assign_elem. }
  assert (Hpw : Db.password r' = v').
  { assert (Hc : Db.column "password" r' = Some v').
    { apply (set_columns_assigned sets _ _ r0); [|done..].
      rewrite Hsets. by apply distinct_NoDup. }
    unfold Db.column in Hc. simpl in Hc. by injection Hc. }
  exists v'. eexists. split; [done|]. split; [done|].
  split; [by apply (update_stored username data data' sets r0 r')|].
  split; [done|]. split; [done|]. cbn [Db.users].
  intros r Hr Hname. apply list_elem_of_fmap in Hr as (x & -> & Hx).
  destruct (Db.has_username username x) eqn:Hux; [done|].
  apply has_username_true in Hname. congruence.
Qed.


(** *** findAll *)

Lemma insert_sorted_perm (r : Db.userRow) (rs : list Db.userRow) :
  Db.insert_sorted catalog r rs ≡ₚ r :: rs.
Proof.
  induction rs as [|r' rs IH]; simpl; [done|].
  destruct (Db.collation_le catalog (Db.username r) (Db.username r')); [done|].
  rewrite IH. apply Permutation_swap.
Qed.

Lemma order_by_username_perm (rs : list Db.userRow) :
  Db.order_by_username catalog rs ≡ₚ rs.
Proof.
  unfold Db.order_by_username. induction rs as [|r rs IH]; simpl; [done|].
  by rewrite insert_sorted_perm, IH.
Qed.

Lemma insert_sorted_HdRel (r0 r : Db.userRow) (rs : list Db.userRow) :
  by_username r0 r → HdRel by_username r0 rs →
  HdRel by_username r0 (Db.insert_sorted catalog r rs).
Proof.
  intros Hr Hrs. destruct rs as [|r' rs]; simpl; [by constructor|].
  destruct (Db.collation_le catalog (Db.username r) (Db.username r')); constructor; [done|].
  by inversion Hrs.
Qed.

Section Collation.

(** Two usernames are comparable, one way or the other. *)
Hypothesis collation_total :
  ∀ a b, Db.collation_le catalog a b = true ∨ Db.collation_le catalog b a = true.

Lemma insert_sorted_Sorted (r : Db.userRow) (rs : list Db.userRow) :
  Sorted by_username rs → Sorted by_username (Db.insert_sorted catalog r rs).
Proof.
  induction 1 as [|r' rs Hs IH Hhd]; simpl; [by repeat constructor|].
  destruct (Db.collation_le catalog (Db.username r) (Db.username r')) eqn:Hle.
  - constructor; [by constructor|]. by constructor.
  - constructor; [done|]. apply insert_sorted_HdRel; [|done].
    unfold by_username.
    destruct (collation_total (Db.username r) (Db.username r')); congruence.
Qed.

Lemma order_by_username_Sorted (rs : list Db.userRow) :
  Sorted by_username (Db.order_by_username catalog rs).
Proof.
  unfold Db.order_by_username. induction rs as [|r rs IH]; simpl; [constructor|].
  by apply insert_sorted_Sorted.
Qed.

End Collation.

(** X9: [findAll] never writes, and returns one record per stored row,
    each with the five public columns and no password. The rows are
    taken in the order of the collation of the database: when that
    compares any two usernames, each record is followed by one that is
    not before it. *)
Theorem findAll_sorted (db : Db.t) :
  (∀ a b, Db.collation_le catalog a b = true ∨ Db.collation_le catalog b a = true) →
  ∃ rows : list Db.userRow,
    findAll db = (inr (JArr (map (λ r, JObj (Db.user_object r)) rows)), db) ∧
    rows ≡ₚ Db.users db ∧
    Sorted by_username rows ∧
    ∀ r, JS.prop (Db.user_object r) "password" = JUndefined.
Proof.
  intros Htotal. exists (Db.order_by_username catalog (Db.users db)).
  split; [|split; [apply order_by_username_perm
                  |split; [by apply order_by_username_Sorted|done]]].
  unfold findAll, bind, reading, ret. by rewrite map_map.
Qed.

(** *** authenticate *)

(** X10: [authenticate] never writes. It succeeds only for a stored row
    of that username whose stored password the library matches with the
    one given, and then returns the five public columns of the row without
    the password. Every other outcome is the one UnauthorizedError
    [Invalid username/password], the same for an unknown username and for
    a wrong password, or what the library threw. *)
Theorem authenticate_outcomes (username : string) (password : value) (db : Db.t) :
  (authenticate username password db).2 = db ∧
  (∀ user, (authenticate username password db).1 = inr user →
     ∃ r, r ∈ Db.users db ∧ Db.username r = username ∧
       bcrypt_compare password (Db.password r) = Some true ∧
       user = JObj (Db.user_object r) ∧
       JS.prop (Db.user_object r) "password" = JUndefined) ∧
  (¬ stored username db →
     (authenticate username password db).1
       = inl (UnauthorizedError (JStr "Invalid username/password"))) ∧
  (∀ r, r ∈ Db.users db → Db.username r = username →
     (∀ r', r' ∈ Db.users db → Db.username r' = username →
        bcrypt_compare password (Db.password r') = Some false) →
     (authenticate username password db).1
       = inl (UnauthorizedError (JStr "Invalid username/password"))) ∧
  (∀ e, (authenticate username password db).1 = inl e →
     e = UnauthorizedError (JStr "Invalid username/password") ∨ e = OtherError "bcrypt").
Proof.
  unfold authenticate, bind, reading.
  destruct (stored_dec username db) as [Hs|Hno].
  - destruct (select_users_cons Db.credentials_object username db Hs)
      as (r & rows & Hin & Hr & Hsel).
    rewrite Hsel. simpl.
    destruct (bcrypt_compare password (Db.password r)) as [[|]|] eqn:Hc; simpl.
    + split; [done|]. split; [|split; [done|split; [|by intros e [=]]]].
      * intros user [= <-]. exists r. by rewrite Hr.
      * intros r1 Hin1 Hr1 Hall. specialize (Hall r Hin Hr). congruence.
    + split; [done|]. split; [by intros user [=]|]. split; [done|].
      split; [done|]. intros e [= <-]. by left.
    + split; [done|]. split; [by intros user [=]|]. split; [done|].
      split; [|intros e [= <-]; by right].
      intros r1 Hin1 Hr1 Hall. specialize (Hall r Hin Hr). congruence.
  - rewrite (proj2 (select_users_nil Db.credentials_object username db) Hno). simpl.
    split; [done|]. split; [by intros user [=]|]. split; [done|].
    split; [done|]. intros e [= <-]. by left.
Qed.

(** ** Further properties of the routes *)

Lemma register_not_unauthorized (body : JS.object) (db : Db.t) :
  ¬ unauthorized (register body db).1.
Proof.
  intros [msg H]. unfold register in H. run_monad.
  repeat (case_match; simplify_eq/=).
  match goal with H : Db.insert_user _ _ _ = inl _ |- _ =>
    apply insert_user_error in H as [? ?] end. simplify_eq.
Qed.

Lemma administrator_check (currentUser : Token.payload) :
  negb (Token.isAdmin currentUser) = false ↔ administrator (Some currentUser).
Proof.
  unfold administrator. split.
  - intros H. exists currentUser. split; [done|]. by apply negb_false_iff.
  - intros (u & [= <-] & ->). done.
Qed.

Lemma administrator_dec (locals_user : option Token.payload) :
  administrator locals_user ∨ ¬ administrator locals_user.
Proof.
  destruct locals_user as [u|]; [|right; by intros (u & [=] & _)].
  destruct (Token.isAdmin u) eqn:Ha.
  - left. by exists u.
  - right. intros (u' & [= <-] & H). congruence.
Qed.

Lemma users_admin_allowed (locals_user : option Token.payload) (body : JS.object)
    (db : Db.t) :
  administrator locals_user →
  users_get locals_user db
    = (await users <- findAll; ret (Json 200 (JObj [("users", users)]))) db ∧
  (userNewSchema body = [] →
   users_post locals_user body db
     = (await user <- register body;
        ret (Json 201 (JObj [("user", user); ("token", createToken user)]))) db) ∧
  ¬ unauthorized (users_post locals_user body db).1.
Proof.
  intros (u & -> & Ha). unfold users_get, users_post, bind, lift. simpl.
  rewrite Ha. simpl. split; [done|]. split; [by intros ->|].
  intros [msg H]. destruct (userNewSchema body); [|by run_monad].
  pose proof (register_not_unauthorized body db) as Hr.
  destruct (register body db) as [[e|usr] db'] eqn:Hreg; simpl in *; [|done].
  destruct Hr. exists msg. congruence.
Qed.

Lemma users_admin_denied (locals_user : option Token.payload) (body : JS.object)
    (db : Db.t) :
  ¬ administrator locals_user →
  (∃ message, users_get locals_user db = (inl (UnauthorizedError message), db)) ∧
  (∃ message, users_post locals_user body db = (inl (UnauthorizedError message), db)).
Proof.
  intros Hno. destruct locals_user as [u|]; [|split; eexists; reflexivity].
  rewrite <- administrator_check in Hno. apply not_false_is_true in Hno.
  unfold users_get, users_post, bind, lift, throw. simpl. rewrite Hno.
  split; eexists; reflexivity.
Qed.

(** X11: the two administrator-only handlers of routes/users.js (list
    users, create user) answer UnauthorizedError exactly when the identity
    is anonymous or not an administrator, and then leave the store as it
    was. For an administrator the first is the listing of [findAll]; the
    second, on a body the validator accepts, is [register] followed by the
    answer 201 with the user and a token made from it. *)
Theorem users_admin_only (locals_user : option Token.payload) (body : JS.object)
    (db : Db.t) :
  (administrator locals_user ↔ ¬ unauthorized (users_get locals_user db).1) ∧
  (administrator locals_user ↔ ¬ unauthorized (users_post locals_user body db).1) ∧
  (administrator locals_user →
     users_get locals_user db
       = (await users <- findAll; ret (Json 200 (JObj [("users", users)]))) db ∧
     (userNewSchema body = [] →
      users_post locals_user body db
        = (await user <- register body;
           ret (Json 201 (JObj [("user", user); ("token", createToken user)]))) db)) ∧
  (¬ administrator locals_user →
     (∃ message, users_get locals_user db = (inl (UnauthorizedError message), db)) ∧
     (∃ message, users_post locals_user body db = (inl (UnauthorizedError message), db))).
Proof.
  split; [|split; [|split; [|apply users_admin_denied]]].
  - split.
    + intros Ha. destruct (users_admin_allowed _ body db Ha) as [-> _].
      intros [msg H]. unfold findAll in H. run_monad. discriminate.
    + intros H. destruct (administrator_dec locals_user) as [|Hno]; [done|].
      destruct (users_admin_denied _ body db Hno) as [[msg Hg] _].
      destruct H. exists msg. by rewrite Hg.
  - split.
    + intros Ha. by destruct (users_admin_allowed _ body db Ha) as (_ & _ & ?).
    + intros H. destruct (administrator_dec locals_user) as [|Hno]; [done|].
      destruct (users_admin_denied _ body db Hno) as [_ [msg Hp]].
      destruct H. exists msg. by rewrite Hp.
  - intros Ha. destruct (users_admin_allowed _ body db Ha) as (? & ? & _). done.
Qed.

Lemma companies_allowed (op : adminOnly) (locals_user : option Token.payload)
    (db : Db.t) :
  administrator locals_user → handle_company op locals_user db = proceed_company op db.
Proof.
  intros (u & -> & Ha). destruct op; simpl;
    unfold companies_post, companies_patch_handle, companies_delete_handle,
      bind, lift; simpl; by rewrite Ha.
Qed.

(** X12: a body that the validator rejects is answered by POST /companies
    and PATCH /companies/:handle, for an administrator, with
    BadRequestError carrying all of the validator's messages; the company
    model is not called and the store is left as it was. *)
Theorem invalid_body_refused (locals_user : option Token.payload) (handle : string)
    (body : JS.object) (db : Db.t) :
  administrator locals_user →
  (companyNewSchema body ≠ [] →
     companies_post locals_user body db
       = (inl (BadRequestError (JArr (map JStr (companyNewSchema body)))), db)) ∧
  (companyUpdateSchema body ≠ [] →
     companies_patch_handle locals_user handle body db
       = (inl (BadRequestError (JArr (map JStr (companyUpdateSchema body)))), db)).
Proof.
  intros Ha. split; intros Herr.
  - pose proof (companies_allowed (CreateCompany body) _ db Ha) as H. simpl in H.
    rewrite H. destruct (companyNewSchema body); [by destruct Herr|reflexivity].
  - pose proof (companies_allowed (PatchCompany handle body) _ db Ha) as H. simpl in H.
    rewrite H. destruct (companyUpdateSchema body); [by destruct Herr|reflexivity].
Qed.

(** X13: the three administrator-only handlers of routes/companies.js
    (create, patch, delete) let an administrator through to the
    validation and the company model, and answer every other identity,
    the anonymous one included, with UnauthorizedError, leaving the store
    as it was: the company model is not called. *)
Theorem companies_admin_only (op : adminOnly) (locals_user : option Token.payload)
    (db : Db.t) :
  (administrator locals_user → handle_company op locals_user db = proceed_company op db) ∧
  (¬ administrator locals_user →
     unauthorized (handle_company op locals_user db).1 ∧
     (handle_company op locals_user db).2 = db).
Proof.
  split; [apply companies_allowed|].
  - intros Hno. destruct locals_user as [u|].
    + rewrite <- administrator_check in Hno. apply not_false_is_true in Hno.
      destruct op; simpl;
        unfold companies_post, companies_patch_handle, companies_delete_handle,
          bind, lift, throw; simpl; rewrite Hno;
        (split; [eexists; reflexivity|reflexivity]).
    + destruct op; (split; [eexists; reflexivity|reflexivity]).
Qed.

(** X15: POST /users by an administrator, with a body the validator
    accepts, a username that is not stored, a password the hashing
    library accepts and values of which the store makes a row of that
    username, answers 201 with the five public columns of that row (no
    password among them) and the token made from them; afterwards the
    same administrator reads the new user with GET /users/:username. When
    the store makes no row of the values, the answer is what the store
    threw, and nothing is stored. *)
Theorem users_post_creates (locals_user : option Token.payload) (body : JS.object)
    (hashed : value) (db : Db.t) :
  administrator locals_user → userNewSchema body = [] →
  ¬ stored (to_string (JS.prop body "username")) db →
  bcrypt_hash (JS.prop body "password") BCRYPT_WORK_FACTOR = Some hashed →
  (∀ r : Db.userRow,
     Db.make_row catalog
       [JS.prop body "username"; hashed; JS.prop body "firstName";
        JS.prop body "lastName"; JS.prop body "email"; JS.prop body "isAdmin"] = inr r →
     Db.username r = to_string (JS.prop body "username") →
     ∃ db',
       users_post locals_user body db =
         (inr (Json 201
                 (JObj [("user", JObj (Db.user_object r));
                        ("token", createToken (JObj (Db.user_object r)))])),
          db') ∧
       JS.prop (Db.user_object r) "password" = JUndefined ∧
       stored (to_string (JS.prop body "username")) db' ∧
       users_get_username locals_user (to_string (JS.prop body "username")) db' =
         (inr (Json 200
                 (JObj [("user", JObj (Db.user_object r
                                         ++ [("josb", JUndefined)])%list)])), db')) ∧
  (∀ e : error,
     Db.make_row catalog
       [JS.prop body "username"; hashed; JS.prop body "firstName";
        JS.prop body "lastName"; JS.prop body "email"; JS.prop body "isAdmin"] = inl e →
     users_post locals_user body db = (inl e, db)).
Proof.
  intros Ha Hv Hno Hh.
  destruct (users_admin_allowed _ body db Ha) as (_ & Hpost & _).
  split.
  - intros r Hrow Hname. eexists. split; [|split; [done|split]].
    + rewrite (Hpost Hv). unfold bind.
      rewrite (register_fresh body hashed r db Hno Hh Hrow Hname). reflexivity.
    + apply (stored_snoc _ r db); [done|by right].
    + assert (Hok : ownerOrAdmin locals_user (to_string (JS.prop body "username"))).
      { destruct Ha as (u & -> & Hu). exists u. auto. }
      pose proof (handle_allowed GetUser _ _
        {| Db.users := (Db.users db ++ [r])%list;
           Db.jobs := Db.jobs db; Db.applications := Db.applications db |} Hok) as H.
      simpl in H. rewrite H. unfold bind. rewrite <- Hname.
      rewrite (get_registered r db); [done|by rewrite Hname].
  - intros e Hrow. rewrite (Hpost Hv). unfold bind.
    by rewrite (register_refused body hashed e db Hno Hh Hrow).
Qed.

(** X16: [update] hashes the password only when it is truthy. With a
    field map whose password is absent or falsy (the empty string, for
    one) the hashing library is not consulted, and the values bound to the
    statement are exactly the values given, followed by the username. *)
Theorem update_falsy_password_unhashed (username : string) (data : JS.object) (db : Db.t) :
  data ≠ [] → truthy (JS.prop data "password") = false →
  hashPassword data db = (inr data, db) ∧
  ∃ clause,
    sqlForPartialUpdate data userJsToSql
      = inr {| setCols := clause; values := JS.values data |} ∧
    updateStatement username data
      = inr (updateSql clause ("$" +:+ pretty (length data + 1)),
             (JS.values data ++ [JStr username])%list) ∧
    update username data db =
      sendUpdate username
        (updateSql clause ("$" +:+ pretty (length data + 1)),
         (JS.values data ++ [JStr username])%list) db.
Proof.
  intros Hne Hf.
  assert (Hh : hashes data) by (intros Ht; congruence).
  assert (Hhash : hashPassword data db = (inr data, db))
    by (unfold hashPassword; by rewrite Hf).
  split; [done|].
  destruct (update_reaches_store username data db Hne Hh)
    as (data' & Hhash' & _ & Hstmt & Hupd).
  rewrite Hhash in Hhash'. injection Hhash' as <-.
  eexists. split; [by apply sqlForPartialUpdate_nonempty|]. split; [exact Hstmt|exact Hupd].
Qed.

(** ** The text of the generated statements *)

(** X14: the text that [sqlForPartialUpdate] and [update] generate
    depends on the names of the fields only: two field maps with the same
    keys give the same SET clause and the same UPDATE statement, whatever
    their values and whatever the username are. Values reach the store as
    bound parameters only. *)
Theorem statement_ignores_values (username1 username2 : string) (data1 data2 : JS.object)
    (jsToSql : gmap string value) :
  JS.keys data1 = JS.keys data2 →
  (∀ upd1, sqlForPartialUpdate data1 jsToSql = inr upd1 →
     ∃ upd2, sqlForPartialUpdate data2 jsToSql = inr upd2 ∧
       setCols upd2 = setCols upd1 ∧ values upd2 = JS.values data2) ∧
  (∀ sql bound1, updateStatement username1 data1 = inr (sql, bound1) →
     updateStatement username2 data2
       = inr (sql, (JS.values data2 ++ [JStr username2])%list)).
Proof.
  intros Hk. pose proof (keys_same_length _ _ Hk) as Hlen.
  assert (Hne : data1 ≠ [] → data2 ≠ []).
  { intros H ->. destruct data1; [done|discriminate]. }
  split.
  - intros upd1 H1.
    assert (H1' : data1 ≠ []) by (intros ->; discriminate).
    rewrite (sqlForPartialUpdate_nonempty _ _ H1') in H1. injection H1 as <-.
    eexists. split; [apply sqlForPartialUpdate_nonempty; auto|].
    cbn [setCols values]. by rewrite Hk.
  - intros sql bound1 H1. unfold updateStatement in *.
    assert (H1' : data1 ≠ []) by (intros ->; discriminate).
    rewrite (sqlForPartialUpdate_nonempty _ _ H1') in H1.
    rewrite (sqlForPartialUpdate_nonempty _ _ (Hne H1')).
    cbn [setCols values] in *. injection H1 as <- <-.
    by rewrite !values_length, Hk, Hlen.
Qed.

End Jobly.


(** ** The model on concrete requests *)

Lemma sqlForPartialUpdate_placeholders_example :
  [("firstName", JStr "Aliya"); ("age", JNum 32)] ≠ [] ∧
  ∃ upd cols,
    sqlForPartialUpdate [("firstName", JStr "Aliya"); ("age", JNum 32)]
      {[ "firstName" := JStr "first_name" ]} = inr upd ∧
    length (values upd) = 2 ∧
    setCols upd = String.concat ", " cols ∧
    length cols = 2 ∧
    cols = zip_with (fun col k => dquote +:+ col +:+ dquote +:+ "=$" +:+ pretty k)
             (map (columnName {[ "firstName" := JStr "first_name" ]})
                  ["firstName"; "age"])
             (seq 1 2) ∧
    ∀ (k : nat) (key : string) (v : value),
      [("firstName", JStr "Aliya"); ("age", JNum 32)] !! k = Some (key, v) →
      cols !! k = Some (dquote +:+ columnName {[ "firstName" := JStr "first_name" ]} key
                          +:+ dquote +:+ "=$" +:+ pretty (k + 1)) ∧
      values upd !! k = Some v.
Proof.
  split; [discriminate|].
  apply (sqlForPartialUpdate_placeholders
           [("firstName", JStr "Aliya"); ("age", JNum 32)]
           {[ "firstName" := JStr "first_name" ]}).
  discriminate.
Defined.

(** The two examples of the test suite. *)
Example sqlForPartialUpdate_test_mapping :
  sqlForPartialUpdate [("firstName", JStr "Aliya"); ("age", JNum 32)]
    {[ "firstName" := JStr "first_name" ]}
  = inr {| setCols := dquote +:+ "first_name" +:+ dquote +:+ "=$1, "
                       +:+ dquote +:+ "age" +:+ dquote +:+ "=$2";
           values := [JStr "Aliya"; JNum 32] |}.
Proof. vm_compute. reflexivity. Qed.

Example sqlForPartialUpdate_test_no_mapping :
  sqlForPartialUpdate [("firstName", JStr "Aliya"); ("age", JNum 32)] ∅
  = inr {| setCols := dquote +:+ "firstName" +:+ dquote +:+ "=$1, "
                       +:+ dquote +:+ "age" +:+ dquote +:+ "=$2";
           values := [JStr "Aliya"; JNum 32] |}.
Proof. vm_compute. reflexivity. Qed.

(** The field maps of the two tests, and one whose field is named as a
    property that every object inherits. *)
Example sqlForPartialUpdate_constructor :
  sqlForPartialUpdate [("constructor", JNum 1)] ∅
  = inr {| setCols := dquote +:+ "function Object() { [native code] }" +:+ dquote +:+ "=$1";
           values := [JNum 1] |} ∧
  sqlForPartialUpdate [("toString", JNum 1); ("__proto__", JNum 2); ("age", JNum 3)]
    userJsToSql
  = inr {| setCols := dquote +:+ "function toString() { [native code] }" +:+ dquote
                       +:+ "=$1, " +:+ dquote +:+ "[object Object]" +:+ dquote
                       +:+ "=$2, " +:+ dquote +:+ "age" +:+ dquote +:+ "=$3";
           values := [JNum 1; JNum 2; JNum 3] |}.
Proof. split; vm_compute; reflexivity. Qed.

Lemma not_stored_nope : ¬ stored "nope" Sample.store.
Proof.
  intros (r & Hin & Hr). unfold Sample.store in Hin. simpl in Hin.
  apply elem_of_cons in Hin as [->|Hin]; [discriminate|].
  apply elem_of_cons in Hin as [->|Hin]; [discriminate|].
  by apply not_elem_of_nil in Hin.
Qed.

Lemma get_never_delivers_applications_example :
  stored "u1" Sample.applied ∧
  (getUserApplications "u1" Sample.applied = (inr JUndefined, Sample.applied) ∧
   ∃ r, r ∈ Db.users Sample.applied ∧ Db.username r = "u1" ∧
     get "u1" Sample.applied =
       (inr (JObj [("username", JStr "u1"); ("firstName", Db.first_name r);
                   ("lastName", Db.last_name r); ("email", Db.email r);
                   ("isAdmin", Db.is_admin r); ("josb", JUndefined)]),
        Sample.applied) ∧
     ∀ user, (get "u1" Sample.applied).1 = inr (JObj user) →
       JS.prop user "josb" = JUndefined ∧ JS.prop user "jobs" = JUndefined).
Proof.
  split; [exists Sample.u1; split; [left|reflexivity]|].
  apply (get_never_delivers_applications "u1" Sample.applied).
  exists Sample.u1. split; [left|reflexivity].
Defined.

(** u1 has applied for job 1, and [get] still answers undefined. *)
Example get_u1_applied :
  Db.select_applications "u1" Sample.applied = [[("job_id", JNum 1)]] ∧
  get "u1" Sample.applied =
    (inr (JObj [("username", JStr "u1"); ("firstName", JStr "U1F");
                ("lastName", JStr "U1L"); ("email", JStr "user1@user.com");
                ("isAdmin", JBool false); ("josb", JUndefined)]), Sample.applied).
Proof. split; vm_compute; reflexivity. Qed.

Lemma hashes_sample :
  hashes Sample.bcrypt_hash Sample.BCRYPT_WORK_FACTOR
    [("firstName", JStr "New"); ("password", JStr "secret")].
Proof. intros _. eexists. vm_compute. reflexivity. Qed.

Lemma update_binds_username_example :
  [("firstName", JStr "New"); ("password", JStr "secret")] ≠ [] ∧
  let statement :=
    "UPDATE users 
                      SET " +:+ dquote +:+ "first_name" +:+ dquote +:+ "=$1, "
      +:+ dquote +:+ "password" +:+ dquote +:+ "=$2 
                      WHERE username = $3 
                      RETURNING username,
                                first_name AS " +:+ dquote +:+ "firstName" +:+ dquote +:+ ",
                                last_name AS " +:+ dquote +:+ "lastName" +:+ dquote +:+ ",
                                email,
                                is_admin AS " +:+ dquote +:+ "isAdmin" +:+ dquote in
  let bound := [JStr "New"; JStr "$2b$12$secret"; JStr "u1"] in
  updateStatement "u1" [("firstName", JStr "New"); ("password", JStr "$2b$12$secret")]
    = inr (statement, bound) ∧
  update Sample.catalog Sample.bcrypt_hash Sample.BCRYPT_WORK_FACTOR "u1"
      [("firstName", JStr "New"); ("password", JStr "secret")] Sample.store
    = sendUpdate Sample.catalog "u1" (statement, bound) Sample.store ∧
  Db.parse_update statement = Some ([("first_name", "1"); ("password", "2")], "3") ∧
  Db.placeholder bound "3" = Some 2 ∧
  Db.text Sample.catalog (Db.param bound 2) = Some "u1".
Proof.
  split; [discriminate|].
  destruct (update_binds_username Sample.catalog Sample.bcrypt_hash
              Sample.BCRYPT_WORK_FACTOR "u1"
              [("firstName", JStr "New"); ("password", JStr "secret")] Sample.store)
    as [[Hno _]|[_ (data' & Hhash & _ & H)]].
  - discriminate.
  - destruct Hno. apply hashes_sample.
  - injection Hhash as <-. cbv zeta in H.
    destruct H as (Hstmt & Hupd & _ & _ & _ & _ & _ & Hread).
    destruct (Hread eq_refl) as (Hparse & _ & Hkey & Htext).
    cbv zeta. split; [exact Hstmt|]. split; [exact Hupd|].
    split; [exact Hparse|]. split; [exact Hkey|exact Htext].
Defined.

(** The statement and the bound values of an update, written out, and
    what the store does with them. *)
Example update_statement_u1 :
  updateStatement "u1" [("firstName", JStr "New"); ("email", JStr "n@e.w")]
  = inr (updateSql (dquote +:+ "first_name" +:+ dquote +:+ "=$1, "
                      +:+ dquote +:+ "email" +:+ dquote +:+ "=$2") "$3",
         [JStr "New"; JStr "n@e.w"; JStr "u1"]).
Proof. vm_compute. reflexivity. Qed.

(** An update of a key that no row has, with one field: the store
    answers no row. With no field at all the builder throws before
    anything is sent. *)
Example update_nope_firstName :
  update Sample.catalog Sample.bcrypt_hash Sample.BCRYPT_WORK_FACTOR "nope"
    [("firstName", JStr "Nope")] Sample.store
  = (inl (NotFoundError (JStr "No user: nope")), Sample.store) ∧
  update Sample.catalog Sample.bcrypt_hash Sample.BCRYPT_WORK_FACTOR "nope" []
    Sample.store
  = (inl (BadRequestError (JStr "No data")), Sample.store).
Proof. split; vm_compute; reflexivity. Qed.

Lemma absent_key_not_found_example :
  ¬ stored "nope" Sample.store ∧
  Db.update_users Sample.catalog
    (updateSql (dquote +:+ "first_name" +:+ dquote +:+ "=$1") "$2")
    [JStr "Nope"; JStr "nope"] Sample.store = inr ([], Sample.store) ∧
  get "nope" Sample.store
    = (inl (NotFoundError (JStr "No user: nope")), Sample.store) ∧
  remove "nope" Sample.store
    = (inl (NotFoundError (JStr "No user: nope")), Sample.store) ∧
  update Sample.catalog Sample.bcrypt_hash Sample.BCRYPT_WORK_FACTOR "nope"
      [("firstName", JStr "Nope")] Sample.store
    = (inl (NotFoundError (JStr "No user: nope")), Sample.store) ∧
  users_get_username (Some {| Token.username := "nope"; Token.isAdmin := false |})
      "nope" Sample.store
    = (inl (NotFoundError (JStr "No user: nope")), Sample.store) ∧
  unauthorized
    (users_get_username (Some {| Token.username := "u1"; Token.isAdmin := false |})
       "nope" Sample.store).1.
Proof.
  destruct (absent_key_not_found Sample.catalog Sample.bcrypt_hash
              Sample.BCRYPT_WORK_FACTOR Sample.schema "nope" Sample.store)
    as (Hget & Hremove & Hupdate & _ & Hallowed & Hdenied).
  split; [apply not_stored_nope|]. split; [vm_compute; reflexivity|].
  split; [apply Hget; reflexivity|]. split; [apply Hremove; reflexivity|].
  split.
  - apply (Hupdate [("firstName", JStr "Nope")] [("firstName", JStr "Nope")]
             (updateSql (dquote +:+ "first_name" +:+ dquote +:+ "=$1") "$2",
              [JStr "Nope"; JStr "nope"]) Sample.store);
      vm_compute; reflexivity.
  - split.
    + destruct (Hallowed (Some {| Token.username := "nope"; Token.isAdmin := false |}))
        as (H & _ & _).
      * eexists. split; [reflexivity|]. by left.
      * apply H. reflexivity.
    + destruct (Hdenied (Some {| Token.username := "u1"; Token.isAdmin := false |}) [])
        as (H & _ & _); [|exact H].
      intros (u & [= <-] & [Hu|Hu]); discriminate.
Defined.

(** C5 (what the code does): u1 applies for job 1 and is answered;
    applying again, the INSERT is refused by the store and applyForJob
    passes the refusal on. It is neither a BadRequestError nor any other
    error class of the API. *)
Theorem applyForJob_second_application :
  applyForJob Sample.catalog "u1" (JNum 1) Sample.store
    = (inr (JObj [("applied", JNum 1)]), Sample.applied) ∧
  applyForJob Sample.catalog "u1" (JNum 1) Sample.applied
    = (inl (OtherError "duplicate key value violates unique constraint"),
       Sample.applied) ∧
  users_post_username_jobs_id Sample.catalog
      (Some {| Token.username := "u1"; Token.isAdmin := false |})
      "u1" "1" Sample.applied
    = (inl (OtherError "duplicate key value violates unique constraint"),
       Sample.applied).
Proof. repeat split; vm_compute; reflexivity. Qed.

(** The sibling path: register checks for a duplicate itself and
    answers BadRequestError. *)
Example register_duplicate :
  register Sample.catalog Sample.bcrypt_hash Sample.BCRYPT_WORK_FACTOR
    [("username", JStr "u1"); ("password", JStr "pw")] Sample.store
  = (inl (BadRequestError (JStr "Duplicate username: u1")), Sample.store).
Proof. vm_compute. reflexivity. Qed.

(** C4 at a concrete request: GET /companies?minEmployees=5&maxEmployees=1
    is answered with status 200, although 5 > 1; the same values in
    [req.params] would have been refused. *)
Example companies_get_bad_range :
  Sample.number_gt (JStr "5") (JStr "1") = true ∧
  companies_get Sample.Company_findAll Sample.number_gt
      (request_at_root Sample.bad_range) Sample.store
    = (inr (Json 200 (JObj [("companies", JArr [])])), Sample.store) ∧
  companies_get Sample.Company_findAll Sample.number_gt
      {| params := Sample.bad_range; query := ∅ |} Sample.store
    = (inl (BadRequestError (JStr "minEmployees cannot be greater than maxEmployees")),
       Sample.store).
Proof. repeat split; vm_compute; reflexivity. Qed.

(** C2 at concrete requests: u1 reads u1, u1 may not read u2, nobody
    anonymous reads anything, and u1 may not list the users. *)
Example guard_u1 :
  let u1 := Some {| Token.username := "u1"; Token.isAdmin := false |} in
  (∃ user, users_get_username u1 "u1" Sample.store
             = (inr (Json 200 (JObj [("user", user)])), Sample.store)) ∧
  users_get_username u1 "u2" Sample.store
    = (inl (UnauthorizedError (JStr "You do not have permission to view this user")),
       Sample.store) ∧
  users_get_username None "u1" Sample.store
    = (inl (UnauthorizedError (JStr "authentication required")), Sample.store) ∧
  users_get Sample.catalog u1 Sample.store
    = (inl (UnauthorizedError (JStr "Admin privileges required")), Sample.store).
Proof. repeat split; try (vm_compute; reflexivity). eexists. vm_compute. reflexivity. Qed.

(** The filter builder on the rows of the job tests. *)
Example search_hasEquity_false :
  let jobs := [Filter.Row "Job1" 50000 true; Filter.Row "Job2" 60000 true] in
  let none := Filter.FilterSpec None None None None in
  Filter.search jobs (Filter.with_flag none (Some false)) = inr jobs ∧
  Filter.search jobs none = inr jobs ∧
  Filter.buildFilter (Filter.with_flag none (Some false))
    = inr {| Filter.predicates := []; Filter.bound := [] |}.
Proof. repeat split; vm_compute; reflexivity. Qed.

(** ** The further properties on concrete requests *)

Lemma stored_u1_sample : stored "u1" Sample.store.
Proof. exists Sample.u1. split; [left|reflexivity]. Qed.

Lemma not_stored_new : ¬ stored "u-new" Sample.store.
Proof. apply (select_users_nil Db.user_object). reflexivity. Qed.



(** A body without a first name, a last name and an email: the store
    makes no row of it, and nothing is inserted. *)
Example register_incomplete :
  register Sample.catalog Sample.bcrypt_hash Sample.BCRYPT_WORK_FACTOR
    [("username", JStr "x"); ("password", JStr "pw")] Sample.store
  = (inl (OtherError "new row for relation users violates a constraint"), Sample.store).
Proof. vm_compute. reflexivity. Qed.

Lemma register_then_get_example :
  ¬ stored "u-new" Sample.store ∧
  Sample.bcrypt_hash (JStr "password-new") Sample.BCRYPT_WORK_FACTOR
    = Some (JStr "$2b$12$password-new") ∧
  Db.make_row Sample.catalog
    [JStr "u-new"; JStr "$2b$12$password-new"; JStr "First-new"; JStr "Last-new";
     JStr "new@email.com"; JBool false] = inr Sample.new_row ∧
  ∃ db',
    register Sample.catalog Sample.bcrypt_hash Sample.BCRYPT_WORK_FACTOR
        Sample.new_user Sample.store
      = (inr (JObj [("username", JStr "u-new"); ("firstName", JStr "First-new");
                    ("lastName", JStr "Last-new"); ("email", JStr "new@email.com");
                    ("isAdmin", JBool false)]), db') ∧
    get "u-new" db'
      = (inr (JObj [("username", JStr "u-new"); ("firstName", JStr "First-new");
                    ("lastName", JStr "Last-new"); ("email", JStr "new@email.com");
                    ("isAdmin", JBool false); ("josb", JUndefined)]), db') ∧
    register Sample.catalog Sample.bcrypt_hash Sample.BCRYPT_WORK_FACTOR
        Sample.new_user db'
      = (inl (BadRequestError (JStr "Duplicate username: u-new")), db').
Proof.
  split; [apply not_stored_new|]. split; [reflexivity|]. split; [reflexivity|].
  destruct (register_then_get Sample.catalog Sample.bcrypt_hash Sample.BCRYPT_WORK_FACTOR
              Sample.new_user (JStr "$2b$12$password-new") Sample.new_row Sample.store)
    as (db' & Hreg & _ & _ & _ & _ & _ & _ & Hget & Hdup).
  - apply not_stored_new.
  - reflexivity.
  - reflexivity.
  - reflexivity.
  - exists db'. split; [exact Hreg|]. split; [exact Hget|exact Hdup].
Defined.

Lemma remove_then_gone_example :
  stored "u1" Sample.store ∧
  ∃ db',
    remove "u1" Sample.store = (inr JUndefined, db') ∧
    ¬ stored "u1" db' ∧
    get "u1" db' = (inl (NotFoundError (JStr "No user: u1")), db') ∧
    (remove "u1" db').1 = inl (NotFoundError (JStr "No user: u1")).
Proof.
  split; [apply stored_u1_sample|].
  destruct (remove_then_gone "u1" Sample.store stored_u1_sample)
    as (db' & Hrem & Hgone & _ & _ & Hget & Hagain).
  exists db'. split; [exact Hrem|]. split; [exact Hgone|]. split; [exact Hget|exact Hagain].
Defined.

(** The outcomes of applyForJob on the sample store, and of the route
    on a path segment that is no number. *)
Example applyForJob_outcomes :
  applyForJob Sample.catalog "nope" (JNum 1) Sample.store
    = (inl (NotFoundError (JStr "No user: nope")), Sample.store) ∧
  applyForJob Sample.catalog "nope" (JNum 9999) Sample.store
    = (inl (NotFoundError (JStr "No user: nope")), Sample.store) ∧
  applyForJob Sample.catalog "u1" (JNum 9999) Sample.store
    = (inl (NotFoundError (JStr "No job: 9999")), Sample.store) ∧
  applyForJob Sample.catalog "u1" JNull Sample.store
    = (inl (NotFoundError (JStr "No job: null")), Sample.store) ∧
  applyForJob Sample.catalog "u1" (JNum 2147483648) Sample.store
    = (inl (OtherError "value is out of range for type integer"), Sample.store) ∧
  users_post_username_jobs_id Sample.catalog
      (Some {| Token.username := "u1"; Token.isAdmin := false |}) "u1" "abc" Sample.store
    = (inl (OtherError "invalid input syntax for type integer"), Sample.store).
Proof. repeat split; vm_compute; reflexivity. Qed.

Lemma applyForJob_records_example :
  stored "u1" Sample.store ∧ 1%Z ∈ Db.jobs Sample.store ∧
  existsb (Db.same_application "u1" 1) (Db.applications Sample.store) = false ∧
  ∃ db',
    applyForJob Sample.catalog "u1" (JNum 1) Sample.store
      = (inr (JObj [("applied", JNum 1)]), db') ∧
    Db.applications db' = [("u1", 1%Z)] ∧
    Db.select_applications "u1" db' = [[("job_id", JNum 1)]].
Proof.
  split; [apply stored_u1_sample|]. split; [left|]. split; [reflexivity|].
  destruct (applyForJob_records Sample.catalog "u1" 1 Sample.store)
    as (db' & Happ & _ & _ & Happs & Hsel).
  - apply stored_u1_sample.
  - left.
  - reflexivity.
  - exists db'. split; [exact Happ|]. split; [exact Happs|exact Hsel].
Defined.

Lemma update_then_get_example :
  [("firstName", JStr "New")] ≠ [] ∧
  ("username" ∉ JS.keys [("firstName", JStr "New")]) ∧
  Db.column_values Sample.catalog [("first_name", JStr "New")]
    = Some [("first_name", JStr "New")] ∧
  filter (λ r, Db.has_username "u1" r) (Db.users Sample.store) = [Sample.u1] ∧
  Db.set_columns [("first_name", JStr "New")] Sample.u1 = Some Sample.u1_renamed ∧
  Db.row_ok Sample.catalog Sample.u1_renamed = true ∧
  ∃ db' : Db.t,
    update Sample.catalog Sample.bcrypt_hash Sample.BCRYPT_WORK_FACTOR "u1"
        [("firstName", JStr "New")] Sample.store
      = (inr (JObj (Db.user_object Sample.u1_renamed)), db') ∧
    get "u1" db'
      = (inr (JObj (Db.user_object Sample.u1_renamed ++ [("josb", JUndefined)])%list),
         db') ∧
    (∀ r, Db.username r ≠ "u1" → r ∈ Db.users db' ↔ r ∈ Db.users Sample.store).
Proof.
  assert (Hk : "username" ∉ JS.keys [("firstName", JStr "New")]).
  { intros H. apply list_elem_of_singleton in H. discriminate H. }
  split; [discriminate|]. split; [exact Hk|]. split; [reflexivity|].
  split; [reflexivity|]. split; [reflexivity|]. split; [reflexivity|].
  destruct (update_then_get Sample.catalog Sample.bcrypt_hash Sample.BCRYPT_WORK_FACTOR
              "u1" [("firstName", JStr "New")] [("firstName", JStr "New")]
              [("first_name", JStr "New")] Sample.u1 Sample.u1_renamed Sample.store)
    as (db' & Hupd & _ & _ & _ & _ & _ & Hget & Hothers & _).
  - discriminate.
  - reflexivity.
  - reflexivity.
  - reflexivity.
  - exact Hk.
  - reflexivity.
  - reflexivity.
  - reflexivity.
  - reflexivity.
  - exists db'. split; [exact Hupd|]. split; [exact Hget|exact Hothers].
Defined.

(** That update, evaluated; and updates that the store refuses: a
    field that is no column, two fields of one column, a username that
    another row has, a value that is no boolean, a first name set to
    null, and a field with the empty name. The constraints are those of
    the rows rewritten: with a key that no row has there is none. *)
Example update_u1_firstName :
  update Sample.catalog Sample.bcrypt_hash Sample.BCRYPT_WORK_FACTOR "u1"
    [("firstName", JStr "New")] Sample.store
  = (inr (JObj [("username", JStr "u1"); ("firstName", JStr "New");
                ("lastName", JStr "U1L"); ("email", JStr "user1@user.com");
                ("isAdmin", JBool false)]),
     {| Db.users := [Sample.u1_renamed; Sample.u2];
        Db.jobs := [1%Z; 2%Z]; Db.applications := [] |}).
Proof. vm_compute. reflexivity. Qed.

Example update_u1_refused :
  let update := update Sample.catalog Sample.bcrypt_hash Sample.BCRYPT_WORK_FACTOR in
  update "u1" [("age", JNum 32)] Sample.store
    = (inl (OtherError "column does not exist"), Sample.store) ∧
  update "u1" [("firstName", JStr "a"); ("first_name", JStr "b")] Sample.store
    = (inl (OtherError "multiple assignments to same column"), Sample.store) ∧
  update "u1" [("username", JStr "u2"); ("password", JStr "pw")] Sample.store
    = (inl (OtherError "duplicate key value violates unique constraint"), Sample.store) ∧
  update "u1" [("isAdmin", JStr "maybe")] Sample.store
    = (inl (OtherError "invalid input syntax"), Sample.store) ∧
  update "u1" [("firstName", JNull)] Sample.store
    = (inl (OtherError "new row for relation users violates a constraint"), Sample.store) ∧
  update "u1" [(EmptyString, JStr "x")] Sample.store
    = (inl (OtherError "syntax error"), Sample.store) ∧
  update "nope" [("firstName", JNull)] Sample.store
    = (inl (NotFoundError (JStr "No user: nope")), Sample.store).
Proof. repeat split; vm_compute; reflexivity. Qed.

Lemma update_stores_hash_example :
  truthy (JS.prop [("firstName", JStr "New"); ("password", JStr "secret")] "password")
    = true ∧
  Sample.bcrypt_hash (JStr "secret") Sample.BCRYPT_WORK_FACTOR
    = Some (JStr "$2b$12$secret") ∧
  filter (λ r, Db.has_username "u1" r) (Db.users Sample.store) = [Sample.u1] ∧
  Db.set_columns [("first_name", JStr "New"); ("password", JStr "$2b$12$secret")] Sample.u1
    = Some Sample.u1_secret ∧
  ∃ db' : Db.t,
    update Sample.catalog Sample.bcrypt_hash Sample.BCRYPT_WORK_FACTOR "u1"
        [("firstName", JStr "New"); ("password", JStr "secret")] Sample.store
      = (inr (JObj (Db.user_object Sample.u1_secret)), db') ∧
    Db.password Sample.u1_secret = JStr "$2b$12$secret" ∧
    ∀ r, r ∈ Db.users db' → Db.username r = "u1" → Db.password r = JStr "$2b$12$secret".
Proof.
  split; [reflexivity|]. split; [reflexivity|]. split; [reflexivity|].
  split; [reflexivity|].
  destruct (update_stores_hash Sample.catalog Sample.bcrypt_hash Sample.BCRYPT_WORK_FACTOR
              "u1" [("firstName", JStr "New"); ("password", JStr "secret")]
              [("firstName", JStr "New"); ("password", JStr "$2b$12$secret")]
              (JStr "$2b$12$secret")
              [("first_name", JStr "New"); ("password", JStr "$2b$12$secret")]
              Sample.u1 Sample.u1_secret Sample.store)
    as (h & db' & _ & Hh & Hupd & Hpw & _ & Hall).
  - reflexivity.
  - reflexivity.
  - reflexivity.
  - reflexivity.
  - reflexivity.
  - intros H. apply elem_of_cons in H as [H|H]; [discriminate H|].
    apply list_elem_of_singleton in H. discriminate H.
  - reflexivity.
  - reflexivity.
  - reflexivity.
  - reflexivity.
  - injection Hh as <-. exists db'. split; [exact Hupd|]. split; [reflexivity|exact Hall].
Defined.


Lemma findAll_sorted_example :
  (∀ a b, Db.collation_le Sample.catalog a b = true
          ∨ Db.collation_le Sample.catalog b a = true) ∧
  ∃ rows : list Db.userRow,
    findAll Sample.catalog Sample.store
      = (inr (JArr (map (λ r, JObj (Db.user_object r)) rows)), Sample.store) ∧
    rows ≡ₚ Db.users Sample.store ∧
    Sorted (by_username Sample.catalog) rows.
Proof.
  split; [exact String.leb_total|].
  destruct (findAll_sorted Sample.catalog Sample.store String.leb_total)
    as (rows & Hall & Hperm & Hsorted & _).
  exists rows. split; [exact Hall|]. split; [exact Hperm|exact Hsorted].
Defined.

Lemma invalid_body_refused_example :
  administrator Sample.admin ∧
  Sample.firstName_schema [("name", JNum 42)] ≠ [] ∧
  companies_post Sample.firstName_schema Sample.Company_create Sample.admin
      [("name", JNum 42)] Sample.store
    = (inl (BadRequestError
              (JArr [JStr "instance.firstName is not of a type(s) string"])),
       Sample.store) ∧
  companies_patch_handle Sample.firstName_schema Sample.Company_update Sample.admin
      "c1" [("name", JNum 42)] Sample.store
    = (inl (BadRequestError
              (JArr [JStr "instance.firstName is not of a type(s) string"])),
       Sample.store).
Proof.
  assert (Ha : administrator Sample.admin) by (eexists; split; reflexivity).
  assert (Hbad : Sample.firstName_schema [("name", JNum 42)] ≠ []) by discriminate.
  split; [exact Ha|]. split; [exact Hbad|].
  destruct (invalid_body_refused Sample.firstName_schema Sample.firstName_schema
              Sample.Company_create Sample.Company_update Sample.Company_remove
              Sample.admin "c1"
              [("name", JNum 42)] Sample.store Ha) as [Hpost Hpatch].
  split; [exact (Hpost Hbad)|exact (Hpatch Hbad)].
Defined.

Lemma statement_ignores_values_example :
  JS.keys [("firstName", JStr "Aliya"); ("email", JStr "a@b.c")]
    = JS.keys [("firstName", JStr "Robert'); DROP TABLE users;--"); ("email", JNull)] ∧
  ∃ sql,
    updateStatement "u1" [("firstName", JStr "Aliya"); ("email", JStr "a@b.c")]
      = inr (sql, [JStr "Aliya"; JStr "a@b.c"; JStr "u1"]) ∧
    updateStatement "u2"
        [("firstName", JStr "Robert'); DROP TABLE users;--"); ("email", JNull)]
      = inr (sql, [JStr "Robert'); DROP TABLE users;--"; JNull; JStr "u2"]).
Proof.
  split; [reflexivity|].
  destruct (statement_ignores_values "u1" "u2"
              [("firstName", JStr "Aliya"); ("email", JStr "a@b.c")]
              [("firstName", JStr "Robert'); DROP TABLE users;--"); ("email", JNull)]
              userJsToSql eq_refl) as [_ Hsame].
  eexists. split; [reflexivity|].
  apply (Hsame _ [JStr "Aliya"; JStr "a@b.c"; JStr "u1"]). reflexivity.
Defined.

Lemma users_post_creates_example :
  administrator Sample.admin ∧ Sample.schema Sample.new_user = [] ∧
  ¬ stored "u-new" Sample.store ∧
  Db.make_row Sample.catalog
    [JStr "u-new"; JStr "$2b$12$password-new"; JStr "First-new"; JStr "Last-new";
     JStr "new@email.com"; JBool false] = inr Sample.new_row ∧
  ∃ db',
    users_post Sample.catalog Sample.bcrypt_hash Sample.BCRYPT_WORK_FACTOR Sample.schema
        Sample.createToken Sample.admin Sample.new_user Sample.store
      = (inr (Json 201
                (JObj [("user",
                        JObj [("username", JStr "u-new"); ("firstName", JStr "First-new");
                              ("lastName", JStr "Last-new");
                              ("email", JStr "new@email.com");
                              ("isAdmin", JBool false)]);
                       ("token", JStr "token")])), db') ∧
    stored "u-new" db'.
Proof.
  assert (Ha : administrator Sample.admin) by (eexists; split; reflexivity).
  split; [exact Ha|]. split; [reflexivity|]. split; [apply not_stored_new|].
  split; [reflexivity|].
  destruct (users_post_creates Sample.catalog Sample.bcrypt_hash Sample.BCRYPT_WORK_FACTOR
              Sample.schema Sample.schema Sample.createToken Sample.admin
              Sample.new_user (JStr "$2b$12$password-new") Sample.store
              Ha eq_refl not_stored_new eq_refl)
    as [Hmade _].
  destruct (Hmade Sample.new_row eq_refl eq_refl) as (db' & Hpost & _ & Hs & _).
  exists db'. split; [exact Hpost|exact Hs].
Defined.

Lemma update_falsy_password_unhashed_example :
  [("password", JStr EmptyString)] ≠ [] ∧
  truthy (JS.prop [("password", JStr EmptyString)] "password") = false ∧
  hashPassword Sample.bcrypt_hash Sample.BCRYPT_WORK_FACTOR
      [("password", JStr EmptyString)] Sample.store
    = (inr [("password", JStr EmptyString)], Sample.store) ∧
  ∃ clause,
    update Sample.catalog Sample.bcrypt_hash Sample.BCRYPT_WORK_FACTOR "u1"
        [("password", JStr EmptyString)] Sample.store
    = sendUpdate Sample.catalog "u1"
        (updateSql clause "$2", [JStr EmptyString; JStr "u1"]) Sample.store.
Proof.
  split; [discriminate|]. split; [reflexivity|].
  destruct (update_falsy_password_unhashed Sample.catalog Sample.bcrypt_hash
              Sample.BCRYPT_WORK_FACTOR "u1" [("password", JStr EmptyString)] Sample.store)
    as (Hhash & clause & _ & _ & Hupd).
  - discriminate.
  - reflexivity.
  - split; [exact Hhash|]. exists clause. exact Hupd.
Defined.
